(** * Gautier Iteration Test: the cycle runner of [program.cxx] and
      [program_optimized.cxx]

    The two programs share everything but the measuring part of a cycle (the
    alignment pause and the timed counting loop).  The development has
    nine parts:

    - the data the programs work on ([n_type] arithmetic, clock samples, the
      lines they print and log, the elapsed-time breakdown, the extraction of
      the cycle count from standard input);
    - [Runner]: the body of [main] that both programs have in common, over
      the measuring part of a cycle;
    - [Program] and [ProgramOptimized]: the measuring part of each file and
      the resulting [main];
    - [Rendering]: the characters of numbers, timestamps and file names;
    - the vocabulary of the properties: concrete worlds, and what is said of
      a measurement, a cycle and a run;
    - properties of the loops, of a cycle and of a whole run;
    - the claims of the specification, C1 to C10 but C3;
    - further properties of the code, X2 to X25;
    - C3, which compares the two programs and rests on the properties of
      both.

    Environment.  The clocks are scripts: [wall] lists the values that
    successive reads of [std::chrono::system_clock::now()] return, [mono]
    those of [std::chrono::steady_clock::now()], both in nanoseconds.  A read
    removes the head of its script; a run that needs a sample when the script
    is empty is [Starved] (the observation ends there, nothing is claimed
    about it).  The pause and the timed loops recurse on the script they
    read.  The [for] loop over the cycles is bounded by [fuel], the number of
    times its condition may be tested; a run that exceeds it is [OutOfFuel].
    Whether an [std::ofstream] opens is decided by the oracle [open_ok],
    asked with the number of files opened so far and the path.

    Rendering.  Text whose exact characters depend on the host (locale
    grouping, time zone, field widths) is kept as a structured [Line]: a
    timestamp rendered by [dateTimeToString] is the [time_t] it renders.
    [Rendering] gives the characters of what does not depend on the host:
    unsigned numbers, the two time formats on a broken-down local time, and
    the name of a detail file. *)

From Stdlib Require Import ZArith List Bool String Ascii Lia.
Import ListNotations.
Open Scope Z_scope.

(** ** Unsigned arithmetic of [n_type]

    [using n_type = uint_fast32_t;] an unsigned type of [w] bits, [32 <= w]
    (64 with glibc on x86-64, 32 on other platforms). *)

Definition wrap (w x : Z) : Z := x mod 2 ^ w.

(** ** Clock samples *)

Definition ns_per_sec : Z := 1000000000.

(** [std::chrono::system_clock::to_time_t]: whole seconds, truncated. *)
Definition to_time_t (tp : Z) : Z := Z.quot tp ns_per_sec.

(** [localTm.tm_sec] after [localtime_r]: the second of the minute.  The
    local UTC offset is taken to be a whole number of minutes. *)
Definition tm_sec (t : Z) : Z := t mod 60.

(** The second of the minute of a wall-clock sample: [localTm.tm_sec] as the
    inline code of [program_optimized.cxx] computes it. *)
Definition second_of (tp : Z) : Z := tm_sec (to_time_t tp).

(** [getCurrentSecond] of [program.cxx], on the sample [now] that its call of
    [std::chrono::system_clock::now()] returns. *)
Definition getCurrentSecond (now : Z) : Z := tm_sec (to_time_t now).

(** [getFileTimestamp], on the sample [now] that its call of
    [std::chrono::system_clock::now()] returns: the rendered stamp, kept as
    the [time_t] it renders. *)
Definition getFileTimestamp (now : Z) : Z := to_time_t now.

(** [dateTimeToString]: the rendered local date and time, kept as the
    [time_t] it renders. *)
Definition dateTimeToString (tp : Z) : Z := to_time_t tp.

(** ** Paths and lines *)

(** [logDetailDir / "T <stamp> <cycles> - <cycle>.txt"]; [stamp] is the
    [time_t] rendered by [getFileTimestamp]. *)
Record DetailPath : Type := mkDetailPath
  { dp_stamp : Z; dp_cycles : Z; dp_cycle : Z }.

Inductive Path : Type :=
| IterationLog                      (* CycleLog/Iteration.txt *)
| Detail (p : DetailPath).          (* CycleLogDetail/T ... .txt *)

(** A number as it is printed: as it is, or through [formatWithCommas]
    (grouped as the locale of the host says). *)
Inductive Number : Type :=
| Plain (value : Z)
| formatWithCommas (value : Z).

Inductive Line : Type :=
| Fill (c : ascii) (n : nat)                  (* std::string(n, c) *)
| Text (s : string)
| Blank
| DirsMissing                                  (* "Directories do not exist" "Missing:" *)
| MissingDir (name : string)
| InvalidInput                                 (* "Invalid input; defaulting to 1." *)
| RunningTests (cycles : Z)                    (* "Running N test runs" *)
| CyclesHeader (cycles : Z) (now : Z)          (* "Cycles: N\t<date>" *)
| RunningCycle (cycle cycles : Z)              (* "Running Cycle cc of nn" *)
| PausingFor (ms : Z)                          (* "Pausing for <ms>ms" *)
| PausedFor (ms : Z)                           (* "Paused for <ms>ms" *)
| ReadyToGo (now : Z)                          (* "Ready to go ... <date>" *)
| ProgressLine (cycle cycles i : Z) (now : Z)  (* "Cycle c of n Iteration i <date>", numbers grouped *)
| IterationsLine (n : Z) (start stop : Z)      (* "Iterations n Start <date> ... End <date>", n grouped *)
| PathLine (p : DetailPath)
| CyclePreamble (cycle : Z)                    (* "***\t<cycle>\t" and 60 stars *)
| TimeLine (t : Z)
| CountLine (n : Z)
| SumLine (sum cycles : Number)                (* "******\tSum: s operations across n cycles *********" *)
| AverageLine (avg : Number)                   (* "Average: a operations per second **********" *)
| StartEndLine (start stop : Z)                (* "Cycle started: <date> ... Cycle ended: <date> **********" *)
| ElapsedLine (d h m s ms : Z).                (* "Time: d days h hrs m min s sec ms ms" *)

(** ** The world a run acts on *)

Record World : Type := mkWorld
  { wall : list Z;                             (* system_clock samples to come *)
    mono : list Z;                             (* steady_clock samples to come *)
    opens : nat;                               (* files opened so far *)
    out : list Line;                           (* std::cout *)
    err : list Line;                           (* std::cerr *)
    sleeps : list Z;                           (* sleep_for calls, in ms *)
    itlog : list Line;                         (* appended to Iteration.txt *)
    details : list (DetailPath * list Line) }. (* detail files written *)

Record Env : Type := mkEnv
  { detail_dir_ok : bool;                      (* fs::exists(logDetailDir) *)
    log_dir_ok : bool;                         (* fs::exists(iterationDir) *)
    open_ok : nat -> Path -> bool }.           (* does the ofstream open? *)

Inductive Result (A : Type) : Type :=
| Ok (a : A) (st : World)
| Starved                                      (* a clock script ran out *)
| OutOfFuel.                                   (* the cycle loop was cut short *)

Arguments Ok {A} a st.
Arguments Starved {A}.
Arguments OutOfFuel {A}.

Definition M (A : Type) : Type := World -> Result A.

Definition ret {A} (a : A) : M A := fun st => Ok a st.

Definition bind {A B} (c : M A) (k : A -> M B) : M B :=
  fun st => match c st with
            | Ok a st' => k a st'
            | Starved => Starved
            | OutOfFuel => OutOfFuel
            end.

Declare Scope run_scope.
Delimit Scope run_scope with run.
Notation "x <- c ;; k" := (bind c (fun x => k))
  (at level 61, c at next level, right associativity) : run_scope.
Notation "c ;;; k" := (bind c (fun _ => k))
  (at level 61, right associativity) : run_scope.

Definition set_wall (l : list Z) (st : World) : World :=
  mkWorld l (mono st) (opens st) (out st) (err st) (sleeps st) (itlog st) (details st).

(** [std::chrono::system_clock::now()] *)
Definition system_now : M Z :=
  fun st => match wall st with
            | [] => Starved
            | t :: rest => Ok t (set_wall rest st)
            end.

(** [std::cout << ...] *)
Definition print (ls : list Line) : M unit :=
  fun st => Ok tt (mkWorld (wall st) (mono st) (opens st) (out st ++ ls) (err st)
                           (sleeps st) (itlog st) (details st)).

(** [std::cerr << ...] *)
Definition eprint (ls : list Line) : M unit :=
  fun st => Ok tt (mkWorld (wall st) (mono st) (opens st) (out st) (err st ++ ls)
                           (sleeps st) (itlog st) (details st)).

(** ** Elapsed-time breakdown (step 11 of [main]); [long long] arithmetic,
    [/] and [%] truncate. *)

Record Breakdown : Type := mkBreakdown
  { b_days : Z; b_hours : Z; b_minutes : Z; b_seconds : Z; b_ms : Z }.

Definition elapsed_breakdown (totalMs : Z) : Breakdown :=
  let days := Z.quot totalMs (1000 * 60 * 60 * 24) in
  let rem := Z.rem totalMs (1000 * 60 * 60 * 24) in
  let hours := Z.quot rem (1000 * 60 * 60) in
  let rem := Z.rem rem (1000 * 60 * 60) in
  let minutes := Z.quot rem (1000 * 60) in
  let rem := Z.rem rem (1000 * 60) in
  let seconds := Z.quot rem 1000 in
  let ms := Z.rem rem 1000 in
  mkBreakdown days hours minutes seconds ms.

(** Total milliseconds denoted by a breakdown. *)
Definition breakdown_ms (b : Breakdown) : Z :=
  b_days b * 86400000 + b_hours b * 3600000 + b_minutes b * 60000
  + b_seconds b * 1000 + b_ms b.

(** Binary64 arithmetic, for the passage of the elapsed time through
    [std::chrono::duration<double>].  A positive binary64 number is kept as
    the pair [(m, e)] of its 53-bit significand and exponent: its value is
    [m * 2 ^ e], with [2 ^ 52 <= m < 2 ^ 53].  The values at hand are normal
    numbers; operations round to nearest, ties to even. *)

(** [n / d] rounded to the nearest integer, ties to even. *)
Definition round_even (n d : Z) : Z :=
  let q := n / d in
  let r := n mod d in
  if 2 * r <? d then q
  else if d <? 2 * r then q + 1
  else if Z.even q then q else q + 1.

(** Numerator and denominator of [(n / d) / 2 ^ e]. *)
Definition scaled (n d e : Z) : Z * Z :=
  if 0 <=? e then (n, d * 2 ^ e) else (n * 2 ^ (- e), d).

(** The binary64 number nearest to [n / d], for [0 < n] and [0 < d]. *)
Definition binary64 (n d : Z) : Z * Z :=
  let e0 := Z.log2 n - Z.log2 d - 52 in
  let e := if fst (scaled n d e0) <? snd (scaled n d e0) * 2 ^ 52 then e0 - 1 else e0 in
  let m := round_even (fst (scaled n d e)) (snd (scaled n d e)) in
  if m =? 2 ^ 53 then (2 ^ 52, e + 1) else (m, e).

(** [x / k] and [x * k] in binary64, for an integer [k] that binary64 holds
    exactly, and the conversion of [x] to an integer, which truncates. *)
Definition b64_div (x : Z * Z) (k : Z) : Z * Z :=
  let '(m, e) := x in
  if 0 <=? e then binary64 (m * 2 ^ e) k else binary64 m (k * 2 ^ (- e)).

Definition b64_mul (x : Z * Z) (k : Z) : Z * Z :=
  let '(m, e) := x in
  if 0 <=? e then binary64 (m * k * 2 ^ e) 1 else binary64 (m * k) (2 ^ (- e)).

Definition b64_trunc (x : Z * Z) : Z :=
  let '(m, e) := x in
  if 0 <=? e then m * 2 ^ e else m / 2 ^ (- e).

(** [std::chrono::duration<double> totalDiff = cycleEndTime - cycleStartTime;
    totalMs = duration_cast<milliseconds>(totalDiff).count()]: the
    nanoseconds between the two samples are converted to binary64 and
    divided by 1e9, the seconds are multiplied by 1000 and the product is
    truncated.  Rounding is symmetric around zero. *)
Definition elapsed_ms (start stop : Z) : Z :=
  let ns := stop - start in
  if ns =? 0 then 0
  else Z.sgn ns * b64_trunc (b64_mul (b64_div (binary64 (Z.abs ns) 1) 1000000000) 1000).

(** [(cycles > 0) ? (sumOfIterations / cycles) : 0] *)
Definition average (sumOfIterations cycles : Z) : Z :=
  if 0 <? cycles then sumOfIterations / cycles else 0.

(** ** Reading the cycle count: [std::cin >> cycles]

    Formatted extraction of an unsigned integer as the standard library does
    it ([num_get], conversion by the rules of [strtoull]): leading white
    space is skipped; an optional sign and the decimal digits after it form
    the field; a field with a minus sign is negated in the unsigned type.
    The result is the pair of [std::cin.good()] and the value stored, if one
    is stored. *)

Definition isspace (c : ascii) : bool :=
  match N_of_ascii c with
  | 32%N | 9%N | 10%N | 11%N | 12%N | 13%N => true
  | _ => false
  end.

Definition digit_val (c : ascii) : option Z :=
  let n := Z.of_N (N_of_ascii c) in
  if (48 <=? n) && (n <=? 57) then Some (n - 48) else None.

Fixpoint skipws (s : string) : string :=
  match s with
  | EmptyString => EmptyString
  | String c s' => if isspace c then skipws s' else s
  end.

(** Accumulates the digits at the front of [s]: the value, whether a digit
    was found, and what follows the digits. *)
Fixpoint digits (s : string) (acc : Z) (found : bool) : Z * bool * string :=
  match s with
  | EmptyString => (acc, found, EmptyString)
  | String c s' =>
      match digit_val c with
      | Some d => digits s' (acc * 10 + d) true
      | None => (acc, found, s)
      end
  end.

Definition extract_unsigned (w : Z) (input : string) : bool * option Z :=
  match skipws input with
  | EmptyString => (false, None)     (* end of input: failbit|eofbit, nothing stored *)
  | String c rest =>
      let negative := Ascii.eqb c "-" in
      let field := if negative || Ascii.eqb c "+" then rest else String c rest in
      let '(result, found, tail) := digits field 0 false in
      let at_eof := match tail with EmptyString => true | _ => false end in
      if negb found then (false, Some 0)                           (* failbit *)
      else if 2 ^ w - 1 <? result then (false, Some (2 ^ w - 1))   (* failbit *)
      else (negb at_eof, Some (if negative then wrap w (- result) else result))
  end.

(** Step 5 of [main]: the cycle count, and whether the warning was given. *)
Definition read_cycles (w : Z) (input : string) : Z * bool :=
  let '(good, stored) := extract_unsigned w input in
  let cycles := match stored with Some v => v | None => 1 end in
  if negb good || (cycles <? 1) then (1, true) else (cycles, false).

(** ** What a cycle measures *)

(** What the measuring part of a cycle has produced so far: the lines in
    [buffer], the lines sent to [std::cout], and the sleeps made. *)
Record Acc : Type := mkAcc
  { a_buffer : list Line; a_console : list Line; a_sleeps : list Z }.

Definition acc0 : Acc := mkAcc [] [] [].

(** [std::cout << "Pausing for ..."; buffer << "Paused for ...";
    sleep_for(milliseconds(pauseMs))] *)
Definition pause (pauseMs : Z) (acc : Acc) : Acc :=
  mkAcc (a_buffer acc ++ [PausedFor pauseMs])
        (a_console acc ++ [PausingFor pauseMs])
        (a_sleeps acc ++ [pauseMs]).

(** [buffer << line] *)
Definition log_line (l : Line) (acc : Acc) : Acc :=
  mkAcc (a_buffer acc ++ [l]) (a_console acc) (a_sleeps acc).

(** [std::cout << line] *)
Definition say (l : Line) (acc : Acc) : Acc :=
  mkAcc (a_buffer acc) (a_console acc ++ [l]) (a_sleeps acc).

Record Measurement : Type := mkMeasurement
  { m_startStr : Z;            (* startStr *)
    m_iterations : Z;          (* iterations *)
    m_acc : Acc }.

(** The spec's CycleResult. *)
Record CycleResult : Type := mkCycleResult
  { cycleIndex : Z;
    iterationCount : Z;
    startTimestamp : Z;
    endTimestamp : Z;
    progressLog : list Line }.

(** The spec's RunSummary. *)
Record RunSummary : Type := mkRunSummary
  { totalIterations : Z;
    cycleCount : Z;
    runStart : Z;
    runEnd : Z;
    averageIterationsPerCycle : Z;
    elapsedBreakdown : Breakdown }.

(** ** The part of [main] common to both programs *)

Module Runner.

Section WithMeasure.

Variable w : Z.
Variable env : Env.

(** Steps 7 to 9 of a cycle: from the clock scripts, the measurement and
    what is left of the scripts. *)
Variable measure :
  Z -> Z -> list Z -> list Z -> option (Measurement * list Z * list Z).

(** Construction of an [std::ofstream]: does it open? *)
Definition open_file (p : Path) : M bool :=
  fun st => Ok (open_ok env (opens st) p)
               (mkWorld (wall st) (mono st) (S (opens st)) (out st) (err st)
                        (sleeps st) (itlog st) (details st)).

(** [itLog << ...] on a stream that opened or not. *)
Definition log_lines (opened : bool) (ls : list Line) : M unit :=
  fun st => Ok tt (mkWorld (wall st) (mono st) (opens st) (out st) (err st)
                           (sleeps st) (itlog st ++ (if opened then ls else []))
                           (details st)).

(** [{ std::ofstream itLog(iterationLogPath, std::ios::app); itLog << ...; }] *)
Definition append_log (ls : list Line) : M unit :=
  (opened <- open_file IterationLog ;;
   log_lines opened ls)%run.

(** [{ std::ofstream ofs(detailFilePath); if(ofs.is_open()) ofs << buffer.str(); }] *)
Definition write_detail (p : DetailPath) (buffer : list Line) : M unit :=
  (opened <- open_file (Detail p) ;;
   fun st => Ok tt (mkWorld (wall st) (mono st) (opens st) (out st) (err st)
                            (sleeps st) (itlog st)
                            (details st ++ (if opened then [(p, buffer)] else []))))%run.

Definition measure_cycle (cycles cycle : Z) : M Measurement :=
  fun st => match measure cycles cycle (wall st) (mono st) with
            | None => Starved
            | Some (m, wall', mono') =>
                Ok m (mkWorld wall' mono' (opens st)
                              (out st ++ a_console (m_acc m)) (err st)
                              (sleeps st ++ a_sleeps (m_acc m))
                              (itlog st) (details st))
            end.

(** The body of the [for] loop over cycles: the cycle's result and the new
    [sumOfIterations]. *)
Definition run_cycle (cycles cycle sumOfIterations : Z) : M (CycleResult * Z) :=
  (print [Fill "*" 76; RunningCycle cycle cycles; Fill "*" 44] ;;;
   stamp <- system_now ;;
   let detailFilePath := mkDetailPath (getFileTimestamp stamp) cycles cycle in
   m <- measure_cycle cycles cycle ;;
   let iterations := m_iterations m in
   let sumOfIterations := wrap w (sumOfIterations + iterations) in
   endTp <- system_now ;;
   let endStr := dateTimeToString endTp in
   let buffer :=
     a_buffer (m_acc m) ++ [IterationsLine iterations (m_startStr m) endStr] in
   print [PathLine detailFilePath] ;;;
   write_detail detailFilePath buffer ;;;
   print buffer ;;;
   append_log [CyclePreamble cycle; TimeLine (m_startStr m);
               CountLine iterations; TimeLine endStr; Blank] ;;;
   ret (mkCycleResult cycle iterations (m_startStr m) endStr (a_buffer (m_acc m)),
        sumOfIterations))%run.

(** [for(n_type cycle = 1u; cycle <= cycles; ++cycle)]: [fuel] bounds the
    number of times the condition is tested. *)
Fixpoint cycle_loop (fuel : nat) (cycles cycle sumOfIterations : Z)
         (results : list CycleResult) : M (Z * list CycleResult) :=
  match fuel with
  | O => fun _ => OutOfFuel
  | S fuel' =>
      if cycle <=? cycles then
        (r <- run_cycle cycles cycle sumOfIterations ;;
         cycle_loop fuel' cycles (wrap w (cycle + 1)) (snd r)
                    (results ++ [fst r]))%run
      else ret (sumOfIterations, results)
  end.

Definition banner : list Line :=
  [Fill "*" 50;
   Text "Gautier Iteration Test";
   Text "Provides an informal assessment of operations per second on a given system";
   Text "Essentially how fast can C++ code execute today";
   Text "Helps in building better estimates for capacity planning and design";
   Fill "*" 50;
   Text "How many times you want the test to run?";
   Text "Type number then <enter>:  "].

(** Lines 116-122 of [program.cxx]: the header appended to the iteration log;
    the stream is opened before the clock is read. *)
Definition log_header (cycles : Z) : M unit :=
  (opened <- open_file IterationLog ;;
   now <- system_now ;;
   log_lines opened [Fill "*" 33; CyclesHeader cycles (dateTimeToString now);
                     Fill "*" 28])%run.

(** [main] from line 82 on, that is once [fs::current_path] and the two
    [fs::create_directories] of lines 74 to 80 have returned (an exception
    of theirs is not caught, and the program is then terminated before it
    tests anything): the exit code and, when the cycles were run, their
    results and the summary. *)
Definition main (fuel : nat) (input : string)
  : M (Z * option (list CycleResult * RunSummary)) :=
  if negb (detail_dir_ok env) || negb (log_dir_ok env) then
    (eprint ([DirsMissing]
             ++ (if negb (detail_dir_ok env) then [MissingDir "CycleLogDetail"] else [])
             ++ (if negb (log_dir_ok env) then [MissingDir "CycleLog"] else [])) ;;;
     ret (1, None))%run
  else
    (print banner ;;;
     let cycles := fst (read_cycles w input) in
     (if snd (read_cycles w input) then eprint [InvalidInput] else ret tt) ;;;
     print [RunningTests cycles] ;;;
     log_header cycles ;;;
     cycleStartTime <- system_now ;;
     looped <- cycle_loop fuel cycles 1 0 [] ;;
     let sumOfIterations := fst looped in
     cycleEndTime <- system_now ;;
     let b := elapsed_breakdown (elapsed_ms cycleStartTime cycleEndTime) in
     print [SumLine (formatWithCommas sumOfIterations) (formatWithCommas cycles); Blank] ;;;
     let avgOpsPerSec := average sumOfIterations cycles in
     let cycleStartStr := dateTimeToString cycleStartTime in
     let cycleEndStr := dateTimeToString cycleEndTime in
     let elapsed :=
       ElapsedLine (b_days b) (b_hours b) (b_minutes b) (b_seconds b) (b_ms b) in
     print [AverageLine (formatWithCommas avgOpsPerSec); Blank;
            StartEndLine cycleStartStr cycleEndStr; elapsed] ;;;
     append_log [SumLine (Plain sumOfIterations) (Plain cycles);
                 StartEndLine cycleStartStr cycleEndStr;
                 AverageLine (Plain avgOpsPerSec); elapsed; Fill "_" 33; Blank] ;;;
     ret (0, Some (snd looped,
                   mkRunSummary sumOfIterations cycles cycleStartStr cycleEndStr
                                avgOpsPerSec b)))%run.

End WithMeasure.

End Runner.

(** ** [program.cxx]: wall-clock polling *)

Module Program.

(** Lines 152-164: [while(true)] of the pause logic; [pauseMs] was sampled
    before the loop or after the previous sleep. *)
Fixpoint pause_loop (w : Z) (wall : list Z) (pauseMs : Z) (acc : Acc)
  : option (Acc * list Z) :=
  match wall with
  | [] => None
  | t :: wall1 =>
      let currentSec := getCurrentSecond t in
      if negb (currentSec mod 8 =? 0) then Some (acc, wall1)
      else
        let acc := pause pauseMs acc in
        match wall1 with
        | [] => None
        | t' :: wall2 =>                           (* pauseMs = getCurrentSecond() * 100u *)
            pause_loop w wall2 (wrap w (getCurrentSecond t' * 100)) acc
        end
  end.

(** Lines 183-196: the body of [while(currentSecond == startSecond)],
    followed by the test of the condition. *)
Fixpoint counting_loop (w cycles cycle startSecond : Z) (wall : list Z)
         (i iterations : Z) (acc : Acc) : option (Z * Acc * list Z) :=
  let iterations := wrap w (i + 1) in
  let i := wrap w (i + 1) in
  if i mod 100000 =? 0 then
    match wall with
    | _ :: progressTp :: t :: rest =>
        let acc :=
          log_line (ProgressLine cycle cycles i (dateTimeToString progressTp)) acc in
        let currentSecond := getCurrentSecond t in
        if currentSecond =? startSecond
        then counting_loop w cycles cycle startSecond rest i iterations acc
        else Some (iterations, acc, rest)
    | _ => None
    end
  else
    match wall with
    | t :: rest =>
        let currentSecond := getCurrentSecond t in
        if currentSecond =? startSecond
        then counting_loop w cycles cycle startSecond rest i iterations acc
        else Some (iterations, acc, rest)
    | [] => None
    end.

(** Lines 149-197. *)
Definition measure (w cycles cycle : Z) (wall mono : list Z)
  : option (Measurement * list Z * list Z) :=
  match wall with
  | [] => None
  | t0 :: wall =>
      let pauseMs := wrap w (getCurrentSecond t0 * 100) in
      match pause_loop w wall pauseMs acc0 with
      | None => None
      | Some (acc, wall) =>
          match wall with
          | nowTp :: startTp :: t :: wall =>
              let acc := say (ReadyToGo (dateTimeToString nowTp)) acc in
              let startStr := dateTimeToString startTp in
              let startSecond := getCurrentSecond t in
              let currentSecond := startSecond in
              if currentSecond =? startSecond then
                match counting_loop w cycles cycle startSecond wall 0 0 acc with
                | None => None
                | Some (iterations, acc, wall) =>
                    Some (mkMeasurement startStr iterations acc, wall, mono)
                end
              else Some (mkMeasurement startStr 0 acc, wall, mono)
          | _ => None
          end
      end
  end.

Definition main (w : Z) (env : Env) := Runner.main w env (measure w).

End Program.

(** ** [program_optimized.cxx]: monotonic deadline *)

Module ProgramOptimized.

(** Lines 168-180: [while(localTm.tm_sec % 8 == 0)]; [sec] is
    [localTm.tm_sec] of the latest sample. *)
Fixpoint pause_loop (w : Z) (wall : list Z) (sec : Z) (acc : Acc)
  : option (Acc * list Z) :=
  if sec mod 8 =? 0 then
    let pauseMs := wrap w (sec * 100) in
    let acc := pause pauseMs acc in
    match wall with
    | [] => None
    | t :: rest => pause_loop w rest (second_of t) acc
    end
  else Some (acc, wall).

(** Lines 197-210: [while(std::chrono::steady_clock::now() < endTp)]. *)
Fixpoint counting_loop (w cycles cycle endTp : Z) (mono wall : list Z)
         (i iterations : Z) (acc : Acc) {struct mono}
  : option (Z * Acc * list Z * list Z) :=
  match mono with
  | [] => None
  | now :: mono' =>
      if now <? endTp then
        let iterations := wrap w (i + 1) in
        let i := wrap w (i + 1) in
        if i mod 100000 =? 0 then
          match wall with
          | [] => None
          | progressTp :: wall' =>
              counting_loop w cycles cycle endTp mono' wall' i iterations
                (log_line (ProgressLine cycle cycles i (dateTimeToString progressTp)) acc)
          end
        else counting_loop w cycles cycle endTp mono' wall i iterations acc
      else Some (iterations, acc, wall, mono')
  end.

(** Lines 158-210. *)
Definition measure (w cycles cycle : Z) (wall mono : list Z)
  : option (Measurement * list Z * list Z) :=
  match wall with
  | [] => None
  | t0 :: wall =>
      match pause_loop w wall (second_of t0) acc0 with
      | None => None
      | Some (acc, wall) =>
          match wall, mono with
          | nowTp :: t :: wall, startTp :: mono =>
              let endTp := startTp + 1 * ns_per_sec in
              let nowStr := dateTimeToString nowTp in
              let startStr := dateTimeToString t in
              let acc := say (ReadyToGo nowStr) acc in
              match counting_loop w cycles cycle endTp mono wall 0 0 acc with
              | None => None
              | Some (iterations, acc, wall, mono) =>
                  Some (mkMeasurement startStr iterations acc, wall, mono)
              end
          | _, _ => None
          end
      end
  end.

Definition main (w : Z) (env : Env) := Runner.main w env (measure w).

End ProgramOptimized.

(** ** The characters of numbers, timestamps and file names

    What the programs print in the "C" locale: unsigned integers, the two
    [strftime] formats and the name of a detail file.  [localtime_r] is not
    modelled: the formats are given the broken-down local time [localTm] that
    it stores. *)

Module Rendering.

Definition digit_char (d : Z) : ascii := ascii_of_N (Z.to_N (48 + d)).

(** [os << n] for an unsigned integer: its decimal digits, the most
    significant first; [fuel] bounds their number. *)
Fixpoint show_digits (fuel : nat) (n : Z) : string :=
  match fuel with
  | O => EmptyString
  | S fuel' =>
      if n <? 10 then String (digit_char n) EmptyString
      else (show_digits fuel' (n / 10) ++ String (digit_char (n mod 10)) EmptyString)%string
  end.

Definition show (n : Z) : string := show_digits (S (Z.to_nat (Z.log2 n))) n.

(** [os << std::setw(2) << std::setfill('0') << n]: at least two characters,
    filled with zeros on the left. *)
Definition setw2 (n : Z) : string :=
  let s := show n in
  if (String.length s <? 2)%nat then String "0" s else s.

(** The fields of [std::tm] that the formats use; [tm_year] counts from 1900
    and [tm_mon] from 0. *)
Record tm : Type := mkTm
  { tm_year : Z; tm_mon : Z; tm_mday : Z; tm_hour : Z; tm_min : Z; tm_sec : Z }.

(** The conversions [%m %d %H %I %M %S]: two digits. *)
Definition two_digits (n : Z) : string :=
  String (digit_char (n / 10)) (String (digit_char (n mod 10)) EmptyString).

(** The hour of [%I], on the 12-hour clock. *)
Definition hour12 (h : Z) : Z := if h mod 12 =? 0 then 12 else h mod 12.

(** [oss << std::put_time(&localTm, "%Y-%m-%d %H:%M:%S")] *)
Definition dateTimeToString (localTm : tm) : string :=
  (show (tm_year localTm + 1900) ++ "-" ++ two_digits (tm_mon localTm + 1) ++ "-"
   ++ two_digits (tm_mday localTm) ++ " " ++ two_digits (tm_hour localTm) ++ ":"
   ++ two_digits (tm_min localTm) ++ ":" ++ two_digits (tm_sec localTm))%string.

(** [std::strftime(buf, sizeof(buf), "%Y%m%d_%I_%M_%S", &localTm)] *)
Definition getFileTimestamp (localTm : tm) : string :=
  (show (tm_year localTm + 1900) ++ two_digits (tm_mon localTm + 1)
   ++ two_digits (tm_mday localTm) ++ "_" ++ two_digits (hour12 (tm_hour localTm)) ++ "_"
   ++ two_digits (tm_min localTm) ++ "_" ++ two_digits (tm_sec localTm))%string.

(** [fname << "T " << getFileTimestamp() << " " << std::setw(2)
    << std::setfill('0') << cycles << " - " << std::setw(2)
    << std::setfill('0') << cycle << ".txt"], on the stamp that the call
    returns. *)
Definition fname (stamp : string) (cycles cycle : Z) : string :=
  ("T " ++ stamp ++ " " ++ setw2 cycles ++ " - " ++ setw2 cycle ++ ".txt")%string.

End Rendering.

(** * Vocabulary of the properties *)

(** ** Lists of integers *)

(** [a; a+1; ...], [n] values. *)
Fixpoint Zrange (a : Z) (n : nat) : list Z :=
  match n with
  | O => []
  | S n' => a :: Zrange (a + 1) n'
  end.

Definition sumZ (l : list Z) : Z := fold_right Z.add 0 l.

(** ** Concrete worlds *)

(** [n] seconds, as a clock sample. *)
Definition sec (n : Z) : Z := n * ns_per_sec.

Definition fresh_world (wall mono : list Z) : World :=
  mkWorld wall mono 0 [] [] [] [] [].

(** A line of input, ended by a newline. *)
Definition line (s : string) : string := (s ++ String "010"%char EmptyString)%string.

Definition env_all_ok : Env := mkEnv true true (fun _ _ => true).

Definition env_no_detail : Env :=
  mkEnv true true (fun _ p => match p with Detail _ => false | IterationLog => true end).

Definition env_no_log : Env :=
  mkEnv true true (fun _ p => match p with IterationLog => false | Detail _ => true end).

Definition two_cycle_wall : list Z :=
  repeat (sec 1) 9 ++ repeat (sec 2) 8 ++ repeat (sec 3) 3.

Definition two_cycle_mono : list Z := [0; 1; 2; sec 1; sec 1; sec 1; sec 2].

Definition one_cycle_world : World :=
  fresh_world [sec 7; sec 7; sec 7; sec 7; sec 8; sec 9; sec 9; sec 9; sec 9; sec 9;
               sec 10; sec 10; sec 10]
              [0; 5; sec 1].




(** A wall clock that is set back during the run, for a run of two cycles. *)
Definition jumpy_wall : list Z :=
  [sec 100; sec 50; sec 7; sec 8; sec 9; sec 3; sec 2; sec 1; sec 1; sec 1; sec 1;
   sec 1; sec 0; sec 5].

(** A world in which the pause of [program_optimized.cxx] sleeps three
    times: the wall clock is at second 0, then 8, then 16 when the cycle
    starts. *)
Definition pausing_world : World :=
  fresh_world [sec 1; sec 1; sec 1; sec 60; sec 8; sec 16; sec 17; sec 17; sec 17;
               sec 18; sec 18]
              [0; 5; sec 1].

(** ** Long cycles

    Worlds in which the deadline loop counts a prescribed number of
    iterations: the wall clock stands at 1 s, and for a cycle that is to
    count [k] the monotonic clock gives the start sample, [k] samples before
    the deadline and one sample at the deadline. *)

Definition busy_cycle (k : Z) : list Z :=
  0 :: repeat 0 (Z.to_nat k) ++ [sec 1].

Fixpoint busy_mono (ks : list Z) : list Z :=
  match ks with
  | [] => []
  | k :: ks' => busy_cycle k ++ busy_mono ks'
  end.

Definition busy_world (ks : list Z) : World :=
  fresh_world (repeat (sec 1) (Z.to_nat (sumZ ks + 5 * Z.of_nat (List.length ks) + 3)))
              (busy_mono ks).

(** ** The measuring part of a cycle *)

(** A progress line of cycle [cycle] of [cycles]: taken at a multiple of
    100,000 iterations. *)
Definition progress_sample (cycles cycle : Z) (l : Line) : Prop :=
  exists i now, l = ProgressLine cycle cycles i now /\ i mod 100000 = 0.

(** [acc'] extends [acc] by the sleeps [ss], each with its line in the buffer
    and on the console. *)
Definition paused (ss : list Z) (acc acc' : Acc) : Prop :=
  a_sleeps acc' = a_sleeps acc ++ ss /\
  a_buffer acc' = a_buffer acc ++ map PausedFor ss /\
  a_console acc' = a_console acc ++ map PausingFor ss.

(** [acc'] extends [acc] by progress lines only: nothing on the console, no
    sleep. *)
Definition counted (cycles cycle : Z) (acc acc' : Acc) : Prop :=
  (exists progress,
      a_buffer acc' = a_buffer acc ++ progress /\
      Forall (progress_sample cycles cycle) progress) /\
  a_console acc' = a_console acc /\
  a_sleeps acc' = a_sleeps acc.

(** What both measuring parts hand to the rest of the cycle: a buffer with
    one line for each sleep, then progress lines at multiples of 100,000
    iterations; a console with one line for each sleep, then the
    ready line; and a count within [n_type]. *)
Definition measured (w cycles cycle : Z) (m : Measurement) : Prop :=
  (exists progress now,
      a_buffer (m_acc m) = map PausedFor (a_sleeps (m_acc m)) ++ progress /\
      Forall (progress_sample cycles cycle) progress /\
      a_console (m_acc m) = map PausingFor (a_sleeps (m_acc m)) ++ [ReadyToGo now]) /\
  0 <= m_iterations m < 2 ^ w.


(** The samples of [wall] that the condition of the wall-clock loop of
    [program.cxx] tests in its first [n] iterations, the counter starting
    from [i]: one sample in each iteration (line 196), read after the two
    samples of lines 189 and 190 in an iteration that writes a progress
    line. *)
Fixpoint tested (w i : Z) (n : nat) (wall : list Z) : list Z :=
  match n with
  | O => []
  | S n' =>
      let i' := wrap w (i + 1) in
      match (if i' mod 100000 =? 0 then skipn 2 wall else wall) with
      | [] => []
      | t :: rest => t :: tested w i' n' rest
      end
  end.

(** The values of [i] at which a counting loop that starts from [i] and runs
    [n] times writes a progress line. *)
Fixpoint marks (w i : Z) (n : nat) : list Z :=
  match n with
  | O => []
  | S n' =>
      let i' := wrap w (i + 1) in
      (if i' mod 100000 =? 0 then [i'] else []) ++ marks w i' n'
  end.

(** The progress lines of cycle [cycle] of [cycles] written at the iterations
    [points], with the wall-clock samples [stamps]. *)
Definition progress_lines (cycles cycle : Z) (points stamps : list Z) : list Line :=
  map (fun p => ProgressLine cycle cycles (fst p) (dateTimeToString (snd p)))
      (combine points stamps).

(** 100,000, 200,000, ...: the multiples of 100,000 from 100,000 to [n]. *)
Definition hundred_thousands (n : Z) : list Z :=
  map (Z.mul 100000) (Zrange 1 (Z.to_nat (n / 100000))).

(** Pairs of samples, in the order in which they are read. *)
Definition flat_pairs (ps : list (Z * Z)) : list Z :=
  List.concat (map (fun p => [fst p; snd p]) ps).

(** ** A cycle and the cycle loop *)

(** The block a cycle appends to the iteration log. *)
Definition cycle_block (r : CycleResult) : list Line :=
  [CyclePreamble (cycleIndex r); TimeLine (startTimestamp r);
   CountLine (iterationCount r); TimeLine (endTimestamp r); Blank].

(** The contents of a cycle's detail file. *)
Definition detail_contents (r : CycleResult) : list Line :=
  progressLog r
  ++ [IterationsLine (iterationCount r) (startTimestamp r) (endTimestamp r)].

(** The records of a cycle: the sleeps, the console, the detail file and the
    block of the iteration log. *)
Definition cycle_records (env : Env) (cycles cycle : Z) (st st' : World)
           (r : CycleResult) : Prop :=
  exists ss progress now stamp,
    let path := mkDetailPath stamp cycles cycle in
    cycleIndex r = cycle /\
    sleeps st' = sleeps st ++ ss /\
    progressLog r = map PausedFor ss ++ progress /\
    Forall (progress_sample cycles cycle) progress /\
    out st' = out st ++ [Fill "*" 76; RunningCycle cycle cycles; Fill "*" 44]
                     ++ map PausingFor ss ++ [ReadyToGo now; PathLine path]
                     ++ detail_contents r /\
    details st' = details st ++ (if open_ok env (opens st) (Detail path)
                                 then [(path, detail_contents r)] else []) /\
    itlog st' = itlog st ++ (if open_ok env (S (opens st)) IterationLog
                             then cycle_block r else []) /\
    err st' = err st.

(** What a completed loop returns; the loop is cut short only when fewer
    than [cycles + 2 - cycle] tests of its condition are allowed. *)
Definition loop_post (w : Z) (fuel : nat) (cycles cycle sum : Z)
           (results : list CycleResult) (r : Result (Z * list CycleResult)) : Prop :=
  match r with
  | Ok (sum', results') _ =>
      exists new,
        results' = results ++ new /\
        map cycleIndex new = Zrange cycle (Z.to_nat (cycles + 1 - cycle)) /\
        sum' = wrap w (sum + sumZ (map iterationCount new))
  | Starved => True
  | OutOfFuel => (fuel <= Z.to_nat (cycles + 1 - cycle))%nat
  end.

(** ** The records of a cycle, from what it measured *)








(** ** A run *)

(** The block that ends the iteration log of a run. *)
Definition summary_block (s : RunSummary) : list Line :=
  let b := elapsedBreakdown s in
  [SumLine (Plain (totalIterations s)) (Plain (cycleCount s));
   StartEndLine (runStart s) (runEnd s);
   AverageLine (Plain (averageIterationsPerCycle s));
   ElapsedLine (b_days b) (b_hours b) (b_minutes b) (b_seconds b) (b_ms b);
   Fill "_" 33; Blank].

(** A run that reports ran the cycles 1, 2, ..., N in this order, N being the
    count read at startup, and its total is the sum of the cycles' counts
    modulo [2 ^ w]; a run is never cut short by the bound on the loop. *)
Definition run_exact (w : Z) (input : string)
           (r : Result (Z * option (list CycleResult * RunSummary))) : Prop :=
  match r with
  | Ok (_, Some (results, summary)) _ =>
      let N := fst (read_cycles w input) in
      cycleCount summary = N /\
      map cycleIndex results = Zrange 1 (Z.to_nat N) /\
      totalIterations summary = wrap w (sumZ (map iterationCount results)) /\
      (sumZ (map iterationCount results) < 2 ^ w ->
       totalIterations summary = sumZ (map iterationCount results))
  | Ok (_, None) _ => True
  | Starved => True
  | OutOfFuel => False
  end.

(** Computations that leave the error stream alone. *)
Definition keeps_err {A} (c : M A) : Prop :=
  forall st a st', c st = Ok a st' -> err st' = err st.

(** The error stream of a run that reports holds what it held before and
    the warning about the input, if that was given. *)
Definition quiet (w : Z) (input : string) (st : World)
           (r : Result (Z * option (list CycleResult * RunSummary))) : Prop :=
  match r with
  | Ok (_, Some _) st' =>
      err st' = err st ++ (if snd (read_cycles w input) then [InvalidInput] else [])
  | _ => True
  end.

(** ** Files that do not open *)

(** Two worlds that differ at most in the detail files (when [fd]) and in the
    iteration log (when [fl]). *)
Definition same_but (fd fl : bool) (st1 st2 : World) : Prop :=
  wall st1 = wall st2 /\ mono st1 = mono st2 /\ opens st1 = opens st2 /\
  out st1 = out st2 /\ err st1 = err st2 /\ sleeps st1 = sleeps st2 /\
  (fl = false -> itlog st1 = itlog st2) /\
  (fd = false -> details st1 = details st2).

Definition same_result (fd fl : bool) {A} (r1 r2 : Result A) : Prop :=
  match r1, r2 with
  | Ok a1 st1, Ok a2 st2 => a1 = a2 /\ same_but fd fl st1 st2
  | Starved, Starved => True
  | OutOfFuel, OutOfFuel => True
  | _, _ => False
  end.

(** The environment in which every detail file opens, and the one in which
    the iteration log always opens. *)
Definition details_open (env : Env) : Env :=
  mkEnv (detail_dir_ok env) (log_dir_ok env)
        (fun n p => match p with
                    | Detail _ => true
                    | IterationLog => open_ok env n p
                    end).

Definition log_open (env : Env) : Env :=
  mkEnv (detail_dir_ok env) (log_dir_ok env)
        (fun n p => match p with
                    | IterationLog => true
                    | Detail _ => open_ok env n p
                    end).

(** A result without the detail files, and without the iteration log. *)
Definition forget_details {A} (r : Result A) : Result A :=
  match r with
  | Ok a st => Ok a (mkWorld (wall st) (mono st) (opens st) (out st) (err st)
                             (sleeps st) (itlog st) [])
  | Starved => Starved
  | OutOfFuel => OutOfFuel
  end.

Definition forget_itlog {A} (r : Result A) : Result A :=
  match r with
  | Ok a st => Ok a (mkWorld (wall st) (mono st) (opens st) (out st) (err st)
                             (sleeps st) [] (details st))
  | Starved => Starved
  | OutOfFuel => OutOfFuel
  end.

(** ** Startup and completion *)

(** A world after [ls] was sent to the error stream. *)
Definition with_err (ls : list Line) (st : World) : World :=
  mkWorld (wall st) (mono st) (opens st) (out st) (err st ++ ls) (sleeps st)
          (itlog st) (details st).

(** The directories that step 3 of [main] finds missing, as it names them. *)
Definition missing_dirs (env : Env) : list Line :=
  (if detail_dir_ok env then [] else [MissingDir "CycleLogDetail"])
  ++ (if log_dir_ok env then [] else [MissingDir "CycleLog"]).

(** What the check of the directories decides: with both directories the run
    can only end with exit code 0 and a report; with one missing it ends at
    once with exit code 1, no report, and a world that differs by the
    message on the error stream only. *)
Definition exit_status (env : Env) (st : World)
           (r : Result (Z * option (list CycleResult * RunSummary))) : Prop :=
  match r with
  | Ok (code, report) st' =>
      if detail_dir_ok env && log_dir_ok env
      then code = 0 /\ report <> None
      else code = 1 /\ report = None /\
           st' = with_err (DirsMissing :: missing_dirs env) st
  | Starved => detail_dir_ok env && log_dir_ok env = true
  | OutOfFuel => detail_dir_ok env && log_dir_ok env = true
  end.

(** The detail files of the cycles with the results [results], written after
    the stamps [stamps] were taken. *)
Definition detail_files (cycles : Z) (stamps : list Z) (results : list CycleResult)
  : list (DetailPath * list Line) :=
  map (fun p => (mkDetailPath (fst p) cycles (cycleIndex (snd p)),
                 detail_contents (snd p)))
      (combine stamps results).

(** The samples of the wall clock that one cycle reads, in the order in
    which it reads them, and the file [f] that the cycle writes (the stamp
    of its path and the cycle's result): the first sample is the one of the
    stamp, a later one gives the start time of the result and the last one
    its end time. *)
Definition cycle_samples (segment : list Z) (f : Z * CycleResult) : Prop :=
  exists stamp mid1 startTp mid2 endTp,
    segment = stamp :: mid1 ++ startTp :: mid2 ++ [endTp] /\
    fst f = getFileTimestamp stamp /\
    startTimestamp (snd f) = dateTimeToString startTp /\
    endTimestamp (snd f) = dateTimeToString endTp.

(** ** The clocks during a cycle of [program_optimized.cxx]

    What the two clocks give in the course of one cycle, in the order of the
    reads: on the wall clock the sample of the file stamp, the samples that
    the pause tests and finds in a second that is a multiple of 8, the
    sample that ends the pause, the samples of [nowTp] and of the start
    time, one sample for each progress line and the sample of the end time;
    on the monotonic clock the sample of [startTp], the samples that the
    condition of the loop finds before the deadline and the sample that ends
    the loop. *)
Record CycleScript : Type := mkCycleScript
  { cs_stamp : Z;
    cs_checked : list Z;
    cs_x : Z;
    cs_nowTp : Z;
    cs_t : Z;
    cs_progress : list Z;
    cs_endTp : Z;
    cs_startTp : Z;
    cs_pre : list Z;
    cs_now : Z }.

Definition cs_wall (c : CycleScript) : list Z :=
  cs_stamp c :: cs_checked c
  ++ cs_x c :: cs_nowTp c :: cs_t c :: cs_progress c ++ [cs_endTp c].

Definition cs_mono (c : CycleScript) : list Z :=
  cs_startTp c :: cs_pre c ++ [cs_now c].

(** The count of the cycle: one iteration for each monotonic sample before
    the deadline. *)
Definition cs_count (w : Z) (c : CycleScript) : Z :=
  wrap w (Z.of_nat (List.length (cs_pre c))).

Definition cs_sleeps (c : CycleScript) : list Z :=
  map (fun s => second_of s * 100) (cs_checked c).

(** The clocks advance: the wall clock leaves the multiples of 8, the
    monotonic clock reaches the deadline one second after [startTp], and
    there is one wall-clock sample for each iteration that writes a progress
    line. *)
Definition advancing (w : Z) (c : CycleScript) : Prop :=
  Forall (fun s => second_of s mod 8 = 0) (cs_checked c) /\
  second_of (cs_x c) mod 8 <> 0 /\
  Forall (fun s => s - cs_startTp c < 1 * ns_per_sec) (cs_pre c) /\
  1 * ns_per_sec <= cs_now c - cs_startTp c /\
  List.length (cs_progress c) = List.length (marks w 0 (List.length (cs_pre c))).

(** Two cycles on clocks that only advance: the first starts at 8 s on the
    wall clock, sleeps 800 ms twice and counts two iterations, the second
    counts one. *)
Definition two_cycle_scripts : list CycleScript :=
  [mkCycleScript (sec 8) [sec 8; sec 8 + 800000000] (sec 9 + 600000000)
                 (sec 9 + 600000001) (sec 9 + 600000002) [] (sec 10 + 600000010)
                 (sec 100) [sec 100 + 5; sec 100 + 7] (sec 101);
   mkCycleScript (sec 10 + 600000011) [] (sec 10 + 600000012) (sec 10 + 600000013)
                 (sec 10 + 600000014) [] (sec 11 + 600000020)
                 (sec 101 + 1) [sec 101 + 2] (sec 102 + 1)].

Definition two_cycle_script_world : World :=
  fresh_world (sec 7 :: (sec 7 + 1) :: List.concat (map cs_wall two_cycle_scripts)
               ++ [sec 11 + 600000030; sec 12])
              (List.concat (map cs_mono two_cycle_scripts) ++ [sec 103]).

(** What a run prints before the first cycle, and after the last one. *)
Definition banner_lines (cycles : Z) : list Line :=
  Runner.banner ++ [RunningTests cycles].

Definition summary_lines (s : RunSummary) : list Line :=
  let b := elapsedBreakdown s in
  [SumLine (formatWithCommas (totalIterations s)) (formatWithCommas (cycleCount s));
   Blank;
   AverageLine (formatWithCommas (averageIterationsPerCycle s)); Blank;
   StartEndLine (runStart s) (runEnd s);
   ElapsedLine (b_days b) (b_hours b) (b_minutes b) (b_seconds b) (b_ms b)].

(** The run gave no report of its cycles. *)
Definition unfinished (r : Result (Z * option (list CycleResult * RunSummary))) : Prop :=
  match r with
  | Ok (_, Some _) _ => False
  | _ => True
  end.

(** ** Local times and their texts *)

(** A broken-down local time as [localtime_r] stores it, of a year with four
    digits; [tm_sec] is 60 in a leap second. *)
Definition valid_tm (t : Rendering.tm) : Prop :=
  1000 <= Rendering.tm_year t + 1900 <= 9999 /\
  0 <= Rendering.tm_mon t <= 11 /\
  1 <= Rendering.tm_mday t <= 31 /\
  0 <= Rendering.tm_hour t <= 23 /\
  0 <= Rendering.tm_min t <= 59 /\
  0 <= Rendering.tm_sec t <= 60.

(** The local time twelve hours after a time of the morning. *)
Definition twelve_hours_later (t : Rendering.tm) : Rendering.tm :=
  Rendering.mkTm (Rendering.tm_year t) (Rendering.tm_mon t) (Rendering.tm_mday t)
                 (Rendering.tm_hour t + 12) (Rendering.tm_min t) (Rendering.tm_sec t).

Fixpoint all_chars (p : ascii -> bool) (s : string) : bool :=
  match s with
  | EmptyString => true
  | String c s' => p c && all_chars p s'
  end.

(** A decimal digit or an underscore. *)
Definition stamp_char (c : ascii) : bool :=
  match digit_val c with
  | Some _ => true
  | None => Ascii.eqb c "_"
  end.

(** * Properties *)

(** ** Arithmetic of [n_type] *)

Lemma pow2_pos (w : Z) : 0 <= w -> 0 < 2 ^ w.
Proof. intros H. apply Z.pow_pos_nonneg; lia. Qed.

Lemma wrap_range (w x : Z) : 0 <= w -> 0 <= wrap w x < 2 ^ w.
Proof. intros H. unfold wrap. apply Z.mod_pos_bound, pow2_pos, H. Qed.

Lemma wrap_small (w x : Z) : 0 <= x < 2 ^ w -> wrap w x = x.
Proof. intros H. unfold wrap. apply Z.mod_small, H. Qed.

Lemma wrap_add_l (w x y : Z) : wrap w (wrap w x + y) = wrap w (x + y).
Proof. unfold wrap. apply Zplus_mod_idemp_l. Qed.

Lemma pow2_32_le (w : Z) : 32 <= w -> 4294967296 <= 2 ^ w.
Proof.
  intros H. change 4294967296 with (2 ^ 32). apply Z.pow_le_mono_r; lia.
Qed.

(** ** Elapsed-time breakdown *)

(** The passage through binary64 loses a millisecond now and then: 1.001 s
    are 1000 ms, as 1.001 * 1000 falls just below 1001. *)
Lemma elapsed_ms_examples :
  elapsed_ms 0 (sec 1) = 1000 /\
  elapsed_ms 0 (sec 1 + 1000000) = 1000 /\
  elapsed_ms 0 (sec 1 + 2000000) = 1002 /\
  elapsed_ms (sec 5) (sec 5) = 0 /\
  elapsed_ms (sec 2) 0 = -2000.
Proof. repeat split; vm_compute; reflexivity. Qed.

Lemma elapsed_breakdown_nonneg (totalMs : Z) :
  0 <= totalMs ->
  elapsed_breakdown totalMs =
  mkBreakdown (totalMs / 86400000)
              ((totalMs mod 86400000) / 3600000)
              (((totalMs mod 86400000) mod 3600000) / 60000)
              ((((totalMs mod 86400000) mod 3600000) mod 60000) / 1000)
              ((((totalMs mod 86400000) mod 3600000) mod 60000) mod 1000).
Proof.
  intros H. unfold elapsed_breakdown.
  change (1000 * 60 * 60 * 24) with 86400000.
  change (1000 * 60 * 60) with 3600000.
  change (1000 * 60) with 60000.
  pose proof (Z.mod_pos_bound totalMs 86400000 ltac:(lia)) as H1.
  pose proof (Z.mod_pos_bound (totalMs mod 86400000) 3600000 ltac:(lia)) as H2.
  pose proof (Z.mod_pos_bound ((totalMs mod 86400000) mod 3600000) 60000 ltac:(lia)) as H3.
  rewrite (Z.quot_div_nonneg totalMs), (Z.rem_mod_nonneg totalMs) by lia.
  rewrite (Z.quot_div_nonneg (totalMs mod _)), (Z.rem_mod_nonneg (totalMs mod _)) by lia.
  rewrite (Z.quot_div_nonneg ((totalMs mod _) mod _)),
          (Z.rem_mod_nonneg ((totalMs mod _) mod _)) by lia.
  rewrite (Z.quot_div_nonneg (((totalMs mod _) mod _) mod _)),
          (Z.rem_mod_nonneg (((totalMs mod _) mod _) mod _)) by lia.
  reflexivity.
Qed.

(** ** The cycle loop *)

(** Inversion of a sequenced computation that returned. *)
Lemma bind_Ok {A B} (c : M A) (k : A -> M B) (st st' : World) (b : B) :
  bind c k st = Ok b st' ->
  exists a st1, c st = Ok a st1 /\ k a st1 = Ok b st'.
Proof.
  unfold bind. destruct (c st) as [a st1| |]; intros H; try discriminate.
  exists a, st1. split; [reflexivity | exact H].
Qed.

Ltac bind_inv H :=
  let a := fresh "a" in
  let st := fresh "st" in
  let H1 := fresh "H" in
  apply bind_Ok in H; destruct H as (a & st & H1 & H).

Section RunnerFacts.

Variable w : Z.
Variable env : Env.
Variable measure :
  Z -> Z -> list Z -> list Z -> option (Measurement * list Z * list Z).
Hypothesis w_nonneg : 0 <= w.

Local Abbreviation run_cycle := (Runner.run_cycle w env measure).
Local Abbreviation cycle_loop := (Runner.cycle_loop w env measure).
Local Abbreviation main := (Runner.main w env measure).

(** The cycle loop alone can be cut short. *)
Lemma run_cycle_not_OutOfFuel (cycles cycle sum : Z) (st : World) :
  run_cycle cycles cycle sum st <> OutOfFuel.
Proof.
  unfold Runner.run_cycle, bind, print, system_now, Runner.measure_cycle,
    Runner.write_detail, Runner.append_log, Runner.open_file, Runner.log_lines,
    bind, ret.
  cbn.
  repeat match goal with
         | |- context [match ?l with [] => _ | _ :: _ => _ end] => destruct l; cbn
         | |- context [match measure ?a ?b ?c ?d with _ => _ end] =>
             destruct (measure a b c d) as [[[? ?] ?]|]; cbn
         | |- context [open_ok ?e ?n ?p] => destruct (open_ok e n p); cbn
         end; discriminate.
Qed.

(** A cycle that completes reports its own index and has added its count
    to the running sum, modulo [2 ^ w]. *)
Lemma run_cycle_result (cycles cycle sum : Z) (st st' : World)
      (r : CycleResult) (sum' : Z) :
  run_cycle cycles cycle sum st = Ok (r, sum') st' ->
  cycleIndex r = cycle /\ sum' = wrap w (sum + iterationCount r).
Proof.
  unfold Runner.run_cycle. intros H.
  repeat bind_inv H. unfold ret in H. inversion H; subst. cbn. split; reflexivity.
Qed.

Lemma cycle_loop_post (cycles : Z) :
  cycles < 2 ^ w - 1 ->
  forall (fuel : nat) (cycle sum : Z) (results : list CycleResult) (st : World),
    1 <= cycle <= cycles + 1 ->
    0 <= sum < 2 ^ w ->
    loop_post w fuel cycles cycle sum results (cycle_loop fuel cycles cycle sum results st).
Proof.
  intros Hmax. induction fuel as [|fuel IH]; intros cycle sum results st Hc Hs.
  - cbn. lia.
  - cbn [Runner.cycle_loop]. destruct (cycle <=? cycles) eqn:Hle.
    + apply Z.leb_le in Hle. unfold bind.
      destruct (run_cycle cycles cycle sum st) as [[r sum1] st1| |] eqn:Hr;
        cbn [loop_post]; [| exact I | exact (False_ind _ (run_cycle_not_OutOfFuel _ _ _ _ Hr))].
      apply run_cycle_result in Hr. destruct Hr as [Hidx Hsum].
      cbn [fst snd].
      assert (Hw : wrap w (cycle + 1) = cycle + 1) by (apply wrap_small; lia).
      rewrite Hw.
      specialize (IH (cycle + 1) sum1 (results ++ [r]) st1).
      assert (Hs1 : 0 <= sum1 < 2 ^ w) by (subst sum1; apply wrap_range, w_nonneg).
      specialize (IH ltac:(lia) Hs1).
      destruct (cycle_loop fuel cycles (cycle + 1) sum1 (results ++ [r]) st1)
        as [[sum' results'] st'| |]; cbn [loop_post] in *; [| exact I | lia].
      destruct IH as (new & Hres & Hmap & Hsum').
      exists (r :: new). split; [| split].
      * rewrite Hres, <- app_assoc. reflexivity.
      * replace (Z.to_nat (cycles + 1 - cycle))
          with (S (Z.to_nat (cycles + 1 - (cycle + 1)))) by lia.
        cbn [map Zrange]. rewrite Hidx, Hmap. reflexivity.
      * cbn [map sumZ fold_right]. fold (sumZ (map iterationCount new)).
        rewrite Hsum', Hsum, wrap_add_l. f_equal. lia.
    + apply Z.leb_gt in Hle. cbn [loop_post]. unfold ret.
      exists []. replace (Z.to_nat (cycles + 1 - cycle)) with O by lia.
      cbn. rewrite app_nil_r, Z.add_0_r, wrap_small by lia. auto.
Qed.

(** With the largest cycle count the loop condition never fails: the
    counter wraps from [2 ^ w - 1] to [0]. *)
Lemma cycle_loop_max_never_exits (fuel : nat) :
  forall (cycle sum : Z) (results : list CycleResult) (st st' : World)
         (res : Z * list CycleResult),
    0 <= cycle < 2 ^ w ->
    cycle_loop fuel (2 ^ w - 1) cycle sum results st <> Ok res st'.
Proof.
  induction fuel as [|fuel IH]; intros cycle sum results st st' res Hc.
  - discriminate.
  - cbn [Runner.cycle_loop].
    replace (cycle <=? 2 ^ w - 1) with true by (symmetry; apply Z.leb_le; lia).
    unfold bind. destruct (run_cycle (2 ^ w - 1) cycle sum st) as [[r s1] st1| |];
      try discriminate.
    apply IH. apply wrap_range, w_nonneg.
Qed.

End RunnerFacts.

(** ** Files that do not open

    Two runs from the same world, under environments that may answer
    differently when a file is opened, differ in nothing but the contents of
    the files concerned. *)

Section Interference.

Variable w : Z.
Variable measure :
  Z -> Z -> list Z -> list Z -> option (Measurement * list Z * list Z).
Variables env1 env2 : Env.

(** [fd]: the environments may differ on detail files; [fl]: on the
    iteration log. *)
Variables fd fl : bool.

Hypothesis detail_dir_agree : detail_dir_ok env1 = detail_dir_ok env2.
Hypothesis log_dir_agree : log_dir_ok env1 = log_dir_ok env2.
Hypothesis log_agree :
  fl = false -> forall n, open_ok env1 n IterationLog = open_ok env2 n IterationLog.
Hypothesis detail_agree :
  fd = false -> forall n p, open_ok env1 n (Detail p) = open_ok env2 n (Detail p).

Ltac same_but_tac :=
  match goal with
  | H : same_but _ _ _ _ |- _ => destruct H as (? & ? & ? & ? & ? & ? & ? & ?)
  end;
  unfold same_but; cbn;
  repeat split; intros; try congruence;
  repeat match goal with
         | H : ?P -> _ = _, H' : ?P |- _ => rewrite (H H')
         end;
  congruence.

Lemma bind_same {A B} (c1 c2 : M A) (k1 k2 : A -> M B) (st1 st2 : World) :
  same_result fd fl (c1 st1) (c2 st2) ->
  (forall a s1 s2, same_but fd fl s1 s2 -> same_result fd fl (k1 a s1) (k2 a s2)) ->
  same_result fd fl (bind c1 k1 st1) (bind c2 k2 st2).
Proof.
  unfold bind. intros Hc Hk.
  destruct (c1 st1) as [a1 s1| |], (c2 st2) as [a2 s2| |]; cbn in Hc; try contradiction;
    try exact I.
  destruct Hc as [-> Hs]. apply Hk, Hs.
Qed.

Lemma ret_same {A} (a : A) (st1 st2 : World) :
  same_but fd fl st1 st2 -> same_result fd fl (ret a st1) (ret a st2).
Proof. intros H. cbn. split; [reflexivity | exact H]. Qed.

Lemma print_same (ls : list Line) (st1 st2 : World) :
  same_but fd fl st1 st2 -> same_result fd fl (print ls st1) (print ls st2).
Proof. intros H. cbn. split; [reflexivity |]. same_but_tac. Qed.

Lemma eprint_same (ls : list Line) (st1 st2 : World) :
  same_but fd fl st1 st2 -> same_result fd fl (eprint ls st1) (eprint ls st2).
Proof. intros H. cbn. split; [reflexivity |]. same_but_tac. Qed.

Lemma system_now_same (st1 st2 : World) :
  same_but fd fl st1 st2 -> same_result fd fl (system_now st1) (system_now st2).
Proof.
  intros H. unfold system_now.
  assert (Hw : wall st1 = wall st2) by apply H. rewrite Hw.
  destruct (wall st2) as [|t rest]; cbn; [exact I |].
  split; [reflexivity |]. same_but_tac.
Qed.

Lemma measure_cycle_same (cycles cycle : Z) (st1 st2 : World) :
  same_but fd fl st1 st2 ->
  same_result fd fl (Runner.measure_cycle measure cycles cycle st1)
              (Runner.measure_cycle measure cycles cycle st2).
Proof.
  intros H. unfold Runner.measure_cycle.
  assert (Hw : wall st1 = wall st2) by apply H.
  assert (Hm : mono st1 = mono st2) by apply H.
  rewrite Hw, Hm.
  destruct (measure cycles cycle (wall st2) (mono st2)) as [[[m wl] ml]|]; cbn;
    [| exact I].
  split; [reflexivity |]. same_but_tac.
Qed.

Lemma write_detail_same (p : DetailPath) (buffer : list Line) (st1 st2 : World) :
  same_but fd fl st1 st2 ->
  same_result fd fl (Runner.write_detail env1 p buffer st1)
              (Runner.write_detail env2 p buffer st2).
Proof.
  intros H. unfold Runner.write_detail, Runner.open_file, bind. cbn.
  split; [reflexivity |].
  destruct fd eqn:Hfd.
  - destruct (open_ok env1 (opens st1) (Detail p)),
             (open_ok env2 (opens st2) (Detail p)); same_but_tac.
  - assert (Ho : opens st1 = opens st2) by apply H.
    rewrite (detail_agree eq_refl), Ho.
    destruct (open_ok env2 (opens st2) (Detail p)); same_but_tac.
Qed.

Lemma append_log_same (ls : list Line) (st1 st2 : World) :
  same_but fd fl st1 st2 ->
  same_result fd fl (Runner.append_log env1 ls st1) (Runner.append_log env2 ls st2).
Proof.
  intros H. unfold Runner.append_log, Runner.open_file, Runner.log_lines, bind. cbn.
  split; [reflexivity |].
  destruct fl eqn:Hfl.
  - destruct (open_ok env1 (opens st1) IterationLog),
             (open_ok env2 (opens st2) IterationLog); same_but_tac.
  - assert (Ho : opens st1 = opens st2) by apply H.
    rewrite (log_agree eq_refl), Ho.
    destruct (open_ok env2 (opens st2) IterationLog); same_but_tac.
Qed.

Ltac step_same :=
  first [ apply ret_same; assumption
        | apply bind_same;
          [ first [ apply print_same | apply eprint_same | apply system_now_same
                  | apply measure_cycle_same | apply write_detail_same
                  | apply append_log_same ]; assumption
          | intros ? ? ? ? ] ].

Lemma run_cycle_same (cycles cycle sum : Z) (st1 st2 : World) :
  same_but fd fl st1 st2 ->
  same_result fd fl (Runner.run_cycle w env1 measure cycles cycle sum st1)
              (Runner.run_cycle w env2 measure cycles cycle sum st2).
Proof.
  intros H. unfold Runner.run_cycle. repeat step_same.
Qed.

Lemma cycle_loop_same (fuel : nat) :
  forall (cycles cycle sum : Z) (results : list CycleResult) (st1 st2 : World),
    same_but fd fl st1 st2 ->
    same_result fd fl (Runner.cycle_loop w env1 measure fuel cycles cycle sum results st1)
                (Runner.cycle_loop w env2 measure fuel cycles cycle sum results st2).
Proof.
  induction fuel as [|fuel IH]; intros cycles cycle sum results st1 st2 H.
  - exact I.
  - cbn [Runner.cycle_loop]. destruct (cycle <=? cycles).
    + apply bind_same; [apply run_cycle_same, H |].
      intros r s1 s2 Hs. apply IH, Hs.
    + apply ret_same, H.
Qed.

Lemma log_header_same (cycles : Z) (st1 st2 : World) :
  same_but fd fl st1 st2 ->
  same_result fd fl (Runner.log_header env1 cycles st1) (Runner.log_header env2 cycles st2).
Proof.
  intros H. unfold Runner.log_header, Runner.open_file, Runner.log_lines, bind, system_now.
  cbn.
  assert (Hw : wall st1 = wall st2) by apply H. rewrite Hw.
  destruct (wall st2) as [|t rest]; cbn; [exact I |].
  split; [reflexivity |].
  destruct fl eqn:Hfl.
  - destruct (open_ok env1 (opens st1) IterationLog),
             (open_ok env2 (opens st2) IterationLog); same_but_tac.
  - assert (Ho : opens st1 = opens st2) by apply H.
    rewrite (log_agree eq_refl), Ho.
    destruct (open_ok env2 (opens st2) IterationLog); same_but_tac.
Qed.

Lemma main_same (fuel : nat) (input : string) (st1 st2 : World) :
  same_but fd fl st1 st2 ->
  same_result fd fl (Runner.main w env1 measure fuel input st1)
              (Runner.main w env2 measure fuel input st2).
Proof.
  intros H. unfold Runner.main.
  rewrite detail_dir_agree, log_dir_agree.
  destruct (negb (detail_dir_ok env2) || negb (log_dir_ok env2)).
  - repeat step_same.
  - step_same.
    apply bind_same.
    { destruct (snd (read_cycles w input));
        [apply eprint_same | apply ret_same]; assumption. }
    intros ? ? ? ?. step_same.
    apply bind_same; [apply log_header_same; assumption | intros ? ? ? ?].
    step_same.
    apply bind_same; [apply cycle_loop_same; assumption | intros ? ? ? ?].
    repeat step_same.
Qed.

End Interference.

Lemma same_but_refl (fd fl : bool) (st : World) : same_but fd fl st st.
Proof. unfold same_but. repeat split; reflexivity. Qed.

Lemma same_result_forget_details {A} (r1 r2 : Result A) :
  same_result true false r1 r2 -> forget_details r1 = forget_details r2.
Proof.
  destruct r1 as [a1 s1| |], r2 as [a2 s2| |]; cbn; try contradiction; try reflexivity.
  intros [-> (Hw & Hm & Ho & Hout & Herr & Hs & Hl & _)].
  rewrite Hw, Hm, Ho, Hout, Herr, Hs, (Hl eq_refl). reflexivity.
Qed.

Lemma same_result_forget_itlog {A} (r1 r2 : Result A) :
  same_result false true r1 r2 -> forget_itlog r1 = forget_itlog r2.
Proof.
  destruct r1 as [a1 s1| |], r2 as [a2 s2| |]; cbn; try contradiction; try reflexivity.
  intros [-> (Hw & Hm & Ho & Hout & Herr & Hs & _ & Hd)].
  rewrite Hw, Hm, Ho, Hout, Herr, Hs, (Hd eq_refl). reflexivity.
Qed.

Lemma main_forget_details (w : Z) measure (env : Env) (fuel : nat) (input : string)
      (st : World) :
  forget_details (Runner.main w env measure fuel input st) =
  forget_details (Runner.main w (details_open env) measure fuel input st).
Proof.
  apply same_result_forget_details, main_same;
    [reflexivity | reflexivity | intros _ n; reflexivity | discriminate
    | apply same_but_refl].
Qed.

Lemma main_forget_itlog (w : Z) measure (env : Env) (fuel : nat) (input : string)
      (st : World) :
  forget_itlog (Runner.main w env measure fuel input st) =
  forget_itlog (Runner.main w (log_open env) measure fuel input st).
Proof.
  apply same_result_forget_itlog, main_same;
    [reflexivity | reflexivity | discriminate | intros _ n p; reflexivity
    | apply same_but_refl].
Qed.

(** ** What [main] reports *)

Section MainFacts.

Variable w : Z.
Variable env : Env.
Variable measure :
  Z -> Z -> list Z -> list Z -> option (Measurement * list Z * list Z).

(** A run that reports has exit code 0; its results and total are those of
    the cycle loop started at cycle 1 with sum 0, and the summary is computed
    from the total and the cycle count read at startup. *)
Lemma main_report (fuel : nat) (input : string) (st st' : World) (code : Z)
      (report : list CycleResult * RunSummary) :
  Runner.main w env measure fuel input st = Ok (code, Some report) st' ->
  exists st1 st2 total start stop,
    Runner.cycle_loop w env measure fuel (fst (read_cycles w input)) 1 0 [] st1
    = Ok (total, fst report) st2 /\
    code = 0 /\
    snd report =
    mkRunSummary total (fst (read_cycles w input))
                 (dateTimeToString start) (dateTimeToString stop)
                 (average total (fst (read_cycles w input)))
                 (elapsed_breakdown (elapsed_ms start stop)).
Proof.
  unfold Runner.main. intros H.
  destruct (negb (detail_dir_ok env) || negb (log_dir_ok env)).
  - repeat bind_inv H. discriminate H.
  - repeat bind_inv H. unfold ret in H. inversion H; subst. clear H.
    destruct a4 as [total results]. cbn [fst snd] in *.
    eauto 10.
Qed.

(** The breakdown in the summary is that of the milliseconds between the two
    samples of the wall clock around the cycle loop. *)
Lemma main_elapsed (fuel : nat) (input : string) (st st' : World) (code : Z)
      (report : list CycleResult * RunSummary) :
  Runner.main w env measure fuel input st = Ok (code, Some report) st' ->
  exists start stop,
    runStart (snd report) = dateTimeToString start /\
    runEnd (snd report) = dateTimeToString stop /\
    elapsedBreakdown (snd report) = elapsed_breakdown (elapsed_ms start stop).
Proof.
  intros H. apply main_report in H.
  destruct H as (st1 & st2 & total & start & stop & _ & _ & Hsum).
  exists start, stop. rewrite Hsum. cbn. auto.
Qed.

(** The input matters through the cycle count and the warning only. *)
Lemma main_input (fuel : nat) (input1 input2 : string) (st : World) :
  read_cycles w input1 = read_cycles w input2 ->
  Runner.main w env measure fuel input1 st = Runner.main w env measure fuel input2 st.
Proof. unfold Runner.main. intros ->. reflexivity. Qed.

Lemma main_not_OutOfFuel (fuel : nat) (input : string) (st : World) :
  (forall st1, Runner.cycle_loop w env measure fuel (fst (read_cycles w input)) 1 0 [] st1
               <> OutOfFuel) ->
  Runner.main w env measure fuel input st <> OutOfFuel.
Proof.
  intros Hloop.
  unfold Runner.main, Runner.log_header, Runner.append_log, Runner.open_file,
    Runner.log_lines, bind, print, eprint, system_now, ret.
  cbn.
  repeat match goal with
         | |- context [match ?l with [] => _ | _ :: _ => _ end] => destruct l; cbn
         | |- context [if ?b then _ else _] => destruct b; cbn
         | |- context [match Runner.cycle_loop ?a ?b ?c ?d ?e ?f ?g ?h ?s with _ => _ end] =>
             let E := fresh "E" in
             destruct (Runner.cycle_loop a b c d e f g h s) as [[? ?] ?| |] eqn:E; cbn;
             [ | | exfalso; exact (Hloop _ E)]
         end; discriminate.
Qed.

End MainFacts.

(** ** The measuring loops *)

Lemma paused_nil (acc : Acc) : paused [] acc acc.
Proof. unfold paused. cbn. rewrite !app_nil_r. auto. Qed.

Lemma paused_step (ms : Z) (ss : list Z) (acc acc' : Acc) :
  paused ss (pause ms acc) acc' -> paused (ms :: ss) acc acc'.
Proof.
  unfold paused, pause. cbn. intros (H1 & H2 & H3).
  rewrite H1, H2, H3, <- !app_assoc. auto.
Qed.

Lemma counted_refl (cycles cycle : Z) (acc : Acc) : counted cycles cycle acc acc.
Proof.
  unfold counted. split; [| auto]. exists []. rewrite app_nil_r. auto.
Qed.

Lemma counted_step (cycles cycle i now : Z) (acc acc' : Acc) :
  i mod 100000 = 0 ->
  counted cycles cycle (log_line (ProgressLine cycle cycles i now) acc) acc' ->
  counted cycles cycle acc acc'.
Proof.
  unfold counted, log_line. cbn. intros Hi ((progress & Hb & Hp) & Hc & Hs).
  split; [| auto].
  exists (ProgressLine cycle cycles i now :: progress). split.
  - rewrite Hb, <- app_assoc. reflexivity.
  - constructor; [| exact Hp]. exists i, now. auto.
Qed.

Lemma program_pause_loop_paused (w : Z) (wall : list Z) :
  forall (pauseMs : Z) (acc acc' : Acc) (wall' : list Z),
    Program.pause_loop w wall pauseMs acc = Some (acc', wall') ->
    exists ss, paused ss acc acc'.
Proof.
  induction wall as [wall IH] using (induction_ltof1 _ (@List.length Z)).
  unfold ltof in IH.
  intros pauseMs acc acc' wall' H.
  destruct wall as [|t wall1]; [discriminate |].
  cbn [Program.pause_loop] in H.
  destruct (negb (getCurrentSecond t mod 8 =? 0)).
  - inversion H; subst. exists []. apply paused_nil.
  - destruct wall1 as [|t' wall2]; [discriminate |].
    apply IH in H; [| cbn; lia].
    destruct H as [ss Hss]. exists (pauseMs :: ss). apply paused_step, Hss.
Qed.

Lemma optimized_pause_loop_paused (w : Z) (wall : list Z) :
  forall (s : Z) (acc acc' : Acc) (wall' : list Z),
    ProgramOptimized.pause_loop w wall s acc = Some (acc', wall') ->
    exists ss, paused ss acc acc'.
Proof.
  induction wall as [|t rest IH]; intros s acc acc' wall' H;
    cbn [ProgramOptimized.pause_loop] in H; destruct (s mod 8 =? 0);
    try discriminate;
    try (inversion H; subst; exists []; apply paused_nil).
  apply IH in H. destruct H as [ss Hss].
  exists (wrap w (s * 100) :: ss). apply paused_step, Hss.
Qed.

Lemma program_counting_loop_counted (w cycles cycle startSecond : Z) (wall : list Z) :
  forall (i iterations : Z) (acc acc' : Acc) (its : Z) (rest : list Z),
    Program.counting_loop w cycles cycle startSecond wall i iterations acc
    = Some (its, acc', rest) ->
    counted cycles cycle acc acc' /\
    exists n, (1 <= n)%nat /\ its = wrap w (i + Z.of_nat n).
Proof.
  induction wall as [wall IH] using (induction_ltof1 _ (@List.length Z)).
  unfold ltof in IH.
  intros i iterations acc acc' its rest H.
  destruct wall as [|t1 wall1].
  - cbn in H. destruct (wrap w (i + 1) mod 100000 =? 0); discriminate.
  - cbn [Program.counting_loop] in H.
    destruct (wrap w (i + 1) mod 100000 =? 0) eqn:Hm.
    + apply Z.eqb_eq in Hm.
      destruct wall1 as [|progressTp [|t rest']]; try discriminate.
      destruct (getCurrentSecond t =? startSecond).
      * apply IH in H; [| cbn; lia]. destruct H as (Hc & n & Hn & Hits).
        split; [eapply counted_step; eauto |].
        exists (S n). split; [lia |].
        rewrite Hits, wrap_add_l. f_equal. lia.
      * inversion H; subst. split; [eapply counted_step; eauto using counted_refl |].
        exists 1%nat. split; [lia | reflexivity].
    + destruct (getCurrentSecond t1 =? startSecond).
      * apply IH in H; [| cbn; lia]. destruct H as (Hc & n & Hn & Hits).
        split; [exact Hc |].
        exists (S n). split; [lia |].
        rewrite Hits, wrap_add_l. f_equal. lia.
      * inversion H; subst. split; [apply counted_refl |].
        exists 1%nat. split; [lia | reflexivity].
Qed.

(** The wall-clock loop, sample by sample: it reads one sample for each
    iteration and two more for each progress line, and ends on the first
    per-iteration sample whose second of the minute is not the starting one;
    [n] is the number of iterations. *)
Lemma program_counting_loop_polls (w cycles cycle startSecond : Z) (wall : list Z) :
  forall (i iterations : Z) (acc acc' : Acc) (its : Z) (rest : list Z),
    Program.counting_loop w cycles cycle startSecond wall i iterations acc
    = Some (its, acc', rest) ->
    exists consumed x progress n,
      wall = consumed ++ x :: rest /\
      getCurrentSecond x <> startSecond /\
      a_buffer acc' = a_buffer acc ++ progress /\
      (List.length consumed + 1 = n + 2 * List.length progress)%nat /\
      (1 <= n)%nat /\
      its = wrap w (i + Z.of_nat n).
Proof.
  induction wall as [wall IH] using (induction_ltof1 _ (@List.length Z)).
  unfold ltof in IH.
  intros i iterations acc acc' its rest H.
  destruct wall as [|t1 wall1].
  - cbn in H. destruct (wrap w (i + 1) mod 100000 =? 0); discriminate.
  - cbn [Program.counting_loop] in H.
    destruct (wrap w (i + 1) mod 100000 =? 0).
    + destruct wall1 as [|progressTp [|t rest']]; try discriminate.
      destruct (getCurrentSecond t =? startSecond) eqn:Hs.
      * apply IH in H; [| cbn; lia].
        destruct H as (consumed & x & progress & n & Hw & Hx & Hb & Hlen & Hn & Hits).
        exists (t1 :: progressTp :: t :: consumed), x,
          (ProgressLine cycle cycles (wrap w (i + 1)) (dateTimeToString progressTp)
           :: progress), (S n).
        rewrite Hw, Hb, Hits, wrap_add_l. cbn [log_line a_buffer List.length].
        rewrite <- app_assoc. repeat split; auto; try lia. f_equal. lia.
      * inversion H; subst. apply Z.eqb_neq in Hs.
        exists [t1; progressTp], t,
          [ProgressLine cycle cycles (wrap w (i + 1)) (dateTimeToString progressTp)],
          1%nat.
        cbn [log_line a_buffer List.length]. repeat split; auto.
    + destruct (getCurrentSecond t1 =? startSecond) eqn:Hs.
      * apply IH in H; [| cbn; lia].
        destruct H as (consumed & x & progress & n & Hw & Hx & Hb & Hlen & Hn & Hits).
        exists (t1 :: consumed), x, progress, (S n).
        rewrite Hw, Hb, Hits, wrap_add_l. cbn [List.length].
        repeat split; auto; try lia. f_equal. lia.
      * inversion H; subst. apply Z.eqb_neq in Hs.
        exists [], t1, [], 1%nat. cbn [List.length]. rewrite app_nil_r.
        repeat split; auto.
Qed.

(** The deadline loop consumes the monotonic samples below the deadline and
    the first one at or beyond it, and counts one iteration for each of the
    former. *)
Lemma optimized_counting_loop_deadline (w cycles cycle endTp : Z) (mono : list Z) :
  0 <= w ->
  forall (wall : list Z) (i : Z) (acc acc' : Acc) (its : Z) (wall' mono' : list Z),
    0 <= i < 2 ^ w ->
    ProgramOptimized.counting_loop w cycles cycle endTp mono wall i i acc
    = Some (its, acc', wall', mono') ->
    counted cycles cycle acc acc' /\
    exists pre now,
      mono = pre ++ now :: mono' /\
      Forall (fun t => t < endTp) pre /\
      endTp <= now /\
      its = wrap w (i + Z.of_nat (List.length pre)).
Proof.
  intros Hw. induction mono as [|now mono1 IH];
    intros wall i acc acc' its wall' mono' Hi H; [discriminate |].
  cbn [ProgramOptimized.counting_loop] in H.
  destruct (now <? endTp) eqn:Hnow.
  - apply Z.ltb_lt in Hnow.
    assert (Hi' : 0 <= wrap w (i + 1) < 2 ^ w) by apply wrap_range, Hw.
    assert (Hmore :
              forall wl a,
                ProgramOptimized.counting_loop w cycles cycle endTp mono1 wl
                  (wrap w (i + 1)) (wrap w (i + 1)) a = Some (its, acc', wall', mono') ->
                counted cycles cycle a acc' /\
                exists pre now0,
                  now :: mono1 = pre ++ now0 :: mono' /\
                  Forall (fun t => t < endTp) pre /\ endTp <= now0 /\
                  its = wrap w (i + Z.of_nat (List.length pre))).
    { intros wl a Ha. apply IH in Ha; [| exact Hi'].
      destruct Ha as (Hc & pre & now0 & Hm & Hpre & Hn & Hits).
      split; [exact Hc |].
      exists (now :: pre), now0. rewrite Hm. repeat split; auto.
      rewrite Hits, wrap_add_l. f_equal. cbn [List.length]. lia. }
    destruct (wrap w (i + 1) mod 100000 =? 0) eqn:Hm.
    + apply Z.eqb_eq in Hm. destruct wall as [|progressTp wall1]; [discriminate |].
      apply Hmore in H. destruct H as [Hc Hex].
      split; [eapply counted_step; eauto | exact Hex].
    + apply Hmore in H. exact H.
  - apply Z.ltb_ge in Hnow. inversion H; subst.
    split; [apply counted_refl |].
    exists [], now. cbn. rewrite Z.add_0_r, wrap_small by exact Hi. auto.
Qed.

(** Conversely, the deadline loop returns as soon as the monotonic clock
    gives a sample at or beyond the deadline, provided the wall clock has a
    sample for each progress line. *)
Lemma optimized_counting_loop_returns (w cycles cycle endTp : Z) (now : Z)
      (rest : list Z) :
  0 <= w -> endTp <= now ->
  forall (pre wall : list Z) (i : Z) (acc : Acc),
    Forall (fun t => t < endTp) pre ->
    (List.length pre <= List.length wall)%nat ->
    0 <= i < 2 ^ w ->
    exists acc' wall',
      ProgramOptimized.counting_loop w cycles cycle endTp (pre ++ now :: rest) wall i i acc
      = Some (wrap w (i + Z.of_nat (List.length pre)), acc', wall', rest).
Proof.
  intros Hw Hnow. apply Z.ltb_ge in Hnow.
  induction pre as [|t pre IH]; intros wall i acc Hpre Hlen Hi.
  - cbn [app ProgramOptimized.counting_loop]. rewrite Hnow.
    exists acc, wall. cbn [List.length]. rewrite Z.add_0_r, wrap_small by exact Hi.
    reflexivity.
  - inversion Hpre as [|t' pre' Ht Hpre']; subst. apply Z.ltb_lt in Ht.
    cbn [app ProgramOptimized.counting_loop]. rewrite Ht.
    assert (Hi' : 0 <= wrap w (i + 1) < 2 ^ w) by apply wrap_range, Hw.
    assert (Hk : wrap w (wrap w (i + 1) + Z.of_nat (List.length pre))
                 = wrap w (i + Z.of_nat (List.length (t :: pre))))
      by (rewrite wrap_add_l; f_equal; cbn [List.length]; lia).
    cbn [List.length] in Hlen.
    destruct (wrap w (i + 1) mod 100000 =? 0).
    + destruct wall as [|progressTp wall]; [cbn in Hlen; lia |].
      cbn [List.length] in Hlen.
      destruct (IH wall (wrap w (i + 1))
                   (log_line (ProgressLine cycle cycles (wrap w (i + 1))
                                           (dateTimeToString progressTp)) acc)
                   Hpre' ltac:(lia) Hi') as (acc' & wall' & Heq).
      exists acc', wall'. rewrite Heq, Hk. reflexivity.
    + destruct (IH wall (wrap w (i + 1)) acc Hpre' ltac:(lia) Hi')
        as (acc' & wall' & Heq).
      exists acc', wall'. rewrite Heq, Hk. reflexivity.
Qed.

Lemma second_of_range (tp : Z) : 0 <= second_of tp < 60.
Proof. unfold second_of, tm_sec. apply Z.mod_pos_bound. lia. Qed.

(** The pause of [program_optimized.cxx] sleeps once for each sample whose
    second of the minute is a multiple of 8, for 100 ms times that very
    second, and ends at the first sample that is not such a multiple. *)
Lemma optimized_pause_loop_samples (w : Z) (wall : list Z) :
  32 <= w ->
  forall (t0 : Z) (acc acc' : Acc) (wall' : list Z),
    ProgramOptimized.pause_loop w wall (second_of t0) acc = Some (acc', wall') ->
    exists pre x,
      t0 :: wall = pre ++ x :: wall' /\
      Forall (fun t => second_of t mod 8 = 0) pre /\
      second_of x mod 8 <> 0 /\
      a_sleeps acc' = a_sleeps acc ++ map (fun t => second_of t * 100) pre.
Proof.
  intros Hw. pose proof (pow2_32_le w Hw) as Hp.
  induction wall as [|t rest IH]; intros t0 acc acc' wall' H;
    cbn [ProgramOptimized.pause_loop] in H;
    destruct (second_of t0 mod 8 =? 0) eqn:Hs; try discriminate.
  - inversion H; subst. apply Z.eqb_neq in Hs.
    exists [], t0. cbn. rewrite app_nil_r. auto.
  - apply Z.eqb_eq in Hs. apply IH in H.
    destruct H as (pre & x & Hwall & Hpre & Hx & Hsl).
    exists (t0 :: pre), x. rewrite Hwall. repeat split; auto.
    rewrite Hsl. cbn [pause a_sleeps map]. rewrite <- app_assoc. cbn [app].
    rewrite wrap_small; [reflexivity |].
    pose proof (second_of_range t0). lia.
  - inversion H; subst. apply Z.eqb_neq in Hs.
    exists [], t0. cbn. rewrite app_nil_r. auto.
Qed.

Lemma measured_intro (w cycles cycle : Z) (ss : list Z) (now : Z)
      (acc1 acc2 : Acc) (startStr its : Z) :
  paused ss acc0 acc1 ->
  counted cycles cycle (say (ReadyToGo now) acc1) acc2 ->
  0 <= its < 2 ^ w ->
  measured w cycles cycle (mkMeasurement startStr its acc2).
Proof.
  unfold paused, counted, measured, say. cbn.
  intros (Hs & Hb & Hc) ((progress & Hb2 & Hp) & Hc2 & Hs2) Hits.
  split; [| exact Hits].
  exists progress, now. rewrite Hs2, Hb2, Hc2, Hs, Hb, Hc. auto.
Qed.

Lemma program_measure_measured (w cycles cycle : Z) (wall mono wall' mono' : list Z)
      (m : Measurement) :
  0 <= w ->
  Program.measure w cycles cycle wall mono = Some (m, wall', mono') ->
  measured w cycles cycle m.
Proof.
  intros Hw H. unfold Program.measure in H.
  destruct wall as [|t0 wall0]; [discriminate |].
  destruct (Program.pause_loop w wall0 (wrap w (getCurrentSecond t0 * 100)) acc0)
    as [[acc1 wall1]|] eqn:Hp; [| discriminate].
  destruct wall1 as [|nowTp [|startTp [|t wall2]]]; try discriminate.
  rewrite Z.eqb_refl in H.
  destruct (Program.counting_loop w cycles cycle (getCurrentSecond t) wall2 0 0
              (say (ReadyToGo (dateTimeToString nowTp)) acc1))
    as [[[its acc2] wall3]|] eqn:Hc; [| discriminate].
  inversion H; subst. clear H.
  apply program_pause_loop_paused in Hp. destruct Hp as [ss Hss].
  apply program_counting_loop_counted in Hc. destruct Hc as (Hc & n & _ & Hits).
  eapply measured_intro; eauto.
  rewrite Hits. apply wrap_range, Hw.
Qed.

Lemma optimized_measure_measured (w cycles cycle : Z) (wall mono wall' mono' : list Z)
      (m : Measurement) :
  0 <= w ->
  ProgramOptimized.measure w cycles cycle wall mono = Some (m, wall', mono') ->
  measured w cycles cycle m.
Proof.
  intros Hw H. unfold ProgramOptimized.measure in H.
  destruct wall as [|t0 wall0]; [discriminate |].
  destruct (ProgramOptimized.pause_loop w wall0 (second_of t0) acc0)
    as [[acc1 wall1]|] eqn:Hp; [| discriminate].
  destruct wall1 as [|nowTp [|t wall2]]; try discriminate.
  destruct mono as [|startTp mono1]; [discriminate |].
  destruct (ProgramOptimized.counting_loop w cycles cycle (startTp + 1 * ns_per_sec)
              mono1 wall2 0 0 (say (ReadyToGo (dateTimeToString nowTp)) acc1))
    as [[[[its acc2] wall3] mono3]|] eqn:Hc; [| discriminate].
  inversion H; subst. clear H.
  apply optimized_pause_loop_paused in Hp. destruct Hp as [ss Hss].
  apply optimized_counting_loop_deadline in Hc;
    [| exact Hw | pose proof (pow2_pos w Hw); lia].
  destruct Hc as (Hc & pre & now & _ & _ & _ & Hits).
  eapply measured_intro; eauto.
  rewrite Hits. apply wrap_range, Hw.
Qed.

(** ** A cycle, step by step *)

Section CycleFacts.

Variable w : Z.
Variable env : Env.
Variable measure :
  Z -> Z -> list Z -> list Z -> option (Measurement * list Z * list Z).

(** A completed cycle: the samples it read, and the world it leaves. *)
Lemma run_cycle_inv (cycles cycle sum : Z) (st st' : World) (r : CycleResult)
      (sum' : Z) :
  Runner.run_cycle w env measure cycles cycle sum st = Ok (r, sum') st' ->
  exists stamp wall1 m endTp wall3 mono2,
    wall st = stamp :: wall1 /\
    measure cycles cycle wall1 (mono st) = Some (m, endTp :: wall3, mono2) /\
    r = mkCycleResult cycle (m_iterations m) (m_startStr m) (dateTimeToString endTp)
                      (a_buffer (m_acc m)) /\
    sum' = wrap w (sum + m_iterations m) /\
    let path := mkDetailPath (getFileTimestamp stamp) cycles cycle in
    st' = mkWorld wall3 mono2 (S (S (opens st)))
                  ((((out st ++ [Fill "*" 76; RunningCycle cycle cycles; Fill "*" 44])
                     ++ a_console (m_acc m)) ++ [PathLine path]) ++ detail_contents r)
                  (err st)
                  (sleeps st ++ a_sleeps (m_acc m))
                  (itlog st ++ (if open_ok env (S (opens st)) IterationLog
                                then cycle_block r else []))
                  (details st ++ (if open_ok env (opens st) (Detail path)
                                  then [(path, detail_contents r)] else [])).
Proof.
  unfold Runner.run_cycle, Runner.append_log, Runner.write_detail, Runner.measure_cycle,
    Runner.open_file, Runner.log_lines, bind, print, system_now, ret.
  cbn.
  destruct (wall st) as [|stamp wall1] eqn:Hw; [discriminate |]. cbn.
  destruct (measure cycles cycle wall1 (mono st)) as [[[m wall2] mono2]|] eqn:Hm;
    [| discriminate].
  cbn. destruct wall2 as [|endTp wall3]; [discriminate |]. cbn.
  intros H. inversion H; subst. clear H.
  exists stamp, wall1, m, endTp, wall3, mono2. repeat split; auto.
Qed.

(** And conversely. *)
Lemma run_cycle_intro (cycles cycle sum : Z) (st : World) (stamp : Z)
      (wall1 : list Z) (m : Measurement) (endTp : Z) (wall3 mono2 : list Z) :
  wall st = stamp :: wall1 ->
  measure cycles cycle wall1 (mono st) = Some (m, endTp :: wall3, mono2) ->
  exists r st',
    Runner.run_cycle w env measure cycles cycle sum st
    = Ok (r, wrap w (sum + m_iterations m)) st' /\
    cycleIndex r = cycle /\ iterationCount r = m_iterations m /\
    wall st' = wall3 /\ mono st' = mono2.
Proof.
  intros Hw Hm.
  unfold Runner.run_cycle, Runner.append_log, Runner.write_detail, Runner.measure_cycle,
    Runner.open_file, Runner.log_lines, bind, print, system_now, ret.
  cbn. rewrite Hw. cbn. rewrite Hm. cbn.
  eexists. eexists. split; [reflexivity |]. cbn. auto.
Qed.

(** A cycle writes nothing to the error stream. *)
Lemma run_cycle_err (cycles cycle sum : Z) (st st' : World) (r : CycleResult)
      (sum' : Z) :
  Runner.run_cycle w env measure cycles cycle sum st = Ok (r, sum') st' ->
  err st' = err st.
Proof.
  intros H. apply run_cycle_inv in H.
  destruct H as (stamp & wall1 & m & endTp & wall3 & mono2 & _ & _ & _ & _ & ->).
  reflexivity.
Qed.

Lemma cycle_loop_err (fuel : nat) :
  forall (cycles cycle sum : Z) (results : list CycleResult) (st st' : World)
         (res : Z * list CycleResult),
    Runner.cycle_loop w env measure fuel cycles cycle sum results st = Ok res st' ->
    err st' = err st.
Proof.
  induction fuel as [|fuel IH]; intros cycles cycle sum results st st' res H;
    [discriminate |].
  cbn [Runner.cycle_loop] in H. destruct (cycle <=? cycles).
  - bind_inv H. destruct a as [r sum1]. apply run_cycle_err in H0.
    apply IH in H. congruence.
  - inversion H; subst. reflexivity.
Qed.

Lemma keeps_err_bind {A B} (c : M A) (k : A -> M B) :
  keeps_err c -> (forall a, keeps_err (k a)) -> keeps_err (bind c k).
Proof.
  intros Hc Hk st b st' H. bind_inv H.
  apply Hc in H0. apply Hk in H. congruence.
Qed.

Lemma keeps_err_ret {A} (a : A) : keeps_err (ret a).
Proof. intros st b st' H. inversion H; subst. reflexivity. Qed.

Lemma keeps_err_print (ls : list Line) : keeps_err (print ls).
Proof. intros st b st' H. inversion H; subst. reflexivity. Qed.

Lemma keeps_err_system_now : keeps_err system_now.
Proof.
  intros st b st' H. unfold system_now in H.
  destruct (wall st); inversion H; subst. reflexivity.
Qed.

Lemma keeps_err_append_log (ls : list Line) : keeps_err (Runner.append_log env ls).
Proof. intros st b st' H. inversion H; subst. reflexivity. Qed.

Lemma keeps_err_log_header (cycles : Z) : keeps_err (Runner.log_header env cycles).
Proof.
  intros st b st' H.
  unfold Runner.log_header, Runner.open_file, Runner.log_lines, bind, system_now in H.
  cbn in H. destruct (wall st); inversion H; subst. reflexivity.
Qed.

Lemma keeps_err_cycle_loop (fuel : nat) (cycles cycle sum : Z)
      (results : list CycleResult) :
  keeps_err (Runner.cycle_loop w env measure fuel cycles cycle sum results).
Proof. intros st b st' H. eapply cycle_loop_err, H. Qed.

(** The error stream of a run that reports holds the warning about the
    input, if it was given, and nothing else. *)
Lemma main_err (fuel : nat) (input : string) (st st' : World) (code : Z)
      (report : list CycleResult * RunSummary) :
  Runner.main w env measure fuel input st = Ok (code, Some report) st' ->
  err st' = err st ++ (if snd (read_cycles w input) then [InvalidInput] else []).
Proof.
  unfold Runner.main. intros H.
  destruct (negb (detail_dir_ok env) || negb (log_dir_ok env)).
  - repeat bind_inv H. discriminate H.
  - bind_inv H. bind_inv H.
    assert (E0 : err st0 = err st) by (inversion H0; subst; reflexivity).
    assert (E1 : err st1 = err st0 ++ (if snd (read_cycles w input)
                                       then [InvalidInput] else [])).
    { destruct (snd (read_cycles w input)); inversion H1; subst; cbn;
        [reflexivity | rewrite app_nil_r; reflexivity]. }
    match type of H with
    | ?c ?s = _ => assert (K : keeps_err c)
    end.
    { cbv beta.
      repeat first [ apply keeps_err_ret | apply keeps_err_print
                   | apply keeps_err_system_now | apply keeps_err_append_log
                   | apply keeps_err_log_header | apply keeps_err_cycle_loop
                   | apply keeps_err_bind; [| intros ?] ]. }
    apply K in H. congruence.
Qed.

(** *** The iteration log of a run, when it always opens *)

Hypothesis log_opens : forall n, open_ok env n IterationLog = true.

Lemma run_cycle_itlog (cycles cycle sum : Z) (st st' : World) (r : CycleResult)
      (sum' : Z) :
  Runner.run_cycle w env measure cycles cycle sum st = Ok (r, sum') st' ->
  itlog st' = itlog st ++ cycle_block r.
Proof.
  intros H. apply run_cycle_inv in H.
  destruct H as (stamp & wall1 & m & endTp & wall3 & mono2 & _ & _ & _ & _ & ->).
  cbn [itlog]. rewrite log_opens. reflexivity.
Qed.

Lemma cycle_loop_itlog (fuel : nat) :
  forall (cycles cycle sum : Z) (results : list CycleResult) (st st' : World)
         (sum' : Z) (results' : list CycleResult),
    Runner.cycle_loop w env measure fuel cycles cycle sum results st
    = Ok (sum', results') st' ->
    exists new,
      results' = results ++ new /\
      itlog st' = itlog st ++ List.concat (map cycle_block new).
Proof.
  induction fuel as [|fuel IH];
    intros cycles cycle sum results st st' sum' results' H; [discriminate |].
  cbn [Runner.cycle_loop] in H. destruct (cycle <=? cycles).
  - bind_inv H. destruct a as [r sum1]. cbn [fst snd] in H.
    apply run_cycle_itlog in H0. apply IH in H.
    destruct H as (new & Hres & Hlog).
    exists (r :: new). rewrite Hres, Hlog, H0, <- !app_assoc. auto.
  - inversion H; subst. exists []. cbn. rewrite !app_nil_r. auto.
Qed.

(** The iteration log of a run that reports: the header, one block for each
    cycle in the order of the cycles, and the block of the summary. *)
Lemma main_itlog (fuel : nat) (input : string) (st st' : World) (code : Z)
      (results : list CycleResult) (summary : RunSummary) :
  Runner.main w env measure fuel input st = Ok (code, Some (results, summary)) st' ->
  exists now,
    itlog st' =
    itlog st
    ++ [Fill "*" 33; CyclesHeader (cycleCount summary) (dateTimeToString now);
        Fill "*" 28]
    ++ List.concat (map cycle_block results)
    ++ summary_block summary.
Proof.
  unfold Runner.main. intros H.
  destruct (negb (detail_dir_ok env) || negb (log_dir_ok env)).
  - repeat bind_inv H. discriminate H.
  - repeat bind_inv H. destruct a4 as [total rs]. cbn [fst snd] in H.
    unfold ret in H. inversion H; subst. clear H.
    apply cycle_loop_itlog in H5. destruct H5 as (new & Hnew & Hlog).
    cbn [app] in Hnew. subst new.
    assert (E0 : itlog st0 = itlog st) by (inversion H0; subst; reflexivity).
    assert (E1 : itlog st1 = itlog st0)
      by (destruct (snd (read_cycles w input)); inversion H1; subst; reflexivity).
    assert (E2 : itlog st2 = itlog st1) by (inversion H2; subst; reflexivity).
    assert (E3 : exists now,
               itlog st3 = itlog st2
                           ++ [Fill "*" 33;
                               CyclesHeader (fst (read_cycles w input)) (dateTimeToString now);
                               Fill "*" 28]).
    { unfold Runner.log_header, Runner.open_file, Runner.log_lines, bind, system_now in H3.
      cbn in H3. destruct (wall st2) as [|now rest]; [discriminate |].
      inversion H3; subst. exists now. cbn. rewrite log_opens. reflexivity. }
    destruct E3 as (now & E3).
    assert (E4 : itlog st4 = itlog st3).
    { unfold system_now in H4. destruct (wall st3); inversion H4; subst. reflexivity. }
    assert (E6 : itlog st6 = itlog st5).
    { unfold system_now in H6. destruct (wall st5); inversion H6; subst. reflexivity. }
    assert (E7 : itlog st7 = itlog st6) by (inversion H7; subst; reflexivity).
    assert (E8 : itlog st8 = itlog st7) by (inversion H8; subst; reflexivity).
    exists now.
    unfold Runner.append_log, Runner.open_file, Runner.log_lines, bind in H9.
    inversion H9; subst. clear H9. cbn [itlog opens].
    rewrite log_opens, E8, E7, E6, Hlog, E4, E3, E2, E1, E0.
    cbn [summary_block cycleCount totalIterations runStart runEnd
         averageIterationsPerCycle elapsedBreakdown fst snd].
    rewrite <- !app_assoc. reflexivity.
Qed.

Hypothesis measure_measured :
  forall cycles cycle wl ml m wl' ml',
    measure cycles cycle wl ml = Some (m, wl', ml') -> measured w cycles cycle m.

(** Every count the loop collects is a value of [n_type]. *)
Lemma cycle_loop_counts (fuel : nat) :
  forall (cycles cycle sum : Z) (results : list CycleResult) (st st' : World)
         (sum' : Z) (results' : list CycleResult),
    Runner.cycle_loop w env measure fuel cycles cycle sum results st
    = Ok (sum', results') st' ->
    Forall (fun r => 0 <= iterationCount r < 2 ^ w) results ->
    Forall (fun r => 0 <= iterationCount r < 2 ^ w) results'.
Proof.
  induction fuel as [|fuel IH];
    intros cycles cycle sum results st st' sum' results' H Hall; [discriminate |].
  cbn [Runner.cycle_loop] in H. destruct (cycle <=? cycles).
  - bind_inv H. destruct a as [r sum1].
    apply IH in H; [exact H |].
    apply Forall_app. split; [exact Hall |].
    constructor; [| constructor].
    apply run_cycle_inv in H0.
    destruct H0 as (stamp & wall1 & m & endTp & wall3 & mono2 & _ & Hm & -> & _).
    apply measure_measured in Hm. cbn. apply Hm.
  - inversion H; subst. exact Hall.
Qed.

Lemma run_cycle_records (cycles cycle sum : Z) (st st' : World) (r : CycleResult)
      (sum' : Z) :
  Runner.run_cycle w env measure cycles cycle sum st = Ok (r, sum') st' ->
  cycle_records env cycles cycle st st' r.
Proof.
  intros H. apply run_cycle_inv in H.
  destruct H as (stamp & wall1 & m & endTp & wall3 & mono2 & _ & Hm & Hr & _ & Hst).
  apply measure_measured in Hm. destruct Hm as [(progress & now & Hb & Hp & Hc) _].
  exists (a_sleeps (m_acc m)), progress, now, (getFileTimestamp stamp).
  cbv zeta in *. subst st'. cbn [sleeps out details itlog err].
  subst r. cbn [cycleIndex progressLog].
  repeat split; auto.
  rewrite Hc, <- !app_assoc. reflexivity.
Qed.

End CycleFacts.

(** ** Runs with long cycles *)

Lemma optimized_counting_loop_busy (w cycles cycle endTp p x t : Z) (rest : list Z) :
  0 <= w -> p < endTp -> endTp <= x ->
  forall (k n : nat) (i : Z) (acc : Acc),
    0 <= i < 2 ^ w ->
    (k <= n)%nat ->
    exists acc' n',
      ProgramOptimized.counting_loop w cycles cycle endTp (repeat p k ++ x :: rest)
        (repeat t n) i i acc
      = Some (wrap w (i + Z.of_nat k), acc', repeat t n', rest) /\
      (n - k <= n')%nat.
Proof.
  intros Hw Hp Hx. apply Z.ltb_lt in Hp. apply Z.ltb_ge in Hx.
  induction k as [|k IH]; intros n i acc Hi Hn.
  - cbn [repeat app ProgramOptimized.counting_loop]. rewrite Hx.
    exists acc, n. rewrite Z.add_0_r, wrap_small by exact Hi. split; [reflexivity | lia].
  - cbn [repeat app ProgramOptimized.counting_loop]. rewrite Hp.
    assert (Hi' : 0 <= wrap w (i + 1) < 2 ^ w) by apply wrap_range, Hw.
    assert (Hk : wrap w (wrap w (i + 1) + Z.of_nat k) = wrap w (i + Z.of_nat (S k)))
      by (rewrite wrap_add_l; f_equal; lia).
    destruct (wrap w (i + 1) mod 100000 =? 0).
    + destruct n as [|n]; [lia |]. cbn [repeat].
      destruct (IH n (wrap w (i + 1))
                   (log_line (ProgressLine cycle cycles (wrap w (i + 1))
                                           (dateTimeToString t)) acc)
                   Hi' ltac:(lia)) as (acc' & n' & Heq & Hn').
      exists acc', n'. rewrite Heq, Hk. split; [reflexivity | lia].
    + destruct (IH n (wrap w (i + 1)) acc Hi' ltac:(lia)) as (acc' & n' & Heq & Hn').
      exists acc', n'. rewrite Heq, Hk. split; [reflexivity | lia].
Qed.

Lemma optimized_measure_busy (w cycles cycle : Z) (k n : nat) (rest : list Z) :
  0 <= w ->
  (k + 3 <= n)%nat ->
  exists m n',
    ProgramOptimized.measure w cycles cycle (repeat (sec 1) n)
      (0 :: repeat 0 k ++ sec 1 :: rest)
    = Some (m, repeat (sec 1) n', rest) /\
    m_iterations m = wrap w (Z.of_nat k) /\
    (n - (k + 3) <= n')%nat.
Proof.
  intros Hw Hn.
  destruct n as [|[|[|n]]]; try lia.
  destruct (optimized_counting_loop_busy w cycles cycle (0 + 1 * ns_per_sec) 0 (sec 1)
              (sec 1) rest Hw ltac:(reflexivity) ltac:(discriminate) k n 0
              (say (ReadyToGo (dateTimeToString (sec 1))) acc0)
              ltac:(pose proof (pow2_pos w Hw); lia) ltac:(lia))
    as (acc' & n' & Heq & Hn').
  unfold ProgramOptimized.measure. cbn [repeat].
  replace (ProgramOptimized.pause_loop w (sec 1 :: sec 1 :: repeat (sec 1) n)
             (second_of (sec 1)) acc0)
    with (Some (acc0, sec 1 :: sec 1 :: repeat (sec 1) n)) by reflexivity.
  rewrite Heq.
  eexists. exists n'. split; [reflexivity |]. cbn [m_iterations].
  split; [f_equal; lia | lia].
Qed.

Lemma busy_cycle_app (k : Z) (rest : list Z) :
  busy_cycle k ++ rest = 0 :: repeat 0 (Z.to_nat k) ++ sec 1 :: rest.
Proof. unfold busy_cycle. cbn [app]. rewrite <- app_assoc. reflexivity. Qed.

Lemma run_cycle_busy (w : Z) (env : Env) (cycles cycle sum : Z) (st : World)
      (k : Z) (n : nat) (rest : list Z) :
  0 <= w -> 0 <= k ->
  wall st = repeat (sec 1) n ->
  mono st = busy_cycle k ++ rest ->
  (Z.to_nat k + 5 <= n)%nat ->
  exists r st' n',
    Runner.run_cycle w env (ProgramOptimized.measure w) cycles cycle sum st
    = Ok (r, wrap w (sum + wrap w k)) st' /\
    cycleIndex r = cycle /\ iterationCount r = wrap w k /\
    wall st' = repeat (sec 1) n' /\ (n - (Z.to_nat k + 5) <= n')%nat /\
    mono st' = rest.
Proof.
  intros Hw Hk Hwall Hmono Hn.
  destruct n as [|n]; [lia |].
  destruct (optimized_measure_busy w cycles cycle (Z.to_nat k) n rest Hw ltac:(lia))
    as (m & n' & Hm & Hits & Hn').
  destruct n' as [|n']; [lia |].
  rewrite Z2Nat.id in Hits by exact Hk.
  rewrite busy_cycle_app in Hmono. rewrite <- Hmono in Hm.
  destruct (run_cycle_intro w env (ProgramOptimized.measure w) cycles cycle sum st
              (sec 1) (repeat (sec 1) n) m (sec 1) (repeat (sec 1) n') rest Hwall Hm)
    as (r & st' & Hrun & Hidx & Hcount & Hw' & Hm').
  exists r, st', n'. rewrite <- Hits, Hrun, Hcount.
  repeat split; auto. lia.
Qed.

Lemma cycle_loop_busy (w : Z) (env : Env) (cycles : Z) (rest : list Z) :
  0 <= w -> cycles < 2 ^ w - 1 ->
  forall (ks : list Z) (fuel : nat) (cycle sum : Z) (results : list CycleResult)
         (st : World) (n : nat),
    Forall (fun k => 0 <= k) ks ->
    1 <= cycle ->
    cycle + Z.of_nat (List.length ks) = cycles + 1 ->
    (List.length ks < fuel)%nat ->
    0 <= sum < 2 ^ w ->
    wall st = repeat (sec 1) n ->
    mono st = busy_mono ks ++ rest ->
    sumZ ks + 5 * Z.of_nat (List.length ks) <= Z.of_nat n ->
    exists rs st' n',
      Runner.cycle_loop w env (ProgramOptimized.measure w) fuel cycles cycle sum results st
      = Ok (wrap w (sum + sumZ (map (wrap w) ks)), results ++ rs) st' /\
      map cycleIndex rs = Zrange cycle (List.length ks) /\
      map iterationCount rs = map (wrap w) ks /\
      wall st' = repeat (sec 1) n' /\
      Z.of_nat n - (sumZ ks + 5 * Z.of_nat (List.length ks)) <= Z.of_nat n' /\
      mono st' = rest.
Proof.
  intros Hw Hmax. induction ks as [|k ks IH];
    intros fuel cycle sum results st n Hks Hc Hlen Hfuel Hsum Hwall Hmono Hn.
  - destruct fuel as [|fuel]; [cbn in Hfuel; lia |].
    cbn [List.length] in Hlen. cbn [Runner.cycle_loop].
    replace (cycle <=? cycles) with false by (symmetry; apply Z.leb_gt; lia).
    exists [], st, n. unfold ret. cbn [map sumZ fold_right Zrange List.length].
    rewrite app_nil_r, Z.add_0_r, wrap_small by exact Hsum.
    cbn in Hmono. repeat split; auto. lia.
  - destruct fuel as [|fuel]; [cbn in Hfuel; lia |].
    cbn [List.length] in Hlen, Hfuel, Hn.
    inversion Hks as [|k0 ks0 Hk Hks']; subst.
    assert (Hsplit : sumZ (k :: ks) = k + sumZ ks) by reflexivity.
    rewrite Hsplit in Hn.
    assert (Hrest : 0 <= sumZ ks).
    { clear - Hks'. induction Hks' as [|x l Hx Hl IHl]; [cbn; lia |].
      change (sumZ (x :: l)) with (x + sumZ l). lia. }
    cbn [busy_mono] in Hmono. rewrite <- app_assoc in Hmono.
    destruct (run_cycle_busy w env cycles cycle sum st k n (busy_mono ks ++ rest)
                Hw Hk Hwall Hmono ltac:(lia))
      as (r & st1 & n1 & Hrun & Hidx & Hcount & Hwall1 & Hn1 & Hmono1).
    cbn [Runner.cycle_loop].
    replace (cycle <=? cycles) with true by (symmetry; apply Z.leb_le; lia).
    unfold bind. rewrite Hrun. cbn [fst snd].
    rewrite (wrap_small w (cycle + 1)) by lia.
    destruct (IH fuel (cycle + 1) (wrap w (sum + wrap w k)) (results ++ [r]) st1 n1
                 Hks' ltac:(lia) ltac:(lia) ltac:(lia) (wrap_range w _ Hw)
                 Hwall1 Hmono1 ltac:(lia))
      as (rs & st' & n' & Hloop & Hidxs & Hcounts & Hwall' & Hn' & Hmono').
    exists (r :: rs), st', n'. rewrite Hloop.
    cbn [map List.length Zrange]. rewrite Hidx, Hidxs, Hcount, Hcounts, <- app_assoc.
    change (sumZ (wrap w k :: map (wrap w) ks)) with (wrap w k + sumZ (map (wrap w) ks)).
    rewrite wrap_add_l, Z.add_assoc, Hsplit.
    repeat split; auto. lia.
Qed.

(** The run of [program_optimized.cxx] in the world [busy_world ks], when the
    input asks for as many cycles as [ks] has counts: cycle [c] counts the
    [c]-th element of [ks], modulo [2 ^ w]. *)
Lemma main_busy (w : Z) (env : Env) (ks : list Z) (fuel : nat) (input : string) :
  0 <= w ->
  env = env_all_ok ->
  Forall (fun k => 0 <= k) ks ->
  read_cycles w input = (Z.of_nat (List.length ks), false) ->
  Z.of_nat (List.length ks) < 2 ^ w - 1 ->
  (List.length ks < fuel)%nat ->
  exists results summary st',
    ProgramOptimized.main w env fuel input (busy_world ks)
    = Ok (0, Some (results, summary)) st' /\
    map cycleIndex results = Zrange 1 (List.length ks) /\
    map iterationCount results = map (wrap w) ks /\
    totalIterations summary = wrap w (sumZ (map (wrap w) ks)) /\
    cycleCount summary = Z.of_nat (List.length ks) /\
    averageIterationsPerCycle summary =
    average (wrap w (sumZ (map (wrap w) ks))) (Z.of_nat (List.length ks)) /\
    err st' = [].
Proof.
  intros Hw -> Hks Hread Hmax Hfuel.
  assert (Hrest : 0 <= sumZ ks).
  { clear - Hks. induction Hks as [|x l Hx Hl IHl]; [cbn; lia |].
    change (sumZ (x :: l)) with (x + sumZ l). lia. }
  unfold ProgramOptimized.main, Runner.main, busy_world.
  rewrite Hread. cbn [fst snd env_all_ok detail_dir_ok log_dir_ok negb orb].
  set (n := Z.to_nat (sumZ ks + 5 * Z.of_nat (List.length ks) + 3)).
  destruct n as [|[|n2]] eqn:Hn; [lia | lia |].
  set (st2 := mkWorld (repeat (sec 1) n2) (busy_mono ks) 1
                      ((Runner.banner ++ [RunningTests (Z.of_nat (List.length ks))]))
                      [] [] [Fill "*" 33;
                             CyclesHeader (Z.of_nat (List.length ks)) (dateTimeToString (sec 1));
                             Fill "*" 28] []).
  destruct (cycle_loop_busy w env_all_ok (Z.of_nat (List.length ks)) [] Hw Hmax ks fuel 1 0 []
              st2 n2 Hks ltac:(lia) ltac:(lia) Hfuel
              ltac:(pose proof (pow2_pos w Hw); lia) eq_refl
              ltac:(cbn; rewrite app_nil_r; reflexivity) ltac:(lia))
    as (rs & st3 & n3 & Hloop & Hidxs & Hcounts & Hwall3 & Hn3 & Hmono3).
  destruct n3 as [|n3]; [lia |].
  rewrite Z.add_0_l in Hloop. cbn [app] in Hloop.
  unfold Runner.log_header, Runner.append_log, Runner.open_file, Runner.log_lines,
    bind, print, eprint, system_now, ret.
  cbn [wall mono opens out err sleeps itlog details fresh_world repeat set_wall
       env_all_ok open_ok app].
  match goal with
  | |- context [Runner.cycle_loop _ _ _ _ _ _ _ _ ?s] => change s with st2
  end.
  rewrite Hloop, Hwall3. cbn [fst snd].
  eexists. eexists. eexists. split; [reflexivity |].
  cbn [totalIterations cycleCount averageIterationsPerCycle err].
  repeat split; auto.
  apply (cycle_loop_err w env_all_ok (ProgramOptimized.measure w)) in Hloop.
  change (err st3 = []). rewrite Hloop. reflexivity.
Qed.

(** ** The cycle count read at startup *)

Lemma digit_val_nonneg (c : ascii) (d : Z) : digit_val c = Some d -> 0 <= d.
Proof.
  unfold digit_val.
  destruct ((48 <=? Z.of_N (N_of_ascii c)) && (Z.of_N (N_of_ascii c) <=? 57)) eqn:H;
    [| discriminate].
  intros E. inversion E; subst. apply andb_prop in H. destruct H as [H _].
  apply Z.leb_le in H. lia.
Qed.

Lemma digits_nonneg (s : string) :
  forall acc found, 0 <= acc -> 0 <= fst (fst (digits s acc found)).
Proof.
  induction s as [|c s IH]; intros acc found Hacc; cbn [digits]; [exact Hacc |].
  destruct (digit_val c) as [d|] eqn:Hd; [| exact Hacc].
  apply IH. apply digit_val_nonneg in Hd. lia.
Qed.

(** The count is a positive value of [n_type], whatever the input. *)
Lemma read_cycles_range (w : Z) (input : string) :
  1 <= w -> 1 <= fst (read_cycles w input) <= 2 ^ w - 1.
Proof.
  intros Hw.
  assert (Hp : 2 <= 2 ^ w).
  { change 2 with (2 ^ 1) at 1. apply Z.pow_le_mono_r; lia. }
  unfold read_cycles, extract_unsigned.
  destruct (skipws input) as [|c rest]; [cbn; lia |].
  pose proof (digits_nonneg
                (if Ascii.eqb c "-" || Ascii.eqb c "+" then rest else String c rest)
                0 false ltac:(lia)) as Hd.
  destruct (digits (if Ascii.eqb c "-" || Ascii.eqb c "+" then rest else String c rest)
                   0 false) as [[result found] tail].
  cbn [fst] in Hd.
  destruct (negb found); [cbn; lia |].
  destruct (2 ^ w - 1 <? result) eqn:Hover; [cbn; lia |].
  apply Z.ltb_ge in Hover.
  set (v := if Ascii.eqb c "-" then wrap w (- result) else result).
  assert (Hv : 0 <= v <= 2 ^ w - 1).
  { subst v. destruct (Ascii.eqb c "-"); [| lia].
    pose proof (wrap_range w (- result) ltac:(lia)). lia. }
  destruct (negb match tail with EmptyString => true | String _ _ => false end);
    cbn [negb orb]; [| cbn; lia].
  destruct (v <? 1) eqn:Hlt; cbn [fst]; [lia |].
  apply Z.ltb_ge in Hlt. lia.
Qed.

(** ** Cycles and totals of a whole run *)

Lemma sumZ_counts_nonneg (w : Z) (results : list CycleResult) :
  Forall (fun r => 0 <= iterationCount r < 2 ^ w) results ->
  0 <= sumZ (map iterationCount results).
Proof.
  induction 1 as [|r l Hr Hl IH]; [cbn; lia |].
  change (0 <= iterationCount r + sumZ (map iterationCount l)). lia.
Qed.

Section RunFacts.

Variable w : Z.
Variable env : Env.
Variable measure :
  Z -> Z -> list Z -> list Z -> option (Measurement * list Z * list Z).
Hypothesis w_32 : 32 <= w.
Hypothesis measure_measured :
  forall cycles cycle wl ml m wl' ml',
    measure cycles cycle wl ml = Some (m, wl', ml') -> measured w cycles cycle m.

(** The results of a run that reports. *)
Lemma main_totals (fuel : nat) (input : string) (st st' : World) (code : Z)
      (results : list CycleResult) (summary : RunSummary) :
  Runner.main w env measure fuel input st = Ok (code, Some (results, summary)) st' ->
  code = 0 /\
  cycleCount summary = fst (read_cycles w input) /\
  averageIterationsPerCycle summary
  = average (totalIterations summary) (cycleCount summary) /\
  map cycleIndex results = Zrange 1 (Z.to_nat (fst (read_cycles w input))) /\
  Forall (fun r => 0 <= iterationCount r < 2 ^ w) results /\
  totalIterations summary = wrap w (sumZ (map iterationCount results)).
Proof.
  intros H. apply main_report in H.
  destruct H as (st1 & st2 & total & start & stop & Hloop & Hcode & Hsum).
  cbn [fst snd] in Hloop, Hsum. subst summary code.
  cbn [cycleCount averageIterationsPerCycle totalIterations].
  pose proof (read_cycles_range w input ltac:(lia)) as Hr.
  assert (Hlt : fst (read_cycles w input) < 2 ^ w - 1).
  { destruct (Z.eq_dec (fst (read_cycles w input)) (2 ^ w - 1)) as [E|E]; [| lia].
    exfalso. rewrite E in Hloop.
    eapply (cycle_loop_max_never_exits w env measure ltac:(lia)); [| exact Hloop].
    pose proof (pow2_32_le w w_32). lia. }
  pose proof (cycle_loop_counts w env measure measure_measured fuel _ _ _ _ _ _ _ _
                                Hloop (Forall_nil _)) as Hcounts.
  pose proof (cycle_loop_post w env measure ltac:(lia) _ Hlt fuel 1 0 [] st1
                              ltac:(lia) ltac:(pose proof (pow2_pos w); lia)) as Hpost.
  rewrite Hloop in Hpost. cbn [loop_post] in Hpost.
  destruct Hpost as (new & Hnew & Hidx & Htotal). cbn [app] in Hnew. subst new.
  rewrite Z.add_0_l in Htotal.
  replace (fst (read_cycles w input) + 1 - 1) with (fst (read_cycles w input)) in Hidx
    by lia.
  repeat split; auto; apply Hcounts.
Qed.

(** The bound on the loop is never what ends a run, when it exceeds the
    cycle count. *)
Lemma main_fuel (fuel : nat) (input : string) (st : World) :
  fst (read_cycles w input) < 2 ^ w - 1 ->
  (Z.to_nat (fst (read_cycles w input)) < fuel)%nat ->
  Runner.main w env measure fuel input st <> OutOfFuel.
Proof.
  intros Hlt Hfuel. apply main_not_OutOfFuel. intros st1 E.
  pose proof (read_cycles_range w input ltac:(lia)) as Hr.
  pose proof (cycle_loop_post w env measure ltac:(lia) _ Hlt fuel 1 0 [] st1
                              ltac:(lia) ltac:(pose proof (pow2_pos w); lia)) as Hpost.
  rewrite E in Hpost. cbn [loop_post] in Hpost. lia.
Qed.

Lemma main_exact (fuel : nat) (input : string) (st : World) :
  fst (read_cycles w input) < 2 ^ w - 1 ->
  (Z.to_nat (fst (read_cycles w input)) < fuel)%nat ->
  run_exact w input (Runner.main w env measure fuel input st).
Proof.
  intros Hlt Hfuel.
  destruct (Runner.main w env measure fuel input st)
    as [[code [[results summary]|]] st'| |] eqn:Hmain; cbn [run_exact]; auto.
  - apply main_totals in Hmain.
    destruct Hmain as (_ & Hn & _ & Hidx & Hcounts & Htotal).
    repeat split; auto.
    intros Hsmall. rewrite Htotal. apply wrap_small.
    pose proof (sumZ_counts_nonneg w results Hcounts). lia.
  - exact (main_fuel fuel input st Hlt Hfuel Hmain).
Qed.

End RunFacts.

(** ** Two runs of [program_optimized.cxx] with long cycles *)

(** 32-bit [n_type]: 86 cycles of 50,000,000 iterations each. *)
Lemma overflow_run :
  exists results summary st',
    ProgramOptimized.main 32 env_all_ok 87 (line "86")
      (busy_world (repeat 50000000 86))
    = Ok (0, Some (results, summary)) st' /\
    map cycleIndex results = Zrange 1 86 /\
    map iterationCount results = repeat 50000000 86 /\
    totalIterations summary = 5032704 /\
    err st' = [].
Proof.
  destruct (main_busy 32 env_all_ok (repeat 50000000 86) 87 (line "86"))
    as (results & summary & st' & Hrun & Hidx & Hcounts & Htotal & _ & _ & Herr).
  - lia.
  - reflexivity.
  - apply Forall_forall. intros k Hk. apply repeat_spec in Hk. lia.
  - vm_compute. reflexivity.
  - vm_compute. reflexivity.
  - rewrite repeat_length. lia.
  - exists results, summary, st'. split; [exact Hrun |].
    rewrite Hidx, Hcounts, Htotal, Herr. repeat split; reflexivity.
Qed.

(** 64-bit [n_type]: cycles of 5,000,001 and 4,999,999 iterations. *)
Lemma ten_million_run :
  exists results summary st',
    ProgramOptimized.main 64 env_all_ok 3 (line "2") (busy_world [5000001; 4999999])
    = Ok (0, Some (results, summary)) st' /\
    map iterationCount results = [5000001; 4999999] /\
    totalIterations summary = 10000000 /\
    cycleCount summary = 2 /\
    averageIterationsPerCycle summary = 5000000.
Proof.
  destruct (main_busy 64 env_all_ok [5000001; 4999999] 3 (line "2"))
    as (results & summary & st' & Hrun & Hidx & Hcounts & Htotal & Hn & Havg & _).
  - lia.
  - reflexivity.
  - repeat constructor; lia.
  - vm_compute. reflexivity.
  - vm_compute. reflexivity.
  - cbn [List.length]. lia.
  - exists results, summary, st'. split; [exact Hrun |].
    rewrite Hcounts, Htotal, Hn, Havg. repeat split; reflexivity.
Qed.

(** * The claims *)

(** ** C1: the cycles of a run and their total *)

(** C1 (amended): for every cycle count N read at startup with
    1 <= N < 2^w - 1, a run that reports has run exactly the cycles 1, ..., N
    in this order, and its total equals the sum of the cycles' iteration
    counts modulo 2^w, hence the sum itself whenever that is below 2^w; with
    more than N tests of its condition allowed the cycle loop is never what
    ends the run. *)
Theorem cycles_in_order_total_modulo (w : Z) (env : Env) (fuel : nat) (input : string)
        (st : World) :
  32 <= w ->
  fst (read_cycles w input) < 2 ^ w - 1 ->
  (Z.to_nat (fst (read_cycles w input)) < fuel)%nat ->
  1 <= fst (read_cycles w input) /\
  run_exact w input (Program.main w env fuel input st) /\
  run_exact w input (ProgramOptimized.main w env fuel input st).
Proof.
  intros Hw Hlt Hfuel.
  split; [apply (read_cycles_range w input); lia |].
  split; apply main_exact; auto; intros cycles cycle wl ml m wl' ml' Hm.
  - eapply program_measure_measured; [lia | exact Hm].
  - eapply optimized_measure_measured; [lia | exact Hm].
Qed.

Lemma cycles_in_order_total_modulo_witness :
  (exists report st',
      Program.main 64 env_all_ok 3 (line "2")
                   (fresh_world two_cycle_wall two_cycle_mono)
      = Ok (0, Some report) st' /\
      map cycleIndex (fst report) = [1; 2] /\
      map iterationCount (fst report) = [2; 1] /\
      totalIterations (snd report) = 3) /\
  (exists report st',
      ProgramOptimized.main 64 env_all_ok 3 (line "2")
                            (fresh_world two_cycle_wall two_cycle_mono)
      = Ok (0, Some report) st' /\
      map cycleIndex (fst report) = [1; 2] /\
      map iterationCount (fst report) = [2; 1] /\
      totalIterations (snd report) = 3) /\
  1 <= fst (read_cycles 64 (line "2")) /\
  run_exact 64 (line "2")
            (Program.main 64 env_all_ok 3 (line "2")
                          (fresh_world two_cycle_wall two_cycle_mono)) /\
  run_exact 64 (line "2")
            (ProgramOptimized.main 64 env_all_ok 3 (line "2")
                                   (fresh_world two_cycle_wall two_cycle_mono)).
Proof.
  split; [| split].
  - eexists. eexists. split; [vm_compute; reflexivity |]. repeat split; reflexivity.
  - eexists. eexists. split; [vm_compute; reflexivity |]. repeat split; reflexivity.
  - apply (cycles_in_order_total_modulo 64 env_all_ok 3 (line "2")
                                        (fresh_world two_cycle_wall two_cycle_mono)).
    + lia.
    + vm_compute. reflexivity.
    + vm_compute. lia.
Defined.

(** C1 as stated fails: with a 32-bit [n_type] and 86 cycles of 50,000,000
    iterations each, the cycles' counts add up to 4,300,000,000 and the
    reported total is 5,032,704. *)
Lemma total_is_not_the_exact_sum :
  exists results summary st',
    ProgramOptimized.main 32 env_all_ok 87 (line "86")
      (busy_world (repeat 50000000 86))
    = Ok (0, Some (results, summary)) st' /\
    map cycleIndex results = Zrange 1 86 /\
    sumZ (map iterationCount results) = 4300000000 /\
    totalIterations summary = 5032704 /\
    totalIterations summary <> sumZ (map iterationCount results).
Proof.
  destruct overflow_run
    as (results & summary & st' & Hrun & Hidx & Hcounts & Htotal & _).
  exists results, summary, st'. split; [exact Hrun |].
  rewrite Hcounts, Htotal. split; [exact Hidx |].
  split; [reflexivity |]. split; [reflexivity | discriminate].
Qed.

(** ** C2: when the timed loop ends *)

(** The steps of the measuring part of [program_optimized.cxx]. *)
Lemma optimized_measure_inv (w cycles cycle : Z) (wall mono wall' mono' : list Z)
      (m : Measurement) :
  ProgramOptimized.measure w cycles cycle wall mono = Some (m, wall', mono') ->
  exists t0 wall0 acc1 nowTp t wall2 startTp mono1,
    wall = t0 :: wall0 /\
    ProgramOptimized.pause_loop w wall0 (second_of t0) acc0
    = Some (acc1, nowTp :: t :: wall2) /\
    mono = startTp :: mono1 /\
    ProgramOptimized.counting_loop w cycles cycle (startTp + 1 * ns_per_sec) mono1 wall2
      0 0 (say (ReadyToGo (dateTimeToString nowTp)) acc1)
    = Some (m_iterations m, m_acc m, wall', mono') /\
    m_startStr m = dateTimeToString t.
Proof.
  intros H. unfold ProgramOptimized.measure in H.
  destruct wall as [|t0 wall0]; [discriminate |].
  destruct (ProgramOptimized.pause_loop w wall0 (second_of t0) acc0)
    as [[acc1 wall1]|] eqn:Hp; [| discriminate].
  destruct wall1 as [|nowTp [|t wall2]]; try discriminate.
  destruct mono as [|startTp mono1]; [discriminate |].
  destruct (ProgramOptimized.counting_loop w cycles cycle (startTp + 1 * ns_per_sec)
              mono1 wall2 0 0 (say (ReadyToGo (dateTimeToString nowTp)) acc1))
    as [[[[its acc2] wall3] mono3]|] eqn:Hc; [| discriminate].
  inversion H; subst. clear H.
  exists t0, wall0, acc1, nowTp, t, wall2, startTp, mono1. cbn. auto.
Qed.

(** The wall-clock loop of [program.cxx] ends at the first tested sample
    whose second is not the starting one: all the samples it tested before
    are within the starting second. *)
Lemma program_counting_loop_exit (w cycles cycle startSecond : Z) (wall : list Z) :
  forall (i iterations : Z) (acc acc' : Acc) (its : Z) (rest : list Z),
    Program.counting_loop w cycles cycle startSecond wall i iterations acc
    = Some (its, acc', rest) ->
    exists consumed x progress n before,
      wall = consumed ++ x :: rest /\
      getCurrentSecond x <> startSecond /\
      a_buffer acc' = a_buffer acc ++ progress /\
      (List.length consumed + 1 = n + 2 * List.length progress)%nat /\
      (1 <= n)%nat /\
      its = wrap w (i + Z.of_nat n) /\
      tested w i n wall = before ++ [x] /\
      Forall (fun t => getCurrentSecond t = startSecond) before /\
      (List.length before + 1 = n)%nat.
Proof.
  induction wall as [wall IH] using (induction_ltof1 _ (@List.length Z)).
  unfold ltof in IH.
  intros i iterations acc acc' its rest H.
  destruct wall as [|t1 wall1].
  - cbn in H. destruct (wrap w (i + 1) mod 100000 =? 0); discriminate.
  - cbn [Program.counting_loop] in H.
    destruct (wrap w (i + 1) mod 100000 =? 0) eqn:Hm.
    + destruct wall1 as [|progressTp [|t rest']]; try discriminate.
      destruct (getCurrentSecond t =? startSecond) eqn:Hs.
      * apply Z.eqb_eq in Hs. apply IH in H; [| cbn; lia].
        destruct H as (consumed & x & progress & n & before
                       & Hw & Hx & Hb & Hlen & Hn & Hits & Ht & Hall & Hbl).
        exists (t1 :: progressTp :: t :: consumed), x,
          (ProgressLine cycle cycles (wrap w (i + 1)) (dateTimeToString progressTp)
           :: progress), (S n), (t :: before).
        cbn [tested]. rewrite Hm. cbn [skipn]. rewrite Ht.
        rewrite Hw, Hb, Hits, wrap_add_l. cbn [log_line a_buffer List.length].
        rewrite <- app_assoc.
        repeat split; auto; try lia; try (f_equal; lia);
          try (constructor; assumption).
      * inversion H; subst. apply Z.eqb_neq in Hs.
        exists [t1; progressTp], t,
          [ProgressLine cycle cycles (wrap w (i + 1)) (dateTimeToString progressTp)],
          1%nat, [].
        cbn [tested]. rewrite Hm.
        cbn [log_line a_buffer List.length skipn app]. repeat split; auto.
    + destruct (getCurrentSecond t1 =? startSecond) eqn:Hs.
      * apply Z.eqb_eq in Hs. apply IH in H; [| cbn; lia].
        destruct H as (consumed & x & progress & n & before
                       & Hw & Hx & Hb & Hlen & Hn & Hits & Ht & Hall & Hbl).
        exists (t1 :: consumed), x, progress, (S n), (t1 :: before).
        cbn [tested]. rewrite Hm, Ht.
        rewrite Hw, Hb, Hits, wrap_add_l. cbn [List.length].
        repeat split; auto; try lia; try (f_equal; lia);
          try (constructor; assumption).
      * inversion H; subst. apply Z.eqb_neq in Hs.
        exists [], t1, [], 1%nat, []. cbn [tested]. rewrite Hm.
        cbn [List.length app]. rewrite app_nil_r.
        repeat split; auto.
Qed.

Lemma skipn_2_cons {A} (l : list A) (t : A) (rest : list A) :
  skipn 2 l = t :: rest -> exists a b, l = a :: b :: t :: rest.
Proof.
  destruct l as [|a [|b l]]; cbn; try discriminate.
  intros ->. exists a, b. reflexivity.
Qed.

(** Conversely, the loop ends as soon as a tested sample is not within the
    starting second. *)
Lemma program_counting_loop_ends (w cycles cycle startSecond : Z) (n : nat) :
  forall (wall : list Z) (i iterations : Z) (acc : Acc) (before : list Z) (x : Z),
    tested w i n wall = before ++ [x] ->
    (List.length before + 1 = n)%nat ->
    Forall (fun t => getCurrentSecond t = startSecond) before ->
    getCurrentSecond x <> startSecond ->
    exists acc' rest,
      Program.counting_loop w cycles cycle startSecond wall i iterations acc
      = Some (wrap w (i + Z.of_nat n), acc', rest).
Proof.
  induction n as [|n IH]; intros wall i iterations acc before x Ht Hlen Hall Hx;
    [lia |].
  cbn [tested] in Ht.
  assert (Hstep : forall rest0 a t,
             tested w (wrap w (i + 1)) n rest0 = tl (before ++ [x]) ->
             hd 0 (before ++ [x]) = t ->
             exists acc' rest,
               (if getCurrentSecond t =? startSecond
                then Program.counting_loop w cycles cycle startSecond rest0
                       (wrap w (i + 1)) (wrap w (i + 1)) a
                else Some (wrap w (i + 1), a, rest0))
               = Some (wrap w (i + Z.of_nat (S n)), acc', rest)).
  { intros rest0 a t Htl Hhd.
    destruct before as [|b0 before'].
    - cbn in Htl, Hhd. subst t. apply Z.eqb_neq in Hx. rewrite Hx.
      cbn [List.length] in Hlen. replace n with O by lia.
      exists a, rest0. reflexivity.
    - cbn in Htl, Hhd. subst t.
      inversion Hall as [|? ? Hb0 Hall']; subst. rewrite Z.eqb_refl.
      destruct (IH rest0 (wrap w (i + 1)) (wrap w (i + 1)) a before' x Htl
                   ltac:(cbn [List.length] in Hlen; lia) Hall' Hx)
        as (acc' & rest & Hrun).
      exists acc', rest. rewrite Hrun, wrap_add_l.
      replace (i + 1 + Z.of_nat n) with (i + Z.of_nat (S n)) by lia. reflexivity. }
  destruct (wrap w (i + 1) mod 100000 =? 0) eqn:Hm.
  - destruct (skipn 2 wall) as [|t rest0] eqn:Hskip;
      [destruct before; discriminate |].
    apply skipn_2_cons in Hskip. destruct Hskip as (a & b & ->).
    cbn [Program.counting_loop]. rewrite Hm.
    apply Hstep; rewrite <- Ht; reflexivity.
  - destruct wall as [|t rest0]; [destruct before; discriminate |].
    cbn [Program.counting_loop]. rewrite Hm.
    apply Hstep; rewrite <- Ht; reflexivity.
Qed.

(** C2 (amended): in [program_optimized.cxx] the timed loop reads the
    monotonic clock once per test; it counts one iteration (modulo 2^w) for
    every sample less than one second after the recorded start and ends at
    the first sample one second or more after it; and it does end there, as
    long as the wall clock has a sample for every progress line.  In
    [program.cxx] the loop reads the wall clock once per iteration (and twice
    more per progress line) and ends on the first per-iteration sample whose
    second of the minute differs from the starting one, after at least one
    iteration, counted modulo 2^w: its condition tested one sample for each
    iteration, every sample that it tested before the last is within the
    starting second, and it does end at such a sample.
    Neither loop sleeps: the sleeps of a cycle are those of the alignment
    pause. *)
Theorem timed_loop_exit (w cycles cycle : Z) (wall mono wall' mono' : list Z)
        (m : Measurement) (startSecond i iterations its : Z) (pwall prest : list Z)
        (acc acc' : Acc) :
  32 <= w ->
  ProgramOptimized.measure w cycles cycle wall mono = Some (m, wall', mono') ->
  Program.counting_loop w cycles cycle startSecond pwall i iterations acc
  = Some (its, acc', prest) ->
  (exists startTp pre now paused_at rest,
      mono = startTp :: pre ++ now :: mono' /\
      Forall (fun t => t - startTp < 1 * ns_per_sec) pre /\
      1 * ns_per_sec <= now - startTp /\
      m_iterations m = wrap w (Z.of_nat (List.length pre)) /\
      wall = paused_at ++ rest /\
      a_sleeps (m_acc m) = map (fun t => second_of t * 100) paused_at) /\
  (a_sleeps acc' = a_sleeps acc /\
   exists consumed x progress n before,
     pwall = consumed ++ x :: prest /\
     getCurrentSecond x <> startSecond /\
     a_buffer acc' = a_buffer acc ++ progress /\
     (List.length consumed + 1 = n + 2 * List.length progress)%nat /\
     (1 <= n)%nat /\
     its = wrap w (i + Z.of_nat n) /\
     tested w i n pwall = before ++ [x] /\
     Forall (fun t => getCurrentSecond t = startSecond) before /\
     (List.length before + 1 = n)%nat) /\
  (forall startTp pre now rest wl a,
      Forall (fun t => t - startTp < 1 * ns_per_sec) pre ->
      1 * ns_per_sec <= now - startTp ->
      (List.length pre <= List.length wl)%nat ->
      exists a' wl',
        ProgramOptimized.counting_loop w cycles cycle (startTp + 1 * ns_per_sec)
          (pre ++ now :: rest) wl 0 0 a
        = Some (wrap w (Z.of_nat (List.length pre)), a', wl', rest)) /\
  (forall n wl j before x a,
      tested w j n wl = before ++ [x] ->
      (List.length before + 1 = n)%nat ->
      Forall (fun t => getCurrentSecond t = startSecond) before ->
      getCurrentSecond x <> startSecond ->
      exists a' rest,
        Program.counting_loop w cycles cycle startSecond wl j j a
        = Some (wrap w (j + Z.of_nat n), a', rest)).
Proof.
  intros Hw Hopt Hprog. split; [| split; [| split]]; cycle 2.
  { intros startTp pre now rest wl a Hpre Hnow Hlen.
    destruct (optimized_counting_loop_returns w cycles cycle (startTp + 1 * ns_per_sec)
                now rest ltac:(lia) ltac:(lia) pre wl 0 a) as (a' & wl' & Heq).
    - eapply Forall_impl; [| exact Hpre]. cbv beta. intros t Ht. lia.
    - exact Hlen.
    - pose proof (pow2_pos w ltac:(lia)). lia.
    - exists a', wl'. rewrite Heq, Z.add_0_l. reflexivity. }
  { intros n wl j before x a Ht Hlen Hall Hx.
    eapply program_counting_loop_ends; eauto. }
  - apply optimized_measure_inv in Hopt.
    destruct Hopt as (t0 & wall0 & acc1 & nowTp & t & wall2 & startTp & mono1
                      & Hwall & Hpause & Hmono & Hloop & _).
    apply optimized_pause_loop_samples in Hpause; [| exact Hw].
    destruct Hpause as (paused_at & x & Hsplit & _ & _ & Hsleeps).
    apply optimized_counting_loop_deadline in Hloop;
      [| lia | pose proof (pow2_pos w ltac:(lia)); lia].
    destruct Hloop as ((_ & _ & Hsl) & pre & now & Hm1 & Hpre & Hnow & Hits).
    exists startTp, pre, now, paused_at, (x :: nowTp :: t :: wall2).
    repeat split.
    + rewrite Hmono, Hm1. reflexivity.
    + eapply Forall_impl; [| exact Hpre]. cbv beta. intros a Ha. lia.
    + lia.
    + rewrite Hits, Z.add_0_l. reflexivity.
    + rewrite Hwall. exact Hsplit.
    + rewrite Hsl. cbn [say a_sleeps]. rewrite Hsleeps. reflexivity.
  - pose proof (program_counting_loop_counted _ _ _ _ _ _ _ _ _ _ _ Hprog)
      as ((_ & _ & Hsl) & _).
    pose proof (program_counting_loop_exit _ _ _ _ _ _ _ _ _ _ _ Hprog) as Hexit.
    auto.
Qed.

Lemma timed_loop_exit_witness :
  32 <= 64 /\
  ProgramOptimized.measure 64 1 1 [sec 8; sec 9; sec 9; sec 9] [0; 5; 999999999; sec 1; 7]
  = Some (mkMeasurement 9 2 (mkAcc [PausedFor 800] [PausingFor 800; ReadyToGo 9] [800]),
          [], [7]) /\
  Program.counting_loop 64 1 1 9 [sec 9; sec 9; sec 10; sec 11] 0 0 acc0
  = Some (3, acc0, [sec 11]) /\
  (exists startTp pre now paused_at rest,
      [0; 5; 999999999; sec 1; 7] = startTp :: pre ++ now :: [7] /\
      Forall (fun t => t - startTp < 1 * ns_per_sec) pre /\
      1 * ns_per_sec <= now - startTp /\
      2 = wrap 64 (Z.of_nat (List.length pre)) /\
      [sec 8; sec 9; sec 9; sec 9] = paused_at ++ rest /\
      [800] = map (fun t => second_of t * 100) paused_at) /\
  (a_sleeps acc0 = a_sleeps acc0 /\
   exists consumed x progress n before,
     [sec 9; sec 9; sec 10; sec 11] = consumed ++ x :: [sec 11] /\
     getCurrentSecond x <> 9 /\
     a_buffer acc0 = a_buffer acc0 ++ progress /\
     (List.length consumed + 1 = n + 2 * List.length progress)%nat /\
     (1 <= n)%nat /\
     3 = wrap 64 (0 + Z.of_nat n) /\
     tested 64 0 n [sec 9; sec 9; sec 10; sec 11] = before ++ [x] /\
     Forall (fun t => getCurrentSecond t = 9) before /\
     (List.length before + 1 = n)%nat).
Proof.
  split; [lia |]. split; [vm_compute; reflexivity |]. split; [vm_compute; reflexivity |].
  pose proof (timed_loop_exit 64 1 1 [sec 8; sec 9; sec 9; sec 9]
                [0; 5; 999999999; sec 1; 7] [] [7]
                (mkMeasurement 9 2
                   (mkAcc [PausedFor 800] [PausingFor 800; ReadyToGo 9] [800]))
                9 0 0 3 [sec 9; sec 9; sec 10; sec 11] [sec 11] acc0 acc0
                ltac:(lia) ltac:(vm_compute; reflexivity) ltac:(vm_compute; reflexivity))
    as (Hopt & Hprog & _).
  split; [exact Hopt | exact Hprog].
Defined.

(** C2 as stated fails for [program.cxx]: the recorded start is at 1.9 s, the
    next sample at 2.0 s ends the loop after one iteration, a tenth of a
    second after the start. *)
Lemma wall_clock_loop_can_end_early :
  Program.measure 64 1 1
    [1900000000; 1900000000; 1900000000; 1900000000; 1900000000; 2000000000] []
  = Some (mkMeasurement 1 1 (mkAcc [] [ReadyToGo 1] []), [], []) /\
  2000000000 - 1900000000 < 1 * ns_per_sec.
Proof.
  split; [vm_compute; reflexivity | vm_compute; reflexivity].
Qed.

(** ** C3: the two programs side by side

    C3 rests on the properties of the pause and of the progress lines of
    both programs: it is stated at the end of the development. *)

(** ** C4: the alignment pause *)

(** The pause of [program_optimized.cxx], from the first sample on: it
    sleeps for each sample whose second of the minute is a multiple of 8, for
    100 ms times the second of that very sample, and goes on at the first
    sample that is not such a multiple. *)
Lemma optimized_pause_uses_checked_sample (w cycles cycle : Z)
      (wall mono wall' mono' : list Z) (m : Measurement) :
  32 <= w ->
  ProgramOptimized.measure w cycles cycle wall mono = Some (m, wall', mono') ->
  exists checked x rest,
    wall = checked ++ x :: rest /\
    Forall (fun t => second_of t mod 8 = 0) checked /\
    second_of x mod 8 <> 0 /\
    a_sleeps (m_acc m) = map (fun t => second_of t * 100) checked.
Proof.
  intros Hw H. apply optimized_measure_inv in H.
  destruct H as (t0 & wall0 & acc1 & nowTp & t & wall2 & startTp & mono1
                 & Hwall & Hpause & _ & Hloop & _).
  apply optimized_pause_loop_samples in Hpause; [| exact Hw].
  destruct Hpause as (checked & x & Hsplit & Hall & Hx & Hsleeps).
  apply optimized_counting_loop_deadline in Hloop;
    [| lia | pose proof (pow2_pos w ltac:(lia)); lia].
  destruct Hloop as ((_ & _ & Hsl) & _).
  exists checked, x, (nowTp :: t :: wall2). rewrite Hwall, Hsl. cbn [say a_sleeps].
  rewrite Hsleeps. auto.
Qed.


(** C4, [program.cxx] at the failing input: the sample taken for [pauseMs]
    is at second 7, the next one, which the loop tests, at second 8.  Second
    8 is a multiple of 8, and the sleep lasts 700 ms, not 800 ms.  On the
    same samples from the tested one on, [program_optimized.cxx] sleeps
    800 ms. *)
Theorem program_pause_sleeps_for_earlier_sample :
  Program.measure 64 1 1
    [sec 7; sec 8; sec 9; sec 9; sec 9; sec 9; sec 9; sec 10] []
  = Some (mkMeasurement 9 1 (mkAcc [PausedFor 700] [PausingFor 700; ReadyToGo 9] [700]),
          [], []) /\
  second_of (sec 7) mod 8 <> 0 /\
  second_of (sec 8) mod 8 = 0 /\
  second_of (sec 8) * 100 = 800 /\
  ProgramOptimized.measure 64 1 1 [sec 8; sec 9; sec 9; sec 9] [0; sec 1]
  = Some (mkMeasurement 9 0 (mkAcc [PausedFor 800] [PausingFor 800; ReadyToGo 9] [800]),
          [], []).
Proof.
  split; [vm_compute; reflexivity |].
  split; [vm_compute; discriminate |].
  repeat split; vm_compute; reflexivity.
Qed.

(** ** C5 and C6: files that do not open *)

Lemma main_quiet (w : Z) (env : Env) measure (fuel : nat) (input : string) (st : World) :
  quiet w input st (Runner.main w env measure fuel input st).
Proof.
  destruct (Runner.main w env measure fuel input st) as [[code [report|]] st'| |] eqn:H;
    cbn [quiet]; auto.
  eapply main_err, H.
Qed.

(** C5 (amended): when a detail file does not open the run goes on as if it
    had: exit code, cycle results, summary, total, console output, error
    stream and iteration log are those of the run in which every detail file
    opens; only the detail file is missing, and nothing reports it. *)
Theorem detail_failure_is_ignored (w : Z) (env : Env) (fuel : nat) (input : string)
        (st : World) :
  forget_details (Program.main w env fuel input st) =
  forget_details (Program.main w (details_open env) fuel input st) /\
  forget_details (ProgramOptimized.main w env fuel input st) =
  forget_details (ProgramOptimized.main w (details_open env) fuel input st) /\
  quiet w input st (Program.main w env fuel input st) /\
  quiet w input st (ProgramOptimized.main w env fuel input st).
Proof.
  split; [apply main_forget_details |]. split; [apply main_forget_details |].
  split; apply main_quiet.
Qed.

(** C5 as stated fails: the detail file of the only cycle does not open, the
    run ends with exit code 0, and the error stream is empty. *)
Lemma detail_failure_not_reported :
  exists report st',
    ProgramOptimized.main 64 env_no_detail 2 (line "1")
      (fresh_world [sec 1; sec 1; sec 1; sec 1; sec 1; sec 1; sec 2; sec 2]
                   [0; 5; 6; sec 1]) = Ok (0, Some report) st' /\
    map iterationCount (fst report) = [2] /\
    totalIterations (snd report) = 2 /\
    details st' = [] /\
    err st' = [].
Proof.
  eexists. eexists. split; [vm_compute; reflexivity |].
  repeat split; reflexivity.
Qed.

(** C6 (amended): when the iteration log does not open the run goes on as if
    it had: exit code, cycle results, summary, total, console output, error
    stream and detail files are those of the run in which the log always
    opens; only the block is missing from the log, and nothing reports it. *)
Theorem log_failure_is_ignored (w : Z) (env : Env) (fuel : nat) (input : string)
        (st : World) :
  forget_itlog (Program.main w env fuel input st) =
  forget_itlog (Program.main w (log_open env) fuel input st) /\
  forget_itlog (ProgramOptimized.main w env fuel input st) =
  forget_itlog (ProgramOptimized.main w (log_open env) fuel input st) /\
  quiet w input st (Program.main w env fuel input st) /\
  quiet w input st (ProgramOptimized.main w env fuel input st).
Proof.
  split; [apply main_forget_itlog |]. split; [apply main_forget_itlog |].
  split; apply main_quiet.
Qed.

(** C6 as stated fails: the iteration log never opens, yet both cycles run,
    the exit code is 0 and the error stream is empty. *)
Lemma log_failure_does_not_abort :
  exists report st',
    ProgramOptimized.main 64 env_no_log 3 (line "2")
      (fresh_world [sec 1; sec 1; sec 1; sec 1; sec 1; sec 1; sec 2;
                    sec 2; sec 2; sec 2; sec 2; sec 3; sec 3]
                   [0; 5; 6; sec 1; sec 1; sec 1; sec 2]) = Ok (0, Some report) st' /\
    map cycleIndex (fst report) = [1; 2] /\
    map iterationCount (fst report) = [2; 1] /\
    itlog st' = [] /\
    err st' = [].
Proof.
  eexists. eexists. split; [vm_compute; reflexivity |].
  repeat split; reflexivity.
Qed.

(** ** C7: invalid input *)

(** Input with no digit where the number is expected, and input that
    denotes zero, give one cycle and the warning. *)
Lemma read_cycles_rejects (w : Z) (input : string) (c : ascii) (rest tail : string)
      (result : Z) (found : bool) :
  0 <= w ->
  skipws input = String c rest ->
  digits (if Ascii.eqb c "-" || Ascii.eqb c "+" then rest else String c rest) 0 false
  = (result, found, tail) ->
  found = false \/ result = 0 ->
  read_cycles w input = (1, true).
Proof.
  intros Hw Hs Hd H. unfold read_cycles, extract_unsigned. rewrite Hs, Hd.
  destruct H as [-> | ->]; [reflexivity |].
  destruct found; [| reflexivity]. cbn [negb].
  pose proof (pow2_pos w Hw).
  replace (2 ^ w - 1 <? 0) with false by (symmetry; apply Z.ltb_ge; lia).
  replace (if Ascii.eqb c "-" then wrap w (- 0) else 0) with 0.
  - destruct (negb match tail with EmptyString => true | String _ _ => false end);
      reflexivity.
  - destruct (Ascii.eqb c "-"); [| reflexivity].
    unfold wrap. change (- 0) with 0. rewrite Z.mod_0_l by lia. reflexivity.
Qed.

(** C7 at the failing input: the line "-5" is read as 2^w - 5 cycles, without
    the warning; a world that holds the samples of exactly one cycle lets the
    run on input "1" finish after cycle 1, while the run on input "-5" goes
    on to a second cycle.  The lines "abc" and "0" give one cycle and the
    warning. *)
Theorem negative_input_is_not_rejected :
  read_cycles 64 (line "-5") = (18446744073709551611, false) /\
  read_cycles 32 (line "-5") = (4294967291, false) /\
  read_cycles 64 (line "abc") = (1, true) /\
  read_cycles 64 (line "0") = (1, true) /\
  read_cycles 64 (line "1") = (1, false) /\
  (exists report st',
      Program.main 64 env_all_ok 3 (line "1") one_cycle_world = Ok (0, Some report) st' /\
      map cycleIndex (fst report) = [1] /\ err st' = []) /\
  Program.main 64 env_all_ok 3 (line "-5") one_cycle_world = Starved.
Proof.
  repeat (split; [vm_compute; reflexivity |]).
  split.
  - eexists. eexists. split; [vm_compute; reflexivity |]. split; reflexivity.
  - vm_compute. reflexivity.
Qed.

(** ** C8: the elapsed time *)

(** C8: for every non-negative number of elapsed milliseconds, the breakdown
    has hours in 0..23, minutes and seconds in 0..59, milliseconds in 0..999,
    and days, hours, minutes, seconds and milliseconds add up to the elapsed
    milliseconds again. *)
Theorem elapsed_breakdown_exact (totalMs : Z) :
  0 <= totalMs ->
  let b := elapsed_breakdown totalMs in
  0 <= b_hours b < 24 /\ 0 <= b_minutes b < 60 /\ 0 <= b_seconds b < 60 /\
  0 <= b_ms b < 1000 /\
  b_days b * 86400000 + b_hours b * 3600000 + b_minutes b * 60000
  + b_seconds b * 1000 + b_ms b = totalMs.
Proof.
  intros H b. subst b. rewrite (elapsed_breakdown_nonneg totalMs H). cbn [b_days b_hours b_minutes b_seconds b_ms].
  set (r1 := totalMs mod 86400000).
  set (r2 := r1 mod 3600000).
  set (r3 := r2 mod 60000).
  pose proof (Z.mod_pos_bound totalMs 86400000 ltac:(lia)) as B1. fold r1 in B1.
  pose proof (Z.mod_pos_bound r1 3600000 ltac:(lia)) as B2. fold r2 in B2.
  pose proof (Z.mod_pos_bound r2 60000 ltac:(lia)) as B3. fold r3 in B3.
  pose proof (Z.mod_pos_bound r3 1000 ltac:(lia)) as B4.
  pose proof (Z.div_mod totalMs 86400000 ltac:(lia)) as E1. fold r1 in E1.
  pose proof (Z.div_mod r1 3600000 ltac:(lia)) as E2. fold r2 in E2.
  pose proof (Z.div_mod r2 60000 ltac:(lia)) as E3. fold r3 in E3.
  pose proof (Z.div_mod r3 1000 ltac:(lia)) as E4.
  assert (0 <= r1 / 3600000 < 24)
    by (split; [apply Z.div_pos; lia | apply Z.div_lt_upper_bound; lia]).
  assert (0 <= r2 / 60000 < 60)
    by (split; [apply Z.div_pos; lia | apply Z.div_lt_upper_bound; lia]).
  assert (0 <= r3 / 1000 < 60)
    by (split; [apply Z.div_pos; lia | apply Z.div_lt_upper_bound; lia]).
  repeat split; lia.
Qed.

Lemma elapsed_breakdown_exact_witness :
  0 <= 93784005 /\
  elapsed_breakdown 93784005 = mkBreakdown 1 2 3 4 5 /\
  breakdown_ms (elapsed_breakdown 93784005) = 93784005.
Proof.
  split; [lia |]. split; [reflexivity |].
  pose proof (elapsed_breakdown_exact 93784005 ltac:(lia)) as H.
  cbv zeta in H. unfold breakdown_ms. apply H.
Defined.

(** ** C9: the average *)

(** C9: the average a run reports is its total divided by its cycle count,
    by the truncating division of non-negative integers (the cycle count is
    at least 1); totals of 5,000,001 and 4,999,999 over two cycles give
    5,000,000. *)
Theorem average_is_truncating_division (w : Z) (env : Env) (fuel : nat)
        (input : string) (st st' : World) (code : Z) (results : list CycleResult)
        (summary : RunSummary) :
  32 <= w ->
  Program.main w env fuel input st = Ok (code, Some (results, summary)) st' \/
  ProgramOptimized.main w env fuel input st = Ok (code, Some (results, summary)) st' ->
  1 <= cycleCount summary /\
  0 <= totalIterations summary /\
  averageIterationsPerCycle summary
  = Z.quot (totalIterations summary) (cycleCount summary) /\
  averageIterationsPerCycle summary = totalIterations summary / cycleCount summary /\
  average (wrap w (5000001 + 4999999)) 2 = 5000000.
Proof.
  intros Hw Hrun.
  assert (H : cycleCount summary = fst (read_cycles w input) /\
              averageIterationsPerCycle summary
              = average (totalIterations summary) (cycleCount summary) /\
              0 <= totalIterations summary).
  { destruct Hrun as [Hrun | Hrun]; apply main_totals in Hrun; try exact Hw.
    - destruct Hrun as (_ & Hn & Havg & _ & _ & Htotal).
      rewrite Htotal at 2. pose proof (wrap_range w (sumZ (map iterationCount results))).
      repeat split; auto; lia.
    - intros cycles cycle wl ml m wl' ml' Hm.
      eapply program_measure_measured; [lia | exact Hm].
    - destruct Hrun as (_ & Hn & Havg & _ & _ & Htotal).
      rewrite Htotal at 2. pose proof (wrap_range w (sumZ (map iterationCount results))).
      repeat split; auto; lia.
    - intros cycles cycle wl ml m wl' ml' Hm.
      eapply optimized_measure_measured; [lia | exact Hm]. }
  destruct H as (Hn & Havg & Htotal).
  pose proof (read_cycles_range w input ltac:(lia)) as Hr.
  assert (Hdiv : averageIterationsPerCycle summary
                 = totalIterations summary / cycleCount summary).
  { rewrite Havg. unfold average.
    replace (0 <? cycleCount summary) with true by (symmetry; apply Z.ltb_lt; lia).
    reflexivity. }
  split; [lia |]. split; [exact Htotal |].
  split; [rewrite Z.quot_div_nonneg by lia; exact Hdiv |].
  split; [exact Hdiv |].
  pose proof (pow2_32_le w Hw). rewrite wrap_small by lia. reflexivity.
Qed.

Lemma average_is_truncating_division_witness :
  (exists results summary st',
      Program.main 64 env_all_ok 3 (line "2")
                   (fresh_world two_cycle_wall two_cycle_mono)
      = Ok (0, Some (results, summary)) st' /\
      map iterationCount results = [2; 1] /\
      totalIterations summary = 3 /\
      cycleCount summary = 2 /\
      averageIterationsPerCycle summary = 1 /\
      averageIterationsPerCycle summary
      = Z.quot (totalIterations summary) (cycleCount summary)) /\
  (exists results summary st',
      ProgramOptimized.main 64 env_all_ok 3 (line "2") (busy_world [5000001; 4999999])
      = Ok (0, Some (results, summary)) st' /\
      map iterationCount results = [5000001; 4999999] /\
      totalIterations summary = 10000000 /\
      averageIterationsPerCycle summary = 5000000 /\
      averageIterationsPerCycle summary
      = Z.quot (totalIterations summary) (cycleCount summary)).
Proof.
  split.
  - eexists. eexists. eexists. split; [vm_compute; reflexivity |].
    repeat (split; [reflexivity |]).
    eapply (average_is_truncating_division 64 env_all_ok 3 (line "2")
              (fresh_world two_cycle_wall two_cycle_mono));
      [lia | left; vm_compute; reflexivity].
  - destruct ten_million_run
      as (results & summary & st' & Hrun & Hcounts & Htotal & Hn & Havg).
    exists results, summary, st'. split; [exact Hrun |].
    split; [exact Hcounts |]. split; [exact Htotal |]. split; [exact Havg |].
    apply (average_is_truncating_division 64 env_all_ok 3 (line "2")
             (busy_world [5000001; 4999999]) st' 0 results summary);
      [lia | right; exact Hrun].
Defined.

(** ** C10: the width of the counters *)

(** C10: counting is done in [n_type], an unsigned type of [w >= 32] bits.
    The deadline loop returns the number of samples it saw before the
    deadline modulo 2^w, the wall-clock loop the number of its iterations
    modulo 2^w; every cycle count of a run that reports lies in
    0 .. 2^w - 1; the run's total is the sum of the cycle counts modulo 2^w,
    so that it is smaller than the sum when the sum reaches 2^w; and such a
    run still ends with exit code 0, with nothing on the error stream but
    the warning about the input, if that was given. *)
Theorem counts_wrap_modulo_width (w : Z) (env : Env) (fuel : nat)
        (input : string) (st st' : World) (code : Z) (results : list CycleResult)
        (summary : RunSummary) :
  32 <= w ->
  Program.main w env fuel input st = Ok (code, Some (results, summary)) st' \/
  ProgramOptimized.main w env fuel input st = Ok (code, Some (results, summary)) st' ->
  code = 0 /\
  err st' = err st ++ (if snd (read_cycles w input) then [InvalidInput] else []) /\
  Forall (fun r => 0 <= iterationCount r < 2 ^ w) results /\
  totalIterations summary = sumZ (map iterationCount results) mod 2 ^ w /\
  (2 ^ w <= sumZ (map iterationCount results) ->
   totalIterations summary < sumZ (map iterationCount results)) /\
  (forall cycles cycle endTp mono wall acc its acc' wall' mono',
      ProgramOptimized.counting_loop w cycles cycle endTp mono wall 0 0 acc
      = Some (its, acc', wall', mono') ->
      exists pre now,
        mono = pre ++ now :: mono' /\ its = Z.of_nat (List.length pre) mod 2 ^ w) /\
  (forall cycles cycle startSecond wall acc its acc' rest,
      Program.counting_loop w cycles cycle startSecond wall 0 0 acc
      = Some (its, acc', rest) ->
      exists consumed x progress n,
        wall = consumed ++ x :: rest /\
        a_buffer acc' = a_buffer acc ++ progress /\
        (List.length consumed + 1 = n + 2 * List.length progress)%nat /\
        its = Z.of_nat n mod 2 ^ w).
Proof.
  intros Hw Hrun.
  assert (H : code = 0 /\
              err st' = err st ++ (if snd (read_cycles w input)
                                   then [InvalidInput] else []) /\
              Forall (fun r => 0 <= iterationCount r < 2 ^ w) results /\
              totalIterations summary = wrap w (sumZ (map iterationCount results))).
  { destruct Hrun as [Hrun | Hrun]; pose proof (main_err _ _ _ _ _ _ _ _ _ Hrun) as Herr;
      apply main_totals in Hrun; try exact Hw.
    - destruct Hrun as (Hcode & _ & _ & _ & Hcounts & Htotal). auto.
    - intros cycles cycle wl ml m wl' ml' Hm.
      eapply program_measure_measured; [lia | exact Hm].
    - destruct Hrun as (Hcode & _ & _ & _ & Hcounts & Htotal). auto.
    - intros cycles cycle wl ml m wl' ml' Hm.
      eapply optimized_measure_measured; [lia | exact Hm]. }
  destruct H as (Hcode & Herr & Hcounts & Htotal).
  split; [exact Hcode |]. split; [exact Herr |]. split; [exact Hcounts |].
  split; [exact Htotal |]. split; [| split].
  - intros Hbig. rewrite Htotal.
    pose proof (wrap_range w (sumZ (map iterationCount results)) ltac:(lia)). lia.
  - intros cycles cycle endTp mono wall acc its acc' wall' mono' Hloop.
    apply optimized_counting_loop_deadline in Hloop;
      [| lia | pose proof (pow2_pos w ltac:(lia)); lia].
    destruct Hloop as (_ & pre & now & Hmono & _ & _ & Hits).
    exists pre, now. split; [exact Hmono |]. rewrite Hits, Z.add_0_l. reflexivity.
  - intros cycles cycle startSecond wall acc its acc' rest Hloop.
    apply program_counting_loop_polls in Hloop.
    destruct Hloop as (consumed & x & progress & n & Hwall & _ & Hb & Hlen & _ & Hits).
    exists consumed, x, progress, n. rewrite Hits, Z.add_0_l. auto.
Qed.

Lemma counts_wrap_modulo_width_witness :
  (exists results summary st',
      Program.main 64 env_all_ok 3 (line "2")
                   (fresh_world two_cycle_wall two_cycle_mono)
      = Ok (0, Some (results, summary)) st' /\
      map iterationCount results = [2; 1] /\
      totalIterations summary = 3 /\
      totalIterations summary = sumZ (map iterationCount results) mod 2 ^ 64) /\
  (exists results summary st',
      ProgramOptimized.main 32 env_all_ok 87 (line "86")
        (busy_world (repeat 50000000 86))
      = Ok (0, Some (results, summary)) st' /\
      sumZ (map iterationCount results) = 4300000000 /\
      2 ^ 32 <= sumZ (map iterationCount results) /\
      totalIterations summary = 5032704 /\
      totalIterations summary = sumZ (map iterationCount results) mod 2 ^ 32).
Proof.
  split.
  - eexists. eexists. eexists. split; [vm_compute; reflexivity |].
    repeat (split; [reflexivity |]).
    eapply (counts_wrap_modulo_width 64 env_all_ok 3 (line "2")
              (fresh_world two_cycle_wall two_cycle_mono));
      [lia | left; vm_compute; reflexivity].
  - destruct overflow_run
      as (results & summary & st' & Hrun & Hidx & Hcounts & Htotal & _).
    exists results, summary, st'. split; [exact Hrun |].
    split; [rewrite Hcounts; reflexivity |].
    split; [rewrite Hcounts; discriminate |]. split; [exact Htotal |].
    apply (counts_wrap_modulo_width 32 env_all_ok 87 (line "86")
             (busy_world (repeat 50000000 86)) st' 0 results summary);
      [lia | right; exact Hrun].
Defined.

(** * Further properties of the code *)

(** ** The check of the directories *)

Lemma main_exit_status (w : Z) (env : Env) measure (fuel : nat) (input : string)
      (st : World) :
  exit_status env st (Runner.main w env measure fuel input st).
Proof.
  unfold exit_status, missing_dirs.
  destruct (Runner.main w env measure fuel input st) as [[code report] st'| |] eqn:H;
    unfold Runner.main in H;
    destruct (detail_dir_ok env), (log_dir_ok env); cbn in H |- *;
    try reflexivity; try discriminate H;
    try (inversion H; subst; auto; fail).
  repeat bind_inv H. unfold ret in H. inversion H; subst. split; [reflexivity | discriminate].
Qed.

(** ** The largest cycle count *)

Lemma read_cycles_minus_one (w : Z) :
  1 <= w -> read_cycles w (line "-1") = (2 ^ w - 1, false).
Proof.
  intros Hw.
  assert (Hp : 2 <= 2 ^ w).
  { change 2 with (2 ^ 1) at 1. apply Z.pow_le_mono_r; lia. }
  unfold read_cycles, extract_unsigned. cbn.
  replace (2 ^ w - 1 <? 1) with false by (symmetry; apply Z.ltb_ge; lia).
  cbn.
  assert (E : wrap w (-1) = 2 ^ w - 1).
  { unfold wrap. symmetry. apply (Z.mod_unique (-1) (2 ^ w) (-1)); lia. }
  rewrite E.
  replace (2 ^ w - 1 <? 1) with false by (symmetry; apply Z.ltb_ge; lia).
  reflexivity.
Qed.

Lemma main_max_unfinished (w : Z) (env : Env) measure (fuel : nat) (input : string)
      (st : World) :
  1 <= w ->
  fst (read_cycles w input) = 2 ^ w - 1 ->
  unfinished (Runner.main w env measure fuel input st).
Proof.
  intros Hw Hmax. unfold unfinished.
  destruct (Runner.main w env measure fuel input st) as [[code [report|]] st'| |] eqn:H;
    try exact I.
  apply main_report in H.
  destruct H as (st1 & st2 & total & start & stop & Hloop & _).
  rewrite Hmax in Hloop.
  eapply (cycle_loop_max_never_exits w env measure ltac:(lia)); [| exact Hloop].
  assert (Hp : 2 ^ 1 <= 2 ^ w) by (apply Z.pow_le_mono_r; lia).
  change (2 ^ 1) with 2 in Hp. lia.
Qed.

(** X2: the input "-1" is read as the cycle count [2 ^ w - 1], the largest
    value of [n_type], without a warning; the condition [cycle <= cycles] of
    the loop over the cycles is then true for every value of [cycle], which
    wraps to 0 after the last one, so that neither program ever reaches the
    final summary. *)
Theorem minus_one_never_completes (w : Z) (env : Env) (fuel : nat) (st : World) :
  32 <= w ->
  read_cycles w (line "-1") = (2 ^ w - 1, false) /\
  unfinished (Program.main w env fuel (line "-1") st) /\
  unfinished (ProgramOptimized.main w env fuel (line "-1") st).
Proof.
  intros Hw.
  pose proof (read_cycles_minus_one w ltac:(lia)) as Hr.
  split; [exact Hr |].
  split; apply main_max_unfinished; try lia; rewrite Hr; reflexivity.
Qed.

Lemma minus_one_never_completes_witness :
  read_cycles 64 (line "-1") = (2 ^ 64 - 1, false) /\
  unfinished (Program.main 64 env_all_ok 5 (line "-1") one_cycle_world) /\
  unfinished (ProgramOptimized.main 64 env_all_ok 5 (line "-1") one_cycle_world).
Proof. apply (minus_one_never_completes 64 env_all_ok 5 one_cycle_world). lia. Defined.

(** ** The elapsed time when the wall clock was set back *)

Lemma quot_rem_nonpos (a b : Z) :
  a <= 0 -> 0 < b ->
  a = b * (a ÷ b) + Z.rem a b /\ - b < Z.rem a b <= 0 /\ a ÷ b <= 0.
Proof.
  intros Ha Hb.
  pose proof (Z.quot_rem' a b) as E.
  pose proof (Z.rem_bound_pos_neg a b Hb Ha) as R.
  pose proof (Z.mul_quot_ge a b Ha ltac:(lia)) as Q.
  repeat split; lia.
Qed.

(** X3: the breakdown of a negative number of elapsed milliseconds (the wall
    clock was set back between the two samples around the cycle loop):
    [/] and [%] truncate towards zero, so no field is positive, hours stay
    above -24, minutes and seconds above -60, milliseconds above -1000, and
    the fields still add up to the elapsed milliseconds. *)
Theorem elapsed_breakdown_clock_set_back (totalMs : Z) :
  totalMs <= 0 ->
  let b := elapsed_breakdown totalMs in
  b_days b <= 0 /\ -24 < b_hours b <= 0 /\ -60 < b_minutes b <= 0 /\
  -60 < b_seconds b <= 0 /\ -1000 < b_ms b <= 0 /\
  breakdown_ms b = totalMs.
Proof.
  intros H b. subst b. unfold elapsed_breakdown, breakdown_ms.
  cbn [b_days b_hours b_minutes b_seconds b_ms].
  change (1000 * 60 * 60 * 24) with 86400000.
  change (1000 * 60 * 60) with 3600000.
  change (1000 * 60) with 60000.
  destruct (quot_rem_nonpos totalMs 86400000 H ltac:(lia)) as (E1 & R1 & Q1).
  set (r1 := Z.rem totalMs 86400000) in *.
  destruct (quot_rem_nonpos r1 3600000 ltac:(lia) ltac:(lia)) as (E2 & R2 & Q2).
  set (r2 := Z.rem r1 3600000) in *.
  destruct (quot_rem_nonpos r2 60000 ltac:(lia) ltac:(lia)) as (E3 & R3 & Q3).
  set (r3 := Z.rem r2 60000) in *.
  destruct (quot_rem_nonpos r3 1000 ltac:(lia) ltac:(lia)) as (E4 & R4 & Q4).
  repeat split; lia.
Qed.

Lemma elapsed_breakdown_clock_set_back_witness :
  elapsed_breakdown (-90061001) = mkBreakdown (-1) (-1) (-1) (-1) (-1) /\
  (let b := elapsed_breakdown (-90061001) in
   b_days b <= 0 /\ -24 < b_hours b <= 0 /\ -60 < b_minutes b <= 0 /\
   -60 < b_seconds b <= 0 /\ -1000 < b_ms b <= 0 /\
   breakdown_ms b = -90061001).
Proof.
  split; [reflexivity |].
  apply (elapsed_breakdown_clock_set_back (-90061001)). lia.
Defined.

(** ** A run, step by step *)

Section RunSteps.

Variable w : Z.
Variable env : Env.
Variable measure :
  Z -> Z -> list Z -> list Z -> option (Measurement * list Z * list Z).

(** A run that reports: the samples it read outside the cycles, the world in
    which the cycle loop started and the world the run leaves. *)
Lemma main_inv (fuel : nat) (input : string) (st st' : World) (code : Z)
      (results : list CycleResult) (summary : RunSummary) :
  Runner.main w env measure fuel input st = Ok (code, Some (results, summary)) st' ->
  let cycles := fst (read_cycles w input) in
  exists now start wall1 st2 stop wall2,
    wall st = now :: start :: wall1 /\
    Runner.cycle_loop w env measure fuel cycles 1 0 []
      (mkWorld wall1 (mono st) (S (opens st))
               (out st ++ banner_lines cycles)
               (err st ++ (if snd (read_cycles w input) then [InvalidInput] else []))
               (sleeps st)
               (itlog st ++ (if open_ok env (opens st) IterationLog
                             then [Fill "*" 33;
                                   CyclesHeader cycles (dateTimeToString now);
                                   Fill "*" 28]
                             else []))
               (details st))
    = Ok (totalIterations summary, results) st2 /\
    wall st2 = stop :: wall2 /\
    summary = mkRunSummary (totalIterations summary) cycles
                           (dateTimeToString start) (dateTimeToString stop)
                           (average (totalIterations summary) cycles)
                           (elapsed_breakdown (elapsed_ms start stop)) /\
    st' = mkWorld wall2 (mono st2) (S (opens st2))
                  (out st2 ++ summary_lines summary)
                  (err st2) (sleeps st2)
                  (itlog st2 ++ (if open_ok env (opens st2) IterationLog
                                 then summary_block summary else []))
                  (details st2).
Proof.
  intros H. cbv zeta. set (cycles := fst (read_cycles w input)).
  unfold Runner.main in H.
  destruct (negb (detail_dir_ok env) || negb (log_dir_ok env)).
  { repeat bind_inv H. discriminate H. }
  unfold Runner.log_header, Runner.append_log, Runner.open_file, Runner.log_lines,
    bind, print, eprint, system_now, ret in H.
  fold cycles in H.
  destruct (snd (read_cycles w input)); cbn in H;
    (destruct (wall st) as [|now [|start wall1]] eqn:Hwall; cbn in H; try discriminate H;
     match type of H with
     | match Runner.cycle_loop ?a ?b ?c ?d ?e ?f ?g ?h ?s with _ => _ end = _ =>
         destruct (Runner.cycle_loop a b c d e f g h s) as [[total rs] st2| |] eqn:Hloop;
         cbn in H; try discriminate H
     end;
     destruct (wall st2) as [|stop wall2] eqn:Hwall2; cbn in H; try discriminate H;
     inversion H; subst; clear H;
     exists now, start, wall1, st2, stop, wall2;
     cbn [totalIterations];
     unfold set_wall in Hloop; cbn [wall mono opens out err sleeps itlog details] in Hloop;
     (split; [reflexivity |]);
     (split; [unfold banner_lines; rewrite ?app_nil_r, ?app_assoc; exact Hloop |]);
     repeat split; try first [assumption | reflexivity];
     rewrite <- app_assoc; reflexivity).
Qed.

(** *** Files opened *)

Lemma cycle_loop_opens (fuel : nat) :
  forall (cycles cycle sum : Z) (results : list CycleResult) (st st' : World)
         (sum' : Z) (results' : list CycleResult),
    Runner.cycle_loop w env measure fuel cycles cycle sum results st
    = Ok (sum', results') st' ->
    exists new,
      results' = results ++ new /\
      opens st' = (opens st + 2 * List.length new)%nat.
Proof.
  induction fuel as [|fuel IH];
    intros cycles cycle sum results st st' sum' results' H; [discriminate |].
  cbn [Runner.cycle_loop] in H. destruct (cycle <=? cycles).
  - bind_inv H. destruct a as [r sum1]. cbn [fst snd] in H.
    apply run_cycle_inv in H0.
    destruct H0 as (stamp & wall1 & m & endTp & wall3 & mono2 & _ & _ & _ & _ & Hst).
    cbv zeta in Hst. apply IH in H. destruct H as (new & Hres & Hopens).
    exists (r :: new). rewrite Hres, Hopens, Hst, <- app_assoc.
    cbn [opens List.length app]. split; [reflexivity | lia].
  - inversion H; subst. exists []. cbn [List.length]. rewrite app_nil_r. split; [reflexivity | lia].
Qed.

Lemma main_opens (fuel : nat) (input : string) (st st' : World) (code : Z)
      (results : list CycleResult) (summary : RunSummary) :
  Runner.main w env measure fuel input st = Ok (code, Some (results, summary)) st' ->
  opens st' = (opens st + 2 * List.length results + 2)%nat.
Proof.
  intros H. apply main_inv in H. cbv zeta in H.
  destruct H as (now & start & wall1 & st2 & stop & wall2 & _ & Hloop & _ & _ & Hst).
  apply cycle_loop_opens in Hloop. destruct Hloop as (new & Hnew & Hopens).
  cbn [app] in Hnew. subst new. cbn [opens] in Hopens.
  rewrite Hst. cbn [opens]. lia.
Qed.

(** *** Sleeps *)

Section Sleeps.

Variable P : Z -> Prop.
Hypothesis measure_sleeps :
  forall cycles cycle wl ml m wl' ml',
    measure cycles cycle wl ml = Some (m, wl', ml') -> Forall P (a_sleeps (m_acc m)).

Lemma cycle_loop_sleeps (fuel : nat) :
  forall (cycles cycle sum : Z) (results : list CycleResult) (st st' : World)
         (res : Z * list CycleResult),
    Runner.cycle_loop w env measure fuel cycles cycle sum results st = Ok res st' ->
    exists ss, sleeps st' = sleeps st ++ ss /\ Forall P ss.
Proof.
  induction fuel as [|fuel IH];
    intros cycles cycle sum results st st' res H; [discriminate |].
  cbn [Runner.cycle_loop] in H. destruct (cycle <=? cycles).
  - bind_inv H. destruct a as [r sum1]. cbn [fst snd] in H.
    apply run_cycle_inv in H0.
    destruct H0 as (stamp & wall1 & m & endTp & wall3 & mono2 & _ & Hm & _ & _ & Hst).
    cbv zeta in Hst. apply IH in H. destruct H as (ss & Hss & HP).
    apply measure_sleeps in Hm.
    exists (a_sleeps (m_acc m) ++ ss). rewrite Hss, Hst. cbn [sleeps].
    rewrite <- app_assoc. split; [reflexivity |].
    apply Forall_app. split; assumption.
  - inversion H; subst. exists []. rewrite app_nil_r. split; [reflexivity | constructor].
Qed.

Lemma main_sleeps (fuel : nat) (input : string) (st st' : World) (code : Z)
      (report : list CycleResult * RunSummary) :
  Runner.main w env measure fuel input st = Ok (code, Some report) st' ->
  exists ss, sleeps st' = sleeps st ++ ss /\ Forall P ss.
Proof.
  intros H. destruct report as [results summary].
  apply main_inv in H. cbv zeta in H.
  destruct H as (now & start & wall1 & st2 & stop & wall2 & _ & Hloop & _ & _ & Hst).
  apply cycle_loop_sleeps in Hloop. destruct Hloop as (ss & Hss & HP).
  exists ss. rewrite Hst. cbn [sleeps] in *. split; assumption.
Qed.

End Sleeps.

(** *** The detail files of a run and the samples of the wall clock, cycle by
        cycle, when the files all open *)

Section Segments.

Hypothesis details_open : forall n p, open_ok env n (Detail p) = true.
Hypothesis measure_samples :
  forall cycles cycle wl ml m wl' ml',
    measure cycles cycle wl ml = Some (m, wl', ml') ->
    exists mid1 startTp mid2,
      wl = mid1 ++ startTp :: mid2 ++ wl' /\
      m_startStr m = dateTimeToString startTp.

Lemma cycle_loop_segments (fuel : nat) :
  forall (cycles cycle sum : Z) (results : list CycleResult) (st st' : World)
         (sum' : Z) (results' : list CycleResult),
    Runner.cycle_loop w env measure fuel cycles cycle sum results st
    = Ok (sum', results') st' ->
    exists new stamps segments,
      results' = results ++ new /\
      List.length stamps = List.length new /\
      wall st = List.concat segments ++ wall st' /\
      Forall2 cycle_samples segments (combine stamps new) /\
      details st' = details st ++ detail_files cycles stamps new.
Proof.
  induction fuel as [|fuel IH];
    intros cycles cycle sum results st st' sum' results' H; [discriminate |].
  cbn [Runner.cycle_loop] in H. destruct (cycle <=? cycles).
  - bind_inv H. destruct a as [r sum1]. cbn [fst snd] in H.
    apply run_cycle_inv in H0.
    destruct H0 as (stamp & wall1 & m & endTp & wall3 & mono2 & Hwall & Hm & Hr & _ & Hst).
    cbv zeta in Hst. apply IH in H.
    destruct H as (new & stamps & segments & Hres & Hlen & Hsegs & Hall & Hd).
    apply measure_samples in Hm.
    destruct Hm as (mid1 & startTp & mid2 & Hwall1 & Hstart).
    exists (r :: new), (getFileTimestamp stamp :: stamps),
      ((stamp :: mid1 ++ startTp :: mid2 ++ [endTp]) :: segments).
    split; [rewrite Hres, <- app_assoc; reflexivity |].
    split; [cbn [List.length]; lia |].
    split.
    { rewrite Hwall, Hwall1. rewrite Hst in Hsegs. cbn [wall] in Hsegs.
      rewrite Hsegs. cbn [List.concat app].
      rewrite <- !app_assoc. cbn [app]. rewrite <- !app_assoc. reflexivity. }
    split.
    { cbn [combine]. constructor; [| exact Hall].
      exists stamp, mid1, startTp, mid2, endTp. cbn [fst snd].
      rewrite Hr. cbn [startTimestamp endTimestamp]. auto. }
    rewrite Hd, Hst. cbn [details]. rewrite details_open, <- app_assoc.
    unfold detail_files. cbn [combine map fst snd app].
    replace (cycleIndex r) with cycle by (subst r; reflexivity).
    reflexivity.
  - inversion H; subst. exists [], [], []. cbn. rewrite !app_nil_r. auto.
Qed.

Lemma main_segments (fuel : nat) (input : string) (st st' : World) (code : Z)
      (results : list CycleResult) (summary : RunSummary) :
  Runner.main w env measure fuel input st = Ok (code, Some (results, summary)) st' ->
  exists now start stamps segments stop,
    wall st = now :: start :: List.concat segments ++ stop :: wall st' /\
    runStart summary = dateTimeToString start /\
    runEnd summary = dateTimeToString stop /\
    List.length stamps = List.length results /\
    Forall2 cycle_samples segments (combine stamps results) /\
    details st' = details st ++ detail_files (cycleCount summary) stamps results.
Proof.
  intros H. apply main_inv in H. cbv zeta in H.
  destruct H as (now & start & wall1 & st2 & stop & wall2 & Hwall & Hloop & Hwall2 & Hsum
                 & Hst).
  apply cycle_loop_segments in Hloop.
  destruct Hloop as (new & stamps & segments & Hnew & Hlen & Hsegs & Hall & Hd).
  cbn [app] in Hnew. subst new. cbn [details wall] in Hd, Hsegs.
  exists now, start, stamps, segments, stop.
  rewrite Hwall, Hsegs, Hwall2, Hst. cbn [details wall]. rewrite Hd, Hsum.
  cbn [runStart runEnd cycleCount]. repeat split; auto.
Qed.

End Segments.

End RunSteps.

(** ** The alignment pause, sample by sample *)

Lemma getCurrentSecond_range (now : Z) : 0 <= getCurrentSecond now < 60.
Proof. unfold getCurrentSecond, tm_sec. apply Z.mod_pos_bound. lia. Qed.

Lemma program_measure_inv (w cycles cycle : Z) (wall mono wall' mono' : list Z)
      (m : Measurement) :
  Program.measure w cycles cycle wall mono = Some (m, wall', mono') ->
  exists t0 wall0 acc1 nowTp startTp t wall2,
    wall = t0 :: wall0 /\
    Program.pause_loop w wall0 (wrap w (getCurrentSecond t0 * 100)) acc0
    = Some (acc1, nowTp :: startTp :: t :: wall2) /\
    Program.counting_loop w cycles cycle (getCurrentSecond t) wall2 0 0
      (say (ReadyToGo (dateTimeToString nowTp)) acc1)
    = Some (m_iterations m, m_acc m, wall') /\
    m_startStr m = dateTimeToString startTp /\
    mono' = mono.
Proof.
  intros H. unfold Program.measure in H.
  destruct wall as [|t0 wall0]; [discriminate |].
  destruct (Program.pause_loop w wall0 (wrap w (getCurrentSecond t0 * 100)) acc0)
    as [[acc1 wall1]|] eqn:Hp; [| discriminate].
  destruct wall1 as [|nowTp [|startTp [|t wall2]]]; try discriminate.
  rewrite Z.eqb_refl in H.
  destruct (Program.counting_loop w cycles cycle (getCurrentSecond t) wall2 0 0
              (say (ReadyToGo (dateTimeToString nowTp)) acc1))
    as [[[its acc2] wall3]|] eqn:Hc; [| discriminate].
  inversion H; subst. clear H.
  exists t0, wall0, acc1, nowTp, startTp, t, wall2. cbn. auto.
Qed.

(** The pause of [program.cxx] reads its samples in pairs: the sample that
    the loop tests and, after the sleep, the sample that sets the next
    duration.  It sleeps once for each tested sample that is a multiple of
    8, each time for the duration set by the sample read just before. *)
Lemma program_pause_loop_samples (w : Z) (wall : list Z) :
  32 <= w ->
  forall (pauseMs : Z) (acc acc' : Acc) (wall' : list Z),
    Program.pause_loop w wall pauseMs acc = Some (acc', wall') ->
    exists pairs x,
      wall = flat_pairs pairs ++ x :: wall' /\
      Forall (fun p => getCurrentSecond (fst p) mod 8 = 0) pairs /\
      getCurrentSecond x mod 8 <> 0 /\
      a_sleeps acc' =
      a_sleeps acc
      ++ firstn (List.length pairs)
                (pauseMs :: map (fun p => getCurrentSecond (snd p) * 100) pairs).
Proof.
  intros Hw. pose proof (pow2_32_le w Hw) as Hp.
  induction wall as [wall IH] using (induction_ltof1 _ (@List.length Z)).
  unfold ltof in IH.
  intros pauseMs acc acc' wall' H.
  destruct wall as [|t wall1]; [discriminate |].
  cbn [Program.pause_loop] in H.
  destruct (getCurrentSecond t mod 8 =? 0) eqn:Hs; cbn [negb] in H.
  - apply Z.eqb_eq in Hs.
    destruct wall1 as [|t' wall2]; [discriminate |].
    apply IH in H; [| cbn; lia].
    destruct H as (pairs & x & Hwall & Hall & Hx & Hsl).
    exists ((t, t') :: pairs), x.
    rewrite Hwall, Hsl. cbn [pause a_sleeps List.length firstn map fst snd].
    rewrite <- app_assoc. cbn [app].
    rewrite wrap_small by (pose proof (getCurrentSecond_range t'); lia).
    repeat split; auto.
  - apply Z.eqb_neq in Hs. inversion H; subst.
    exists [], t. cbn. rewrite app_nil_r. auto.
Qed.

Lemma program_measure_sleeps (w cycles cycle : Z) (wall mono wall' mono' : list Z)
      (m : Measurement) :
  32 <= w ->
  Program.measure w cycles cycle wall mono = Some (m, wall', mono') ->
  exists t0 pairs x rest,
    wall = t0 :: flat_pairs pairs ++ x :: rest /\
    Forall (fun p => getCurrentSecond (fst p) mod 8 = 0) pairs /\
    getCurrentSecond x mod 8 <> 0 /\
    a_sleeps (m_acc m) =
    firstn (List.length pairs)
           (map (fun t => getCurrentSecond t * 100) (t0 :: map snd pairs)).
Proof.
  intros Hw H. pose proof (pow2_32_le w Hw) as Hp.
  apply program_measure_inv in H.
  destruct H as (t0 & wall0 & acc1 & nowTp & startTp & t & wall2
                 & Hwall & Hpause & Hloop & _).
  apply program_pause_loop_samples in Hpause; [| exact Hw].
  destruct Hpause as (pairs & x & Hsplit & Hall & Hx & Hsl).
  apply program_counting_loop_counted in Hloop. destruct Hloop as ((_ & _ & Hs) & _).
  exists t0, pairs, x, (nowTp :: startTp :: t :: wall2).
  rewrite Hwall, Hsplit, Hs. cbn [say a_sleeps]. rewrite Hsl. cbn [acc0 a_sleeps app].
  rewrite wrap_small by (pose proof (getCurrentSecond_range t0); lia).
  cbn [map]. rewrite map_map. auto.
Qed.

(** X4: the alignment pause of [program.cxx], sample by sample.  After the
    sample of line 150 the clock is read in pairs: the sample that the loop
    tests and, after the sleep, the sample of line 163.  The pause sleeps
    once for each tested sample whose second is a multiple of 8 and ends at
    the first tested sample that is not; the k-th sleep lasts 100 ms times
    the second of the sample read just before the k-th tested one (the
    sample of line 150, then those of line 163), not of the tested sample. *)
Theorem program_pause_durations (w cycles cycle : Z) (wall mono wall' mono' : list Z)
        (m : Measurement) :
  32 <= w ->
  Program.measure w cycles cycle wall mono = Some (m, wall', mono') ->
  exists t0 pairs x rest,
    wall = t0 :: flat_pairs pairs ++ x :: rest /\
    Forall (fun p => getCurrentSecond (fst p) mod 8 = 0) pairs /\
    getCurrentSecond x mod 8 <> 0 /\
    a_sleeps (m_acc m) =
    firstn (List.length pairs)
           (map (fun t => getCurrentSecond t * 100) (t0 :: map snd pairs)).
Proof. apply program_measure_sleeps. Qed.

Lemma program_pause_durations_witness :
  exists m wall' mono',
    Program.measure 64 1 1
      [sec 7; sec 8; sec 15; sec 16; sec 16; sec 17; sec 17; sec 17; sec 17; sec 18;
       sec 18] []
    = Some (m, wall', mono') /\
    a_sleeps (m_acc m) = [700; 1500] /\
    exists t0 pairs x rest,
      [sec 7; sec 8; sec 15; sec 16; sec 16; sec 17; sec 17; sec 17; sec 17; sec 18;
       sec 18]
      = t0 :: flat_pairs pairs ++ x :: rest /\
      Forall (fun p => getCurrentSecond (fst p) mod 8 = 0) pairs /\
      getCurrentSecond x mod 8 <> 0 /\
      a_sleeps (m_acc m) =
      firstn (List.length pairs)
             (map (fun t => getCurrentSecond t * 100) (t0 :: map snd pairs)).
Proof.
  eexists. eexists. eexists.
  split; [vm_compute; reflexivity |]. split; [reflexivity |].
  eapply (program_pause_durations 64 1 1 _ []); [lia | vm_compute; reflexivity].
Defined.

(** ** How long a run sleeps at a time *)

Lemma Forall_firstn_of {A} (P : A -> Prop) (n : nat) (l : list A) :
  Forall P l -> Forall P (firstn n l).
Proof.
  intros H. revert n. induction H as [|x l Hx Hl IH]; intros [|n]; cbn; constructor; auto.
Qed.

Lemma program_measure_sleep_bound (w cycles cycle : Z) (wall mono wall' mono' : list Z)
      (m : Measurement) :
  32 <= w ->
  Program.measure w cycles cycle wall mono = Some (m, wall', mono') ->
  Forall (fun ms => exists s, 0 <= s <= 59 /\ ms = 100 * s) (a_sleeps (m_acc m)).
Proof.
  intros Hw H. apply program_measure_sleeps in H; [| exact Hw].
  destruct H as (t0 & pairs & x & rest & _ & _ & _ & ->).
  apply Forall_firstn_of, Forall_map, Forall_forall. intros t _.
  exists (getCurrentSecond t). pose proof (getCurrentSecond_range t). lia.
Qed.

Lemma optimized_measure_sleep_bound (w cycles cycle : Z)
      (wall mono wall' mono' : list Z) (m : Measurement) :
  32 <= w ->
  ProgramOptimized.measure w cycles cycle wall mono = Some (m, wall', mono') ->
  Forall (fun ms => exists k, 0 <= k <= 7 /\ ms = 800 * k) (a_sleeps (m_acc m)).
Proof.
  intros Hw H. apply optimized_pause_uses_checked_sample in H; [| exact Hw].
  destruct H as (checked & x & rest & _ & Hall & _ & ->).
  apply Forall_map. eapply Forall_impl; [| exact Hall].
  intros t Ht. cbv beta in Ht. exists (second_of t / 8).
  pose proof (second_of_range t) as Hr.
  pose proof (Z.div_mod (second_of t) 8 ltac:(lia)) as Hd.
  rewrite Ht in Hd.
  assert (0 <= second_of t / 8 <= 7)
    by (split; [apply Z.div_pos; lia | apply Z.lt_succ_r, Z.div_lt_upper_bound; lia]).
  lia.
Qed.

(** X5: [program.cxx] never sleeps for more than 5.9 seconds at a time: every
    sleep of a run that reports lasts 100 ms times a second of the minute
    (0 to 59), the sleeps being those of the alignment pauses. *)
Theorem program_sleeps_bounded (w : Z) (env : Env) (fuel : nat) (input : string)
        (st st' : World) (code : Z) (report : list CycleResult * RunSummary) :
  32 <= w ->
  Program.main w env fuel input st = Ok (code, Some report) st' ->
  exists ss,
    sleeps st' = sleeps st ++ ss /\
    Forall (fun ms => exists s, 0 <= s <= 59 /\ ms = 100 * s) ss.
Proof.
  intros Hw H. eapply main_sleeps; [| exact H].
  intros cycles cycle wl ml m wl' ml' Hm.
  eapply program_measure_sleep_bound; eauto.
Qed.

Lemma program_sleeps_bounded_witness :
  exists report st' ss,
    Program.main 64 env_all_ok 2 (line "1") one_cycle_world = Ok (0, Some report) st' /\
    sleeps st' = [700] /\
    sleeps st' = sleeps one_cycle_world ++ ss /\
    Forall (fun ms => exists s, 0 <= s <= 59 /\ ms = 100 * s) ss.
Proof.
  pose proof (program_sleeps_bounded 64 env_all_ok 2 (line "1") one_cycle_world) as H.
  destruct (Program.main 64 env_all_ok 2 (line "1") one_cycle_world)
    as [[code [report|]] st'| |] eqn:E; try (vm_compute in E; discriminate E).
  destruct (H st' code report ltac:(lia) eq_refl) as (ss & Hss & HP).
  exists report, st', ss.
  assert (Hc : code = 0) by (vm_compute in E; inversion E; reflexivity).
  subst code. split; [reflexivity |].
  split; [vm_compute in E; inversion E; reflexivity |].
  split; assumption.
Defined.

(** X6: [program_optimized.cxx] sleeps only at a second of the minute that is
    a multiple of 8, for 100 ms times that second: every sleep of a run that
    reports lasts a multiple of 800 ms, 5.6 seconds at most (and 0 ms at
    second 0, where the pause merely polls the clock). *)
Theorem optimized_sleeps_bounded (w : Z) (env : Env) (fuel : nat) (input : string)
        (st st' : World) (code : Z) (report : list CycleResult * RunSummary) :
  32 <= w ->
  ProgramOptimized.main w env fuel input st = Ok (code, Some report) st' ->
  exists ss,
    sleeps st' = sleeps st ++ ss /\
    Forall (fun ms => exists k, 0 <= k <= 7 /\ ms = 800 * k) ss.
Proof.
  intros Hw H. eapply main_sleeps; [| exact H].
  intros cycles cycle wl ml m wl' ml' Hm.
  eapply optimized_measure_sleep_bound; eauto.
Qed.

Lemma optimized_sleeps_bounded_witness :
  exists report st' ss,
    ProgramOptimized.main 64 env_all_ok 2 (line "1") pausing_world
    = Ok (0, Some report) st' /\
    sleeps st' = [0; 800; 1600] /\
    sleeps st' = sleeps pausing_world ++ ss /\
    Forall (fun ms => exists k, 0 <= k <= 7 /\ ms = 800 * k) ss.
Proof.
  pose proof (optimized_sleeps_bounded 64 env_all_ok 2 (line "1") pausing_world) as H.
  destruct (ProgramOptimized.main 64 env_all_ok 2 (line "1") pausing_world)
    as [[code [report|]] st'| |] eqn:E; try (vm_compute in E; discriminate E).
  destruct (H st' code report ltac:(lia) eq_refl) as (ss & Hss & HP).
  exists report, st', ss.
  assert (Hc : code = 0) by (vm_compute in E; inversion E; reflexivity).
  subst code. split; [reflexivity |].
  split; [vm_compute in E; inversion E; reflexivity |].
  split; assumption.
Defined.

(** ** The files of a run *)

Lemma Zrange_length (a : Z) (n : nat) : List.length (Zrange a n) = n.
Proof. revert a. induction n as [|n IH]; intros a; cbn; [reflexivity | rewrite IH; reflexivity]. Qed.

Lemma Zrange_lower (n : nat) : forall a x, In x (Zrange a n) -> a <= x.
Proof.
  induction n as [|n IH]; intros a x H; cbn in H; [contradiction |].
  destruct H as [H | H]; [lia |]. apply IH in H. lia.
Qed.

Lemma Zrange_NoDup (n : nat) : forall a, NoDup (Zrange a n).
Proof.
  induction n as [|n IH]; intros a; cbn; constructor; [| apply IH].
  intros H. apply Zrange_lower in H. lia.
Qed.

Lemma detail_files_cycles (cycles : Z) (stamps : list Z) :
  forall results,
    List.length stamps = List.length results ->
    map (fun f => dp_cycle (fst f)) (detail_files cycles stamps results)
    = map cycleIndex results.
Proof.
  unfold detail_files.
  induction stamps as [|s stamps IH]; intros [|r results] H; cbn in H |- *;
    try reflexivity; try discriminate.
  rewrite IH by lia. reflexivity.
Qed.

Lemma main_cycle_count (w : Z) (env : Env) (fuel : nat) (input : string)
      (st st' : World) (code : Z) (results : list CycleResult) (summary : RunSummary) :
  32 <= w ->
  Program.main w env fuel input st = Ok (code, Some (results, summary)) st' \/
  ProgramOptimized.main w env fuel input st = Ok (code, Some (results, summary)) st' ->
  map cycleIndex results = Zrange 1 (Z.to_nat (cycleCount summary)) /\
  List.length results = Z.to_nat (cycleCount summary).
Proof.
  intros Hw H.
  assert (Hidx : map cycleIndex results = Zrange 1 (Z.to_nat (cycleCount summary))).
  { destruct H as [H | H].
    - apply (main_totals w env (Program.measure w) Hw) in H.
      + destruct H as (_ & -> & _ & Hidx & _). exact Hidx.
      + intros; eapply program_measure_measured; [lia | eassumption].
    - apply (main_totals w env (ProgramOptimized.measure w) Hw) in H.
      + destruct H as (_ & -> & _ & Hidx & _). exact Hidx.
      + intros; eapply optimized_measure_measured; [lia | eassumption]. }
  split; [exact Hidx |].
  rewrite <- (length_map cycleIndex), Hidx. apply Zrange_length.
Qed.

(** X7: a run of N cycles that reports has constructed exactly 2 N + 2 file
    streams, in either program: the iteration log is opened anew for the
    header, for the block of each cycle and for the summary, and each cycle
    opens its detail file once. *)
Theorem files_opened_by_a_run (w : Z) (env : Env) (fuel : nat) (input : string)
        (st st' : World) (code : Z) (results : list CycleResult)
        (summary : RunSummary) :
  32 <= w ->
  Program.main w env fuel input st = Ok (code, Some (results, summary)) st' \/
  ProgramOptimized.main w env fuel input st = Ok (code, Some (results, summary)) st' ->
  opens st' = (opens st + 2 * Z.to_nat (cycleCount summary) + 2)%nat.
Proof.
  intros Hw H.
  destruct (main_cycle_count w env fuel input st st' code results summary Hw H)
    as [_ Hlen].
  rewrite <- Hlen.
  destruct H as [H | H]; eapply main_opens; exact H.
Qed.

Lemma files_opened_by_a_run_witness :
  exists results summary st',
    Program.main 64 env_all_ok 3 (line "2") (fresh_world two_cycle_wall two_cycle_mono)
    = Ok (0, Some (results, summary)) st' /\
    cycleCount summary = 2 /\
    opens st' = 6%nat /\
    opens st'
    = (opens (fresh_world two_cycle_wall two_cycle_mono)
       + 2 * Z.to_nat (cycleCount summary) + 2)%nat.
Proof.
  eexists. eexists. eexists. split; [vm_compute; reflexivity |].
  split; [reflexivity |]. split; [reflexivity |].
  eapply (files_opened_by_a_run 64 env_all_ok 3 (line "2")
            (fresh_world two_cycle_wall two_cycle_mono));
    [lia | left; vm_compute; reflexivity].
Defined.

(** The measuring part of either program reads a stretch of the wall-clock
    script, and takes the start time of the cycle from one of its samples. *)
Lemma program_measure_samples (w cycles cycle : Z) (wall mono wall' mono' : list Z)
      (m : Measurement) :
  32 <= w ->
  Program.measure w cycles cycle wall mono = Some (m, wall', mono') ->
  exists mid1 startTp mid2,
    wall = mid1 ++ startTp :: mid2 ++ wall' /\
    m_startStr m = dateTimeToString startTp.
Proof.
  intros Hw H. apply program_measure_inv in H.
  destruct H as (t0 & wall0 & acc1 & nowTp & startTp & t & wall2
                 & Hwall & Hpause & Hloop & Hstart & _).
  apply (program_pause_loop_samples w wall0 Hw) in Hpause.
  destruct Hpause as (pairs & x & Hwall0 & _).
  apply program_counting_loop_polls in Hloop.
  destruct Hloop as (consumed & x' & progress & n & Hwall2 & _).
  exists (t0 :: flat_pairs pairs ++ [x; nowTp]), startTp, (t :: consumed ++ [x']).
  split; [| exact Hstart].
  rewrite Hwall, Hwall0, Hwall2. cbn [app]. rewrite <- !app_assoc. reflexivity.
Qed.

Lemma optimized_counting_loop_prefix (w cycles cycle endTp : Z) (mono : list Z) :
  forall (wall : list Z) (i iterations : Z) (acc acc' : Acc) (its : Z)
         (wall' mono' : list Z),
    ProgramOptimized.counting_loop w cycles cycle endTp mono wall i iterations acc
    = Some (its, acc', wall', mono') ->
    exists stamps, wall = stamps ++ wall'.
Proof.
  induction mono as [|now mono IH]; intros wall i iterations acc acc' its wall' mono' H;
    [discriminate |].
  cbn [ProgramOptimized.counting_loop] in H.
  destruct (now <? endTp).
  - destruct (wrap w (i + 1) mod 100000 =? 0).
    + destruct wall as [|progressTp wall1]; [discriminate |].
      apply IH in H. destruct H as (stamps & ->).
      exists (progressTp :: stamps). reflexivity.
    + apply IH in H. exact H.
  - inversion H; subst. exists []. reflexivity.
Qed.

Lemma optimized_measure_samples (w cycles cycle : Z) (wall mono wall' mono' : list Z)
      (m : Measurement) :
  32 <= w ->
  ProgramOptimized.measure w cycles cycle wall mono = Some (m, wall', mono') ->
  exists mid1 startTp mid2,
    wall = mid1 ++ startTp :: mid2 ++ wall' /\
    m_startStr m = dateTimeToString startTp.
Proof.
  intros Hw H. apply optimized_measure_inv in H.
  destruct H as (t0 & wall0 & acc1 & nowTp & t & wall2 & startTp & mono1
                 & Hwall & Hpause & _ & Hloop & Hstart).
  apply (optimized_pause_loop_samples w wall0 Hw) in Hpause.
  destruct Hpause as (pre & x & Hsplit & _).
  apply optimized_counting_loop_prefix in Hloop. destruct Hloop as (stamps & Hwall2).
  exists (pre ++ [x; nowTp]), t, stamps.
  split; [| exact Hstart].
  rewrite Hwall, Hsplit, Hwall2. rewrite <- !app_assoc. reflexivity.
Qed.

(** X8: when every detail file opens, a run that reports has written one
    detail file for each cycle, in the order of the cycles.  The samples of
    the wall clock that the run read after the one of its start time and
    before the one of its end time fall into one stretch for each cycle, in
    the order of the cycles: the path of a cycle's file carries the stamp
    taken from the first sample of the cycle's stretch (the first read of
    the clock in the cycle), the cycle count and the cycle's index; the
    start time of the cycle is taken from a later sample of the stretch and
    its end time from the last one.  The contents of the file are the
    cycle's progress log followed by the closing "Iterations ... Start ...
    End" line.  As the cycles of a run have different indexes, no two files
    of the run have the same path. *)
Theorem detail_files_of_a_run (w : Z) (env : Env) (fuel : nat) (input : string)
        (st st' : World) (code : Z) (results : list CycleResult)
        (summary : RunSummary) :
  32 <= w ->
  (forall n p, open_ok env n (Detail p) = true) ->
  Program.main w env fuel input st = Ok (code, Some (results, summary)) st' \/
  ProgramOptimized.main w env fuel input st = Ok (code, Some (results, summary)) st' ->
  exists now start stamps segments stop,
    wall st = now :: start :: List.concat segments ++ stop :: wall st' /\
    runStart summary = dateTimeToString start /\
    runEnd summary = dateTimeToString stop /\
    List.length stamps = List.length results /\
    Forall2 cycle_samples segments (combine stamps results) /\
    details st' = details st ++ detail_files (cycleCount summary) stamps results /\
    NoDup (map fst (detail_files (cycleCount summary) stamps results)).
Proof.
  intros Hw Hopen H.
  destruct (main_cycle_count w env fuel input st st' code results summary Hw H)
    as [Hidx _].
  assert (Hd : exists now start stamps segments stop,
             wall st = now :: start :: List.concat segments ++ stop :: wall st' /\
             runStart summary = dateTimeToString start /\
             runEnd summary = dateTimeToString stop /\
             List.length stamps = List.length results /\
             Forall2 cycle_samples segments (combine stamps results) /\
             details st' = details st ++ detail_files (cycleCount summary) stamps results).
  { destruct H as [H | H].
    - eapply (main_segments w env (Program.measure w) Hopen); [| exact H].
      intros; eapply program_measure_samples; eauto.
    - eapply (main_segments w env (ProgramOptimized.measure w) Hopen); [| exact H].
      intros; eapply optimized_measure_samples; eauto. }
  destruct Hd as (now & start & stamps & segments & stop & Hwall & Hs & He & Hlen & Hall
                  & Hd).
  exists now, start, stamps, segments, stop.
  repeat (split; [assumption |]).
  apply (NoDup_map_inv dp_cycle). rewrite map_map.
  rewrite (detail_files_cycles _ _ _ Hlen), Hidx. apply Zrange_NoDup.
Qed.

Lemma detail_files_of_a_run_witness :
  exists results summary st' now start stamps segments stop,
    ProgramOptimized.main 64 env_all_ok 3 (line "2")
      (fresh_world two_cycle_wall two_cycle_mono)
    = Ok (0, Some (results, summary)) st' /\
    List.length (details st') = 2%nat /\
    wall (fresh_world two_cycle_wall two_cycle_mono)
    = now :: start :: List.concat segments ++ stop :: wall st' /\
    runStart summary = dateTimeToString start /\
    runEnd summary = dateTimeToString stop /\
    List.length stamps = List.length results /\
    Forall2 cycle_samples segments (combine stamps results) /\
    details st'
    = details (fresh_world two_cycle_wall two_cycle_mono)
      ++ detail_files (cycleCount summary) stamps results /\
    NoDup (map fst (detail_files (cycleCount summary) stamps results)).
Proof.
  pose proof (detail_files_of_a_run 64 env_all_ok 3 (line "2")
                (fresh_world two_cycle_wall two_cycle_mono)) as H.
  destruct (ProgramOptimized.main 64 env_all_ok 3 (line "2")
              (fresh_world two_cycle_wall two_cycle_mono))
    as [[code [[results summary]|]] st'| |] eqn:E; try (vm_compute in E; discriminate E).
  destruct (H st' code results summary ltac:(lia) ltac:(intros; reflexivity)
              ltac:(right; reflexivity))
    as (now & start & stamps & segments & stop & Hwall & Hs & He & Hlen & Hall & Hd & Hnd).
  exists results, summary, st', now, start, stamps, segments, stop.
  assert (Hc : code = 0) by (vm_compute in E; inversion E; reflexivity).
  subst code. split; [reflexivity |].
  split; [vm_compute in E; inversion E; reflexivity |].
  repeat split; assumption.
Defined.

(** X9: when the iteration log opens every time, a run that reports has
    appended to it, in this order: the header with the cycle count and the
    time, one block for each cycle in the order of the cycles (index, start
    time, raw iteration count, end time, blank line), and the block of the
    summary (sum and cycle count as plain numbers, start and end of the run,
    average, elapsed time, a rule and a blank line).  What the log held
    before is kept. *)
Theorem iteration_log_of_a_run (w : Z) (env : Env) (fuel : nat) (input : string)
        (st st' : World) (code : Z) (results : list CycleResult)
        (summary : RunSummary) :
  (forall n, open_ok env n IterationLog = true) ->
  Program.main w env fuel input st = Ok (code, Some (results, summary)) st' \/
  ProgramOptimized.main w env fuel input st = Ok (code, Some (results, summary)) st' ->
  exists now,
    itlog st' =
    itlog st
    ++ [Fill "*" 33; CyclesHeader (cycleCount summary) (dateTimeToString now);
        Fill "*" 28]
    ++ List.concat (map cycle_block results)
    ++ summary_block summary.
Proof.
  intros Hopen [H | H]; eapply main_itlog; eauto.
Qed.

Lemma iteration_log_of_a_run_witness :
  exists results summary st' now,
    Program.main 64 env_all_ok 3 (line "2") (fresh_world two_cycle_wall two_cycle_mono)
    = Ok (0, Some (results, summary)) st' /\
    List.length (itlog st') = 19%nat /\
    itlog st' =
    itlog (fresh_world two_cycle_wall two_cycle_mono)
    ++ [Fill "*" 33; CyclesHeader (cycleCount summary) (dateTimeToString now);
        Fill "*" 28]
    ++ List.concat (map cycle_block results)
    ++ summary_block summary.
Proof.
  pose proof (iteration_log_of_a_run 64 env_all_ok 3 (line "2")
                (fresh_world two_cycle_wall two_cycle_mono)) as H.
  destruct (Program.main 64 env_all_ok 3 (line "2")
              (fresh_world two_cycle_wall two_cycle_mono))
    as [[code [[results summary]|]] st'| |] eqn:E; try (vm_compute in E; discriminate E).
  destruct (H st' code results summary ltac:(intros; reflexivity) ltac:(left; reflexivity))
    as (now & Hlog).
  exists results, summary, st', now.
  assert (Hc : code = 0) by (vm_compute in E; inversion E; reflexivity).
  subst code. split; [reflexivity |].
  split; [vm_compute in E; inversion E; reflexivity |].
  exact Hlog.
Defined.

(** ** The progress lines of a cycle *)

Lemma marks_small (w : Z) (n : nat) :
  forall i,
    0 <= i -> i + Z.of_nat n < 2 ^ w ->
    marks w i n
    = map (Z.mul 100000)
          (Zrange (i / 100000 + 1) (Z.to_nat ((i + Z.of_nat n) / 100000 - i / 100000))).
Proof.
  induction n as [|n IH]; intros i Hi Hn.
  - rewrite Z.add_0_r, Z.sub_diag. reflexivity.
  - cbn [marks]. rewrite wrap_small by lia.
    rewrite IH by lia.
    replace (i + 1 + Z.of_nat n) with (i + Z.of_nat (S n)) by lia.
    assert (Hmono : (i + 1) / 100000 <= (i + Z.of_nat (S n)) / 100000)
      by (apply Z.div_le_mono; lia).
    pose proof (Z.div_mod i 100000 ltac:(lia)) as D1.
    pose proof (Z.mod_pos_bound i 100000 ltac:(lia)) as B1.
    pose proof (Z.div_mod (i + 1) 100000 ltac:(lia)) as D2.
    pose proof (Z.mod_pos_bound (i + 1) 100000 ltac:(lia)) as B2.
    destruct ((i + 1) mod 100000 =? 0) eqn:Hm.
    + apply Z.eqb_eq in Hm.
      assert (Hq : (i + 1) / 100000 = i / 100000 + 1) by lia.
      rewrite Hq in *.
      replace (Z.to_nat ((i + Z.of_nat (S n)) / 100000 - i / 100000))
        with (S (Z.to_nat ((i + Z.of_nat (S n)) / 100000 - (i / 100000 + 1)))) by lia.
      cbn [Zrange map app]. f_equal. lia.
    + apply Z.eqb_neq in Hm.
      assert (Hq : (i + 1) / 100000 = i / 100000) by lia.
      rewrite Hq. reflexivity.
Qed.

Lemma marks_from_zero (w : Z) (n : nat) :
  Z.of_nat n < 2 ^ w -> marks w 0 n = hundred_thousands (Z.of_nat n).
Proof.
  intros Hn. rewrite marks_small by lia. unfold hundred_thousands.
  change (0 / 100000) with 0. rewrite Z.add_0_l, Z.sub_0_r. reflexivity.
Qed.

Lemma hundred_thousands_length (n : Z) :
  List.length (hundred_thousands n) = Z.to_nat (n / 100000).
Proof. unfold hundred_thousands. rewrite length_map. apply Zrange_length. Qed.

(** The deadline loop writes a progress line at each mark and reads the wall
    clock for nothing else. *)
Lemma optimized_counting_loop_marks (w cycles cycle endTp : Z) (mono : list Z) :
  0 <= w ->
  forall (wall : list Z) (i : Z) (acc acc' : Acc) (its : Z) (wall' mono' : list Z),
    0 <= i < 2 ^ w ->
    ProgramOptimized.counting_loop w cycles cycle endTp mono wall i i acc
    = Some (its, acc', wall', mono') ->
    exists pre now stamps,
      mono = pre ++ now :: mono' /\
      Forall (fun t => t < endTp) pre /\
      endTp <= now /\
      its = wrap w (i + Z.of_nat (List.length pre)) /\
      wall = stamps ++ wall' /\
      List.length stamps = List.length (marks w i (List.length pre)) /\
      a_buffer acc' =
      a_buffer acc ++ progress_lines cycles cycle (marks w i (List.length pre)) stamps.
Proof.
  intros Hw.
  induction mono as [|now mono1 IH];
    intros wall i acc acc' its wall' mono' Hi H; [discriminate |].
  cbn [ProgramOptimized.counting_loop] in H.
  assert (Hi' : 0 <= wrap w (i + 1) < 2 ^ w) by apply wrap_range, Hw.
  destruct (now <? endTp) eqn:Hnow.
  - apply Z.ltb_lt in Hnow.
    destruct (wrap w (i + 1) mod 100000 =? 0) eqn:Hm.
    + destruct wall as [|progressTp wall1]; [discriminate |].
      apply IH in H; [| exact Hi'].
      destruct H as (pre & now0 & stamps & Hmono & Hpre & Hn & Hits & Hwall & Hlen & Hb).
      exists (now :: pre), now0, (progressTp :: stamps).
      cbn [List.length marks]. rewrite Hm, Hmono, Hwall, Hb, Hits, wrap_add_l.
      cbn [log_line a_buffer app List.length]. rewrite Hlen, <- app_assoc.
      repeat split; try reflexivity; auto;
        try (constructor; assumption); try (f_equal; lia).
    + apply IH in H; [| exact Hi'].
      destruct H as (pre & now0 & stamps & Hmono & Hpre & Hn & Hits & Hwall & Hlen & Hb).
      exists (now :: pre), now0, stamps.
      cbn [List.length marks]. rewrite Hm, Hmono, Hits, wrap_add_l. cbn [app].
      repeat split; try reflexivity; auto;
        try (constructor; assumption); try (f_equal; lia).
  - apply Z.ltb_ge in Hnow. inversion H; subst. exists [], now, [].
    cbn. rewrite app_nil_r, Z.add_0_r, wrap_small by exact Hi. repeat split; auto.
Qed.

(** The wall-clock loop: a progress line at each mark, and three samples of
    the clock for an iteration that writes one. *)
Lemma program_counting_loop_marks (w cycles cycle startSecond : Z) (wall : list Z) :
  forall (i iterations : Z) (acc acc' : Acc) (its : Z) (rest : list Z),
    Program.counting_loop w cycles cycle startSecond wall i iterations acc
    = Some (its, acc', rest) ->
    exists n polled stamps,
      (1 <= n)%nat /\
      its = wrap w (i + Z.of_nat n) /\
      wall = polled ++ rest /\
      List.length polled = (n + 2 * List.length stamps)%nat /\
      incl stamps polled /\
      List.length stamps = List.length (marks w i n) /\
      a_buffer acc' = a_buffer acc ++ progress_lines cycles cycle (marks w i n) stamps.
Proof.
  induction wall as [wall IH] using (induction_ltof1 _ (@List.length Z)).
  unfold ltof in IH.
  intros i iterations acc acc' its rest H.
  destruct wall as [|t1 wall1].
  - cbn in H. destruct (wrap w (i + 1) mod 100000 =? 0); discriminate.
  - cbn [Program.counting_loop] in H.
    destruct (wrap w (i + 1) mod 100000 =? 0) eqn:Hm.
    + destruct wall1 as [|progressTp [|t rest']]; try discriminate.
      destruct (getCurrentSecond t =? startSecond).
      * apply IH in H; [| cbn; lia].
        destruct H as (n & polled & stamps & Hn & Hits & Hwall & Hpolled & Hincl & Hlen & Hb).
        exists (S n), (t1 :: progressTp :: t :: polled), (progressTp :: stamps).
        cbn [marks]. rewrite Hm, Hb, Hits, wrap_add_l, Hwall.
        cbn [log_line a_buffer app List.length]. rewrite Hlen, Hpolled, <- app_assoc.
        repeat split; try reflexivity; try lia; [f_equal; lia |].
        intros x [Hx | Hx]; [subst; right; left; reflexivity |].
        right. right. right. apply Hincl, Hx.
      * inversion H; subst.
        exists 1%nat, [t1; progressTp; t], [progressTp]. cbn [marks]. rewrite Hm.
        cbn [log_line a_buffer app List.length].
        repeat split; try reflexivity; try lia.
        intros x [Hx | []]. subst. right. left. reflexivity.
    + destruct (getCurrentSecond t1 =? startSecond).
      * apply IH in H; [| cbn; lia].
        destruct H as (n & polled & stamps & Hn & Hits & Hwall & Hpolled & Hincl & Hlen & Hb).
        exists (S n), (t1 :: polled), stamps.
        cbn [marks]. rewrite Hm, Hb, Hits, wrap_add_l, Hwall.
        cbn [app List.length]. rewrite Hpolled.
        repeat split; auto; try lia; [f_equal; lia |].
        intros x Hx. right. apply Hincl, Hx.
      * inversion H; subst.
        exists 1%nat, [t1], []. cbn [marks]. rewrite Hm. cbn. rewrite app_nil_r.
        repeat split; auto; intros x [].
Qed.

Lemma length_lt_pow2 (w : Z) {A} (l1 l2 l3 : list A) :
  Z.of_nat (List.length (l1 ++ l2 ++ l3)) < 2 ^ w -> Z.of_nat (List.length l2) < 2 ^ w.
Proof. rewrite !length_app. lia. Qed.

Lemma optimized_measure_progress (w cycles cycle : Z) (wall mono wall' mono' : list Z)
      (m : Measurement) :
  32 <= w ->
  Z.of_nat (List.length mono) < 2 ^ w ->
  ProgramOptimized.measure w cycles cycle wall mono = Some (m, wall', mono') ->
  exists before stamps,
    wall = before ++ stamps ++ wall' /\
    Z.of_nat (List.length stamps) = m_iterations m / 100000 /\
    a_buffer (m_acc m) =
    map PausedFor (a_sleeps (m_acc m))
    ++ progress_lines cycles cycle (hundred_thousands (m_iterations m)) stamps.
Proof.
  intros Hw Hlen H. pose proof (pow2_32_le w Hw) as Hp.
  apply optimized_measure_inv in H.
  destruct H as (t0 & wall0 & acc1 & nowTp & t & wall2 & startTp & mono1
                 & Hwall & Hpause & Hmono & Hloop & _).
  pose proof (optimized_pause_loop_paused _ _ _ _ _ _ Hpause) as (ss & Hs & Hb & _).
  apply optimized_pause_loop_samples in Hpause; [| exact Hw].
  destruct Hpause as (pre & x & Hsplit & _).
  pose proof Hloop as Hsl.
  apply optimized_counting_loop_deadline in Hsl; [| lia | lia].
  destruct Hsl as ((_ & _ & Hsl) & _).
  apply optimized_counting_loop_marks in Hloop; [| lia | lia].
  destruct Hloop as (counted_samples & now & stamps & Hm1 & _ & _ & Hits & Hw2 & Hlen2 & Hbuf).
  assert (Hn : Z.of_nat (List.length counted_samples) < 2 ^ w).
  { subst mono mono1. cbn [List.length] in Hlen. rewrite length_app in Hlen. lia. }
  rewrite Z.add_0_l, wrap_small in Hits by lia.
  rewrite marks_from_zero in Hlen2, Hbuf by exact Hn.
  rewrite <- Hits in Hlen2, Hbuf.
  exists (pre ++ [x; nowTp; t]), stamps.
  split; [| split].
  - rewrite Hwall, Hsplit, Hw2, <- app_assoc. reflexivity.
  - rewrite Hlen2, hundred_thousands_length.
    apply Z2Nat.id, Z.div_pos; lia.
  - rewrite Hbuf, Hsl. cbn [say a_buffer a_sleeps]. rewrite Hb, Hs. reflexivity.
Qed.

(** X10: the detail records of a cycle of [program_optimized.cxx], for a
    monotonic script shorter than [2 ^ w] (the counter does not wrap): the
    buffer holds one "Paused for" line for each sleep and then one progress
    line for each full 100,000 iterations counted, numbered 100,000,
    200,000, ... in this order; the wall clock is read once for each
    progress line and for nothing else during the timed loop, so that the
    stamps of the lines are the consecutive samples that precede those left
    to the rest of the run. *)
Theorem optimized_progress_lines (w cycles cycle : Z) (wall mono wall' mono' : list Z)
        (m : Measurement) :
  32 <= w ->
  Z.of_nat (List.length mono) < 2 ^ w ->
  ProgramOptimized.measure w cycles cycle wall mono = Some (m, wall', mono') ->
  exists before stamps,
    wall = before ++ stamps ++ wall' /\
    Z.of_nat (List.length stamps) = m_iterations m / 100000 /\
    a_buffer (m_acc m) =
    map PausedFor (a_sleeps (m_acc m))
    ++ progress_lines cycles cycle (hundred_thousands (m_iterations m)) stamps.
Proof. apply optimized_measure_progress. Qed.

Lemma optimized_progress_lines_witness :
  exists m wall' mono' before stamps,
    ProgramOptimized.measure 64 1 1 (repeat (sec 1) (Z.to_nat 250010))
      (0 :: repeat 0 (Z.to_nat 250000) ++ [sec 1])
    = Some (m, wall', mono') /\
    m_iterations m = 250000 /\
    repeat (sec 1) (Z.to_nat 250010) = before ++ stamps ++ wall' /\
    Z.of_nat (List.length stamps) = 2 /\
    a_buffer (m_acc m) =
    map PausedFor (a_sleeps (m_acc m))
    ++ progress_lines 1 1 [100000; 200000] stamps.
Proof.
  destruct (optimized_measure_busy 64 1 1 (Z.to_nat 250000) (Z.to_nat 250010) []
              ltac:(lia) ltac:(lia)) as (m & n' & Hm & Hits & _).
  rewrite Z2Nat.id, wrap_small in Hits by lia.
  assert (Hlen : Z.of_nat (List.length (0 :: repeat 0 (Z.to_nat 250000) ++ [sec 1]))
                 < 2 ^ 64).
  { cbn [List.length]. rewrite length_app, repeat_length. cbn [List.length]. lia. }
  destruct (optimized_progress_lines 64 1 1 _ _ _ _ m ltac:(lia) Hlen Hm)
    as (before & stamps & Hwall & Hstamps & Hbuf).
  rewrite Hits in Hstamps, Hbuf.
  exists m, (repeat (sec 1) n'), [], before, stamps.
  split; [exact Hm |]. split; [exact Hits |]. split; [exact Hwall |].
  split; [exact Hstamps | exact Hbuf].
Defined.

Lemma program_measure_progress (w cycles cycle : Z) (wall mono wall' mono' : list Z)
      (m : Measurement) :
  32 <= w ->
  Z.of_nat (List.length wall) < 2 ^ w ->
  Program.measure w cycles cycle wall mono = Some (m, wall', mono') ->
  1 <= m_iterations m /\
  exists before polled stamps,
    wall = before ++ polled ++ wall' /\
    Z.of_nat (List.length polled) = m_iterations m + 2 * (m_iterations m / 100000) /\
    incl stamps polled /\
    Z.of_nat (List.length stamps) = m_iterations m / 100000 /\
    a_buffer (m_acc m) =
    map PausedFor (a_sleeps (m_acc m))
    ++ progress_lines cycles cycle (hundred_thousands (m_iterations m)) stamps.
Proof.
  intros Hw Hlen H. pose proof (pow2_32_le w Hw) as Hp.
  apply program_measure_inv in H.
  destruct H as (t0 & wall0 & acc1 & nowTp & startTp & t & wall2
                 & Hwall & Hpause & Hloop & _).
  pose proof (program_pause_loop_paused _ _ _ _ _ _ Hpause) as (ss & Hs & Hb & _).
  apply program_pause_loop_samples in Hpause; [| exact Hw].
  destruct Hpause as (pairs & x & Hsplit & _).
  pose proof Hloop as Hsl.
  apply program_counting_loop_counted in Hsl. destruct Hsl as ((_ & _ & Hsl) & _).
  apply program_counting_loop_marks in Hloop.
  destruct Hloop as (n & polled & stamps & Hn & Hits & Hw2 & Hpolled & Hincl & Hlen2 & Hbuf).
  assert (Hsmall : Z.of_nat n < 2 ^ w).
  { subst wall wall0 wall2. cbn [List.length] in Hlen.
    rewrite !length_app in Hlen. cbn [List.length] in Hlen.
    rewrite length_app in Hlen. lia. }
  rewrite Z.add_0_l, wrap_small in Hits by lia.
  rewrite marks_from_zero in Hlen2, Hbuf by exact Hsmall.
  rewrite <- Hits in Hlen2, Hbuf.
  rewrite hundred_thousands_length in Hlen2.
  assert (Hq : 0 <= m_iterations m / 100000) by (apply Z.div_pos; lia).
  split; [lia |].
  exists (t0 :: flat_pairs pairs ++ [x; nowTp; startTp; t]), polled, stamps.
  split; [| split; [| split; [| split]]].
  - rewrite Hwall, Hsplit, Hw2. cbn [app]. rewrite <- app_assoc. reflexivity.
  - rewrite Hpolled, Hlen2. lia.
  - exact Hincl.
  - rewrite Hlen2. lia.
  - rewrite Hbuf, Hsl. cbn [say a_buffer a_sleeps]. rewrite Hb, Hs. reflexivity.
Qed.

(** X11: the detail records of a cycle of [program.cxx], for a wall-clock
    script shorter than [2 ^ w]: the timed loop counts at least one
    iteration; the buffer holds one "Paused for" line for each sleep and then
    one progress line for each full 100,000 iterations counted, numbered
    100,000, 200,000, ... in this order and stamped with samples that the
    loop read; during the timed loop the clock is read once for each
    iteration and twice more for each progress line. *)
Theorem program_progress_lines (w cycles cycle : Z) (wall mono wall' mono' : list Z)
        (m : Measurement) :
  32 <= w ->
  Z.of_nat (List.length wall) < 2 ^ w ->
  Program.measure w cycles cycle wall mono = Some (m, wall', mono') ->
  1 <= m_iterations m /\
  exists before polled stamps,
    wall = before ++ polled ++ wall' /\
    Z.of_nat (List.length polled) = m_iterations m + 2 * (m_iterations m / 100000) /\
    incl stamps polled /\
    Z.of_nat (List.length stamps) = m_iterations m / 100000 /\
    a_buffer (m_acc m) =
    map PausedFor (a_sleeps (m_acc m))
    ++ progress_lines cycles cycle (hundred_thousands (m_iterations m)) stamps.
Proof. apply program_measure_progress. Qed.

Lemma program_progress_lines_witness :
  exists m wall' mono',
    Program.measure 64 1 1
      [sec 7; sec 8; sec 15; sec 16; sec 16; sec 17; sec 17; sec 17; sec 17; sec 17;
       sec 18; sec 18] []
    = Some (m, wall', mono') /\
    m_iterations m = 2 /\
    1 <= m_iterations m /\
    exists before polled stamps,
      [sec 7; sec 8; sec 15; sec 16; sec 16; sec 17; sec 17; sec 17; sec 17; sec 17;
       sec 18; sec 18]
      = before ++ polled ++ wall' /\
      Z.of_nat (List.length polled) = m_iterations m + 2 * (m_iterations m / 100000) /\
      incl stamps polled /\
      Z.of_nat (List.length stamps) = m_iterations m / 100000 /\
      a_buffer (m_acc m) =
      map PausedFor (a_sleeps (m_acc m))
      ++ progress_lines 1 1 (hundred_thousands (m_iterations m)) stamps.
Proof.
  eexists. eexists. eexists.
  split; [vm_compute; reflexivity |]. split; [reflexivity |].
  eapply (program_progress_lines 64 1 1 _ []);
    [lia | vm_compute; reflexivity | vm_compute; reflexivity].
Defined.

(** ** Decimal numbers, written and read *)

Ltac digit_cases d :=
  let H := fresh "H" in
  assert (H : d = 0 \/ d = 1 \/ d = 2 \/ d = 3 \/ d = 4 \/ d = 5 \/ d = 6 \/ d = 7
              \/ d = 8 \/ d = 9) by lia;
  repeat (destruct H as [H | H]; [subst d |]); [.. | subst d].

Lemma digit_val_digit_char (d : Z) :
  0 <= d <= 9 -> digit_val (Rendering.digit_char d) = Some d.
Proof. intros Hd. digit_cases d; reflexivity. Qed.

Lemma digit_char_plain (d : Z) :
  0 <= d <= 9 ->
  isspace (Rendering.digit_char d) = false /\
  Ascii.eqb (Rendering.digit_char d) "-" = false /\
  Ascii.eqb (Rendering.digit_char d) "+" = false /\
  Ascii.eqb (Rendering.digit_char d) "_" = false.
Proof. intros Hd. digit_cases d; repeat split; reflexivity. Qed.

Lemma string_app_assoc (s1 s2 s3 : string) :
  ((s1 ++ s2) ++ s3 = s1 ++ (s2 ++ s3))%string.
Proof. induction s1 as [|c s1 IH]; cbn; [reflexivity | rewrite IH; reflexivity]. Qed.

Lemma string_app_length (s1 s2 : string) :
  String.length (s1 ++ s2) = (String.length s1 + String.length s2)%nat.
Proof. induction s1 as [|c s1 IH]; cbn; [reflexivity | rewrite IH; reflexivity]. Qed.

Lemma string_app_inv_head (s t1 t2 : string) :
  (s ++ t1 = s ++ t2)%string -> t1 = t2.
Proof.
  induction s as [|c s IH]; cbn; intros H; [exact H |].
  inversion H. apply IH. assumption.
Qed.

(** Reading back what [show_digits] wrote: the digits are accumulated, the
    most significant first. *)
Lemma digits_show_digits (fuel : nat) :
  forall n,
    0 <= n < 2 ^ Z.of_nat (S fuel) ->
    exists p,
      forall (acc : Z) (found : bool) (tail : string),
        digits (Rendering.show_digits (S fuel) n ++ tail) acc found
        = digits tail (acc * p + n) true.
Proof.
  induction fuel as [|fuel IH]; intros n Hn.
  - assert (Hs : n < 2) by (change (2 ^ Z.of_nat 1) with 2 in Hn; lia).
    exists 10. intros acc found tail.
    cbn [Rendering.show_digits].
    replace (n <? 10) with true by (symmetry; apply Z.ltb_lt; lia).
    cbn [append digits]. rewrite digit_val_digit_char by lia. reflexivity.
  - change (Rendering.show_digits (S (S fuel)) n)
      with (if n <? 10 then String (Rendering.digit_char n) EmptyString
            else (Rendering.show_digits (S fuel) (n / 10)
                  ++ String (Rendering.digit_char (n mod 10)) EmptyString)%string).
    destruct (n <? 10) eqn:Hlt.
    + apply Z.ltb_lt in Hlt. exists 10. intros acc found tail.
      cbn [append digits]. rewrite digit_val_digit_char by lia. reflexivity.
    + apply Z.ltb_ge in Hlt.
      assert (Hq : 0 <= n / 10 < 2 ^ Z.of_nat (S fuel)).
      { split; [apply Z.div_pos; lia |].
        apply Z.div_lt_upper_bound; [lia |].
        replace (Z.of_nat (S (S fuel))) with (Z.of_nat (S fuel) + 1) in Hn by lia.
        rewrite Z.pow_add_r, Z.pow_1_r in Hn by lia. lia. }
      destruct (IH (n / 10) Hq) as (p & Hp).
      exists (p * 10). intros acc found tail.
      rewrite string_app_assoc, Hp. cbn [append digits].
      pose proof (Z.mod_pos_bound n 10 ltac:(lia)) as Hm.
      rewrite digit_val_digit_char by lia.
      f_equal. pose proof (Z.div_mod n 10 ltac:(lia)). lia.
Qed.

Lemma show_digits_head (fuel : nat) :
  forall n,
    0 <= n < 2 ^ Z.of_nat (S fuel) ->
    exists d s, 0 <= d <= 9 /\ Rendering.show_digits (S fuel) n
                              = String (Rendering.digit_char d) s.
Proof.
  induction fuel as [|fuel IH]; intros n Hn.
  - assert (Hs : n < 2) by (change (2 ^ Z.of_nat 1) with 2 in Hn; lia).
    exists n, EmptyString. cbn [Rendering.show_digits].
    replace (n <? 10) with true by (symmetry; apply Z.ltb_lt; lia).
    split; [lia | reflexivity].
  - change (Rendering.show_digits (S (S fuel)) n)
      with (if n <? 10 then String (Rendering.digit_char n) EmptyString
            else (Rendering.show_digits (S fuel) (n / 10)
                  ++ String (Rendering.digit_char (n mod 10)) EmptyString)%string).
    destruct (n <? 10) eqn:Hlt.
    + apply Z.ltb_lt in Hlt. exists n, EmptyString. split; [lia | reflexivity].
    + apply Z.ltb_ge in Hlt.
      assert (Hq : 0 <= n / 10 < 2 ^ Z.of_nat (S fuel)).
      { split; [apply Z.div_pos; lia |].
        apply Z.div_lt_upper_bound; [lia |].
        replace (Z.of_nat (S (S fuel))) with (Z.of_nat (S fuel) + 1) in Hn by lia.
        rewrite Z.pow_add_r, Z.pow_1_r in Hn by lia. lia. }
      destruct (IH (n / 10) Hq) as (d & s & Hd & Hs).
      exists d, (s ++ String (Rendering.digit_char (n mod 10)) EmptyString)%string.
      rewrite Hs. split; [exact Hd | reflexivity].
Qed.

Lemma show_fuel (n : Z) : 0 <= n -> 0 <= n < 2 ^ Z.of_nat (S (Z.to_nat (Z.log2 n))).
Proof.
  intros Hn. split; [exact Hn |].
  pose proof (Z.log2_nonneg n) as Hl.
  replace (Z.of_nat (S (Z.to_nat (Z.log2 n)))) with (Z.succ (Z.log2 n)) by lia.
  destruct (Z.eq_dec n 0) as [-> | Hz]; [reflexivity |].
  apply Z.log2_spec. lia.
Qed.

(** What [digits] makes of a written number followed by [tail]. *)
Lemma digits_show (n : Z) (tail : string) (found : bool) :
  0 <= n ->
  digits (Rendering.show n ++ tail) 0 found = digits tail n true.
Proof.
  intros Hn. unfold Rendering.show.
  destruct (digits_show_digits _ n (show_fuel n Hn)) as (p & Hp).
  rewrite Hp. reflexivity.
Qed.

Lemma show_head (n : Z) :
  0 <= n ->
  exists d s, 0 <= d <= 9 /\ Rendering.show n = String (Rendering.digit_char d) s.
Proof. intros Hn. apply show_digits_head, show_fuel, Hn. Qed.

Lemma digits_stop (c : ascii) (tail : string) (acc : Z) (found : bool) :
  digit_val c = None -> digits (String c tail) acc found = (acc, found, String c tail).
Proof. intros H. cbn [digits]. rewrite H. reflexivity. Qed.

(** The extraction, on a written number followed by [tail]. *)
Lemma extract_unsigned_show (w n : Z) (tail : string) :
  0 <= n ->
  extract_unsigned w (Rendering.show n ++ tail) =
  let '(result, found, rest) := digits tail n true in
  let at_eof := match rest with EmptyString => true | _ => false end in
  if negb found then (false, Some 0)
  else if 2 ^ w - 1 <? result then (false, Some (2 ^ w - 1))
  else (negb at_eof, Some result).
Proof.
  intros Hn. unfold extract_unsigned.
  destruct (show_head n Hn) as (d & s & Hd & Hs).
  pose proof (digits_show n tail false Hn) as Hdigits.
  rewrite Hs in *. cbn [append skipws] in *.
  destruct (digit_char_plain d Hd) as (-> & -> & -> & _).
  cbn [orb]. rewrite Hdigits. reflexivity.
Qed.

Lemma skipws_blanks (blanks s : string) :
  all_chars isspace blanks = true -> skipws (blanks ++ s) = skipws s.
Proof.
  induction blanks as [|c blanks IH]; cbn [all_chars append skipws]; intros H;
    [reflexivity |].
  apply andb_prop in H. destruct H as [-> H]. apply IH, H.
Qed.

(** White space before the number does not count. *)
Lemma read_cycles_blanks (w : Z) (blanks s : string) :
  all_chars isspace blanks = true -> read_cycles w (blanks ++ s) = read_cycles w s.
Proof.
  intros H. unfold read_cycles, extract_unsigned. rewrite skipws_blanks by exact H.
  reflexivity.
Qed.

Lemma read_cycles_show (w n : Z) (c : ascii) (tail : string) :
  1 <= n <= 2 ^ w - 1 ->
  digit_val c = None ->
  read_cycles w (Rendering.show n ++ String c tail) = (n, false).
Proof.
  intros Hn Hc. unfold read_cycles.
  rewrite extract_unsigned_show by lia.
  rewrite digits_stop by exact Hc. cbn [negb].
  replace (2 ^ w - 1 <? n) with false by (symmetry; apply Z.ltb_ge; lia).
  cbn [negb orb].
  replace (n <? 1) with false by (symmetry; apply Z.ltb_ge; lia).
  reflexivity.
Qed.

(** X12: a cycle count that the programs print is read back as itself: for
    every n with 1 <= n <= [2 ^ w - 1], standard input that holds the decimal
    digits of n, after any white space and before a character that is not a
    digit (a newline, a blank), gives the cycle count n and no warning. *)
Theorem printed_count_is_read_back (w n : Z) (blanks : string) (c : ascii)
        (tail : string) :
  1 <= n <= 2 ^ w - 1 ->
  all_chars isspace blanks = true ->
  digit_val c = None ->
  read_cycles w (blanks ++ Rendering.show n ++ String c tail) = (n, false).
Proof.
  intros Hn Hb Hc. rewrite read_cycles_blanks by exact Hb.
  apply read_cycles_show; assumption.
Qed.

Lemma printed_count_is_read_back_witness :
  Rendering.show 4096 = "4096"%string /\
  read_cycles 64 ("  " ++ Rendering.show 4096 ++ String "010" "rest") = (4096, false).
Proof.
  split; [reflexivity |].
  apply (printed_count_is_read_back 64 4096 "  " "010" "rest");
    [lia | reflexivity | reflexivity].
Defined.

(** X13: a number that ends the standard input is not accepted: when the
    digits of n are the last characters of the input (no newline after
    them), the extraction reaches the end of the input, [std::cin.good()] is
    false, and the programs warn and run one cycle, whatever n is. *)
Theorem count_at_end_of_input_is_rejected (w n : Z) :
  0 <= n ->
  read_cycles w (Rendering.show n) = (1, true).
Proof.
  intros Hn. unfold read_cycles.
  assert (E : Rendering.show n = (Rendering.show n ++ EmptyString)%string).
  { generalize (Rendering.show n). intros s.
    induction s as [|c s IH]; cbn; [reflexivity | rewrite <- IH; reflexivity]. }
  rewrite E, extract_unsigned_show by exact Hn.
  cbn [digits negb].
  destruct (2 ^ w - 1 <? n); reflexivity.
Qed.

Lemma count_at_end_of_input_is_rejected_witness :
  Rendering.show 5 = "5"%string /\
  read_cycles 64 (Rendering.show 5) = (1, true) /\
  read_cycles 64 (line (Rendering.show 5)) = (5, false).
Proof.
  split; [reflexivity |].
  split; [apply (count_at_end_of_input_is_rejected 64 5); lia | reflexivity].
Defined.

(** X14: a number beyond the range of [n_type] is not accepted: for every
    n > [2 ^ w - 1], standard input that starts with the decimal digits of n
    makes the programs warn and run one cycle. *)
Theorem count_beyond_width_is_rejected (w n : Z) (tail : string) :
  0 <= w ->
  2 ^ w - 1 < n ->
  (forall c rest, tail = String c rest -> digit_val c = None) ->
  read_cycles w (Rendering.show n ++ tail) = (1, true).
Proof.
  intros Hw Hn Htail. pose proof (pow2_pos w Hw) as Hp. unfold read_cycles.
  rewrite extract_unsigned_show by lia.
  assert (Hd : digits tail n true = (n, true, tail)).
  { destruct tail as [|c rest]; [reflexivity |].
    apply digits_stop. eapply Htail. reflexivity. }
  rewrite Hd. cbn [negb].
  replace (2 ^ w - 1 <? n) with true by (symmetry; apply Z.ltb_lt; lia).
  reflexivity.
Qed.

Lemma count_beyond_width_is_rejected_witness :
  Rendering.show 4294967296 = "4294967296"%string /\
  read_cycles 32 (Rendering.show 4294967296 ++ line "") = (1, true) /\
  read_cycles 32 (Rendering.show 4294967295 ++ line "") = (4294967295, false).
Proof.
  split; [reflexivity |].
  split; [| reflexivity].
  apply (count_beyond_width_is_rejected 32 4294967296 (line "")); [lia | lia |].
  intros c rest H. inversion H. reflexivity.
Defined.

(** ** Timestamps and file names *)

Lemma digit_char_inj (a b : Z) :
  0 <= a <= 9 -> 0 <= b <= 9 ->
  Rendering.digit_char a = Rendering.digit_char b -> a = b.
Proof.
  intros Ha Hb H. apply (f_equal digit_val) in H.
  rewrite !digit_val_digit_char in H by assumption. congruence.
Qed.

Lemma string_tail_eq (c1 c2 : ascii) (r1 r2 : string) :
  String c1 r1 = String c2 r2 -> r1 = r2.
Proof. intros H. injection H. auto. Qed.

Lemma two_digits_app_inj (n1 n2 : Z) (r1 r2 : string) :
  0 <= n1 <= 99 -> 0 <= n2 <= 99 ->
  (Rendering.two_digits n1 ++ r1 = Rendering.two_digits n2 ++ r2)%string ->
  n1 = n2 /\ r1 = r2.
Proof.
  intros H1 H2 H. unfold Rendering.two_digits in H. cbn [append] in H.
  inversion H as [[Ha Hb Hr]].
  apply digit_char_inj in Ha; [| Z.to_euclidean_division_equations; lia ..].
  apply digit_char_inj in Hb; [| Z.to_euclidean_division_equations; lia ..].
  split; [| reflexivity].
  Z.to_euclidean_division_equations; lia.
Qed.

Lemma show_app_inj (n1 n2 : Z) (c1 c2 : ascii) (r1 r2 : string) :
  0 <= n1 -> 0 <= n2 ->
  digit_val c1 = None -> digit_val c2 = None ->
  (Rendering.show n1 ++ String c1 r1 = Rendering.show n2 ++ String c2 r2)%string ->
  n1 = n2 /\ String c1 r1 = String c2 r2.
Proof.
  intros H1 H2 Hc1 Hc2 H.
  apply (f_equal (fun s => digits s 0 false)) in H. cbv beta in H.
  rewrite !digits_show, !digits_stop in H by assumption.
  inversion H. auto.
Qed.

Lemma dateTimeToString_inj (t1 t2 : Rendering.tm) :
  valid_tm t1 -> valid_tm t2 ->
  Rendering.dateTimeToString t1 = Rendering.dateTimeToString t2 ->
  t1 = t2.
Proof.
  unfold valid_tm, Rendering.dateTimeToString.
  destruct t1 as [y1 m1 d1 h1 mi1 s1], t2 as [y2 m2 d2 h2 mi2 s2].
  cbn [Rendering.tm_year Rendering.tm_mon Rendering.tm_mday Rendering.tm_hour
       Rendering.tm_min Rendering.tm_sec].
  intros (Hy1 & Hm1 & Hd1 & Hh1 & Hmi1 & Hs1) (Hy2 & Hm2 & Hd2 & Hh2 & Hmi2 & Hs2) H.
  cbn [append] in H.
  apply show_app_inj in H; try lia; try reflexivity.
  destruct H as [Hy H]. apply string_tail_eq in H.
  apply two_digits_app_inj in H; try lia. destruct H as [Hm H].
  cbn [append] in H. apply string_tail_eq in H.
  apply two_digits_app_inj in H; try lia. destruct H as [Hd H].
  cbn [append] in H. apply string_tail_eq in H.
  apply two_digits_app_inj in H; try lia. destruct H as [Hh H].
  cbn [append] in H. apply string_tail_eq in H.
  apply two_digits_app_inj in H; try lia. destruct H as [Hmi H].
  cbn [append] in H. apply string_tail_eq in H.
  assert (Hs : s1 = s2).
  { apply (two_digits_app_inj s1 s2 EmptyString EmptyString); [lia | lia |].
    unfold Rendering.two_digits in *. exact H. }
  f_equal; lia.
Qed.

(** X15: the text of a date and time determines the local time: two
    broken-down local times of four-digit years with the same text
    "%Y-%m-%d %H:%M:%S" have the same year, month, day, hour, minute and
    second. *)
Theorem date_time_text_determines_the_time (t1 t2 : Rendering.tm) :
  valid_tm t1 -> valid_tm t2 ->
  Rendering.dateTimeToString t1 = Rendering.dateTimeToString t2 ->
  t1 = t2.
Proof. apply dateTimeToString_inj. Qed.

Lemma date_time_text_determines_the_time_witness :
  Rendering.dateTimeToString (Rendering.mkTm 125 2 16 7 14 2)
  = "2025-03-16 07:14:02"%string /\
  Rendering.mkTm 125 2 16 7 14 2 = Rendering.mkTm (100 + 25) (1 + 1) 16 7 14 2.
Proof.
  split; [reflexivity |].
  apply (date_time_text_determines_the_time
           (Rendering.mkTm 125 2 16 7 14 2) (Rendering.mkTm (100 + 25) (1 + 1) 16 7 14 2));
    [unfold valid_tm; cbn; lia | unfold valid_tm; cbn; lia | reflexivity].
Defined.

Lemma show_four_digits (y : Z) :
  1000 <= y <= 9999 ->
  Rendering.show y
  = String (Rendering.digit_char (y / 10 / 10 / 10))
      (String (Rendering.digit_char ((y / 10 / 10) mod 10))
         (String (Rendering.digit_char ((y / 10) mod 10))
            (String (Rendering.digit_char (y mod 10)) EmptyString))).
Proof.
  intros Hy. unfold Rendering.show.
  assert (Hl : 9 <= Z.log2 y).
  { change 9 with (Z.log2 512). apply Z.log2_le_mono. lia. }
  destruct (Z.to_nat (Z.log2 y)) as [|[|[|f]]] eqn:Hf; try lia.
  cbn [Rendering.show_digits].
  replace (y <? 10) with false by (symmetry; apply Z.ltb_ge; lia).
  replace (y / 10 <? 10) with false
    by (symmetry; apply Z.ltb_ge; Z.to_euclidean_division_equations; lia).
  replace (y / 10 / 10 <? 10) with false
    by (symmetry; apply Z.ltb_ge; Z.to_euclidean_division_equations; lia).
  replace (y / 10 / 10 / 10 <? 10) with true
    by (symmetry; apply Z.ltb_lt; Z.to_euclidean_division_equations; lia).
  reflexivity.
Qed.

Lemma stamp_char_digit (d : Z) :
  0 <= d <= 9 -> stamp_char (Rendering.digit_char d) = true.
Proof. intros Hd. unfold stamp_char. rewrite digit_val_digit_char by exact Hd. reflexivity. Qed.

Lemma hour12_range (h : Z) : 1 <= Rendering.hour12 h <= 12.
Proof.
  unfold Rendering.hour12. pose proof (Z.mod_pos_bound h 12 ltac:(lia)).
  destruct (h mod 12 =? 0) eqn:E; [lia |]. apply Z.eqb_neq in E. lia.
Qed.

(** X16: the stamp in the name of a detail file, for a local time of a
    four-digit year: it has 17 characters, each a decimal digit or an
    underscore (no blank, colon or path separator), and its hour field
    (characters 10 and 11) is the hour on the 12-hour clock, between 01 and
    12, without a mark for the half of the day. *)
Theorem file_stamp_shape (t : Rendering.tm) :
  valid_tm t ->
  String.length (Rendering.getFileTimestamp t) = 17%nat /\
  all_chars stamp_char (Rendering.getFileTimestamp t) = true /\
  substring 9 2 (Rendering.getFileTimestamp t)
  = Rendering.two_digits (Rendering.hour12 (Rendering.tm_hour t)) /\
  1 <= Rendering.hour12 (Rendering.tm_hour t) <= 12.
Proof.
  unfold valid_tm, Rendering.getFileTimestamp.
  destruct t as [y m d h mi s].
  cbn [Rendering.tm_year Rendering.tm_mon Rendering.tm_mday Rendering.tm_hour
       Rendering.tm_min Rendering.tm_sec].
  intros (Hy & Hm & Hd & Hh & Hmi & Hs).
  pose proof (hour12_range h) as Hh12.
  rewrite show_four_digits by exact Hy.
  unfold Rendering.two_digits. cbn [append].
  split; [reflexivity |]. split; [| split; [reflexivity | exact Hh12]].
  cbn [all_chars].
  rewrite !stamp_char_digit by (Z.to_euclidean_division_equations; lia).
  reflexivity.
Qed.

Lemma file_stamp_shape_witness :
  Rendering.getFileTimestamp (Rendering.mkTm 125 2 16 19 14 2)
  = "20250316_07_14_02"%string /\
  String.length (Rendering.getFileTimestamp (Rendering.mkTm 125 2 16 19 14 2)) = 17%nat /\
  all_chars stamp_char (Rendering.getFileTimestamp (Rendering.mkTm 125 2 16 19 14 2))
  = true /\
  substring 9 2 (Rendering.getFileTimestamp (Rendering.mkTm 125 2 16 19 14 2))
  = Rendering.two_digits (Rendering.hour12 (Rendering.tm_hour (Rendering.mkTm 125 2 16 19 14 2))) /\
  1 <= Rendering.hour12 (Rendering.tm_hour (Rendering.mkTm 125 2 16 19 14 2)) <= 12.
Proof.
  split; [reflexivity |].
  apply (file_stamp_shape (Rendering.mkTm 125 2 16 19 14 2)).
  unfold valid_tm. cbn. lia.
Defined.

(** X17: the name of a detail file does not tell the morning from the
    afternoon: [%I] is the hour on the 12-hour clock and the format has no
    [%p], so a cycle started twelve hours after another, with the same
    cycle count and index, is given the same file name (and the file,
    opened for writing, is replaced), while the texts of the two times in
    the logs differ. *)
Theorem file_name_repeats_after_twelve_hours (t : Rendering.tm) (cycles cycle : Z) :
  valid_tm t ->
  Rendering.tm_hour t <= 11 ->
  valid_tm (twelve_hours_later t) /\
  Rendering.dateTimeToString (twelve_hours_later t) <> Rendering.dateTimeToString t /\
  Rendering.fname (Rendering.getFileTimestamp (twelve_hours_later t)) cycles cycle
  = Rendering.fname (Rendering.getFileTimestamp t) cycles cycle.
Proof.
  intros Hv Hh.
  assert (Hv' : valid_tm (twelve_hours_later t)).
  { unfold valid_tm, twelve_hours_later in *. cbn. lia. }
  split; [exact Hv' |]. split.
  - intros E. apply dateTimeToString_inj in E; [| exact Hv' | exact Hv].
    apply (f_equal Rendering.tm_hour) in E. unfold twelve_hours_later in E. cbn in E. lia.
  - f_equal. unfold Rendering.getFileTimestamp, twelve_hours_later.
    cbn [Rendering.tm_year Rendering.tm_mon Rendering.tm_mday Rendering.tm_hour
         Rendering.tm_min Rendering.tm_sec].
    assert (E : Rendering.hour12 (Rendering.tm_hour t + 12)
                = Rendering.hour12 (Rendering.tm_hour t)).
    { unfold Rendering.hour12.
      replace ((Rendering.tm_hour t + 12) mod 12) with (Rendering.tm_hour t mod 12);
        [reflexivity |].
      replace (Rendering.tm_hour t + 12) with (Rendering.tm_hour t + 1 * 12) by lia.
      rewrite Z.mod_add by lia. reflexivity. }
    rewrite E. reflexivity.
Qed.

Lemma file_name_repeats_after_twelve_hours_witness :
  Rendering.fname (Rendering.getFileTimestamp (Rendering.mkTm 125 2 16 7 14 2)) 3 1
  = "T 20250316_07_14_02 03 - 01.txt"%string /\
  twelve_hours_later (Rendering.mkTm 125 2 16 7 14 2) = Rendering.mkTm 125 2 16 19 14 2 /\
  valid_tm (twelve_hours_later (Rendering.mkTm 125 2 16 7 14 2)) /\
  Rendering.dateTimeToString (twelve_hours_later (Rendering.mkTm 125 2 16 7 14 2))
  <> Rendering.dateTimeToString (Rendering.mkTm 125 2 16 7 14 2) /\
  Rendering.fname
    (Rendering.getFileTimestamp (twelve_hours_later (Rendering.mkTm 125 2 16 7 14 2))) 3 1
  = Rendering.fname (Rendering.getFileTimestamp (Rendering.mkTm 125 2 16 7 14 2)) 3 1.
Proof.
  split; [reflexivity |]. split; [reflexivity |].
  apply (file_name_repeats_after_twelve_hours (Rendering.mkTm 125 2 16 7 14 2) 3 1).
  - unfold valid_tm. cbn. lia.
  - cbn. lia.
Defined.

Lemma digits_setw2 (n : Z) (tail : string) :
  0 <= n ->
  digits (Rendering.setw2 n ++ tail) 0 false = digits tail n true.
Proof.
  intros Hn. unfold Rendering.setw2.
  destruct (String.length (Rendering.show n) <? 2)%nat.
  - cbn [append digits].
    change (digit_val "0") with (Some 0). cbn [Z.mul Z.add].
    apply digits_show, Hn.
  - apply digits_show, Hn.
Qed.

Lemma setw2_app_inj (n1 n2 : Z) (c1 c2 : ascii) (r1 r2 : string) :
  0 <= n1 -> 0 <= n2 ->
  digit_val c1 = None -> digit_val c2 = None ->
  (Rendering.setw2 n1 ++ String c1 r1 = Rendering.setw2 n2 ++ String c2 r2)%string ->
  n1 = n2 /\ String c1 r1 = String c2 r2.
Proof.
  intros H1 H2 Hc1 Hc2 H.
  apply (f_equal (fun s => digits s 0 false)) in H. cbv beta in H.
  rewrite !digits_setw2, !digits_stop in H by assumption.
  inversion H. auto.
Qed.

(** X18: within a second the name of a detail file determines the cycle:
    two file names built from the same stamp are equal only if the cycle
    counts are equal and the cycle indexes are equal.  The detail files of
    a run whose cycles start within the same second therefore have different
    names; numbers of three digits and more are written in full. *)
Theorem file_name_determines_the_cycle (stamp : string) (cycles1 cycle1 cycles2 cycle2 : Z) :
  0 <= cycles1 -> 0 <= cycle1 -> 0 <= cycles2 -> 0 <= cycle2 ->
  Rendering.fname stamp cycles1 cycle1 = Rendering.fname stamp cycles2 cycle2 ->
  cycles1 = cycles2 /\ cycle1 = cycle2.
Proof.
  intros HN1 Hc1 HN2 Hc2 H. unfold Rendering.fname in H.
  cbn [append] in H. apply string_tail_eq, string_tail_eq in H.
  apply string_app_inv_head in H. apply string_tail_eq in H.
  apply setw2_app_inj in H; try assumption; try reflexivity.
  destruct H as [HN H]. split; [exact HN |].
  do 3 apply string_tail_eq in H.
  apply setw2_app_inj in H; try assumption; try reflexivity.
  apply H.
Qed.

Lemma file_name_determines_the_cycle_witness :
  Rendering.fname "20250316_07_14_02" 120 15 = "T 20250316_07_14_02 120 - 15.txt"%string /\
  Rendering.fname "20250316_07_14_02" 12 1 <> Rendering.fname "20250316_07_14_02" 1 21 /\
  120 = 100 + 20 /\ 15 = 10 + 5.
Proof.
  split; [reflexivity |]. split; [discriminate |].
  apply (file_name_determines_the_cycle "20250316_07_14_02" 120 15 (100 + 20) (10 + 5));
    try lia.
  reflexivity.
Defined.

(** ** Which clock decides the counts *)

Lemma deadline_split_unique (e : Z) (pre1 : list Z) :
  forall (now1 : Z) (rest1 pre2 : list Z) (now2 : Z) (rest2 : list Z),
    pre1 ++ now1 :: rest1 = pre2 ++ now2 :: rest2 ->
    Forall (fun t => t < e) pre1 -> e <= now1 ->
    Forall (fun t => t < e) pre2 -> e <= now2 ->
    pre1 = pre2 /\ rest1 = rest2.
Proof.
  induction pre1 as [|a pre1 IH]; intros now1 rest1 pre2 now2 rest2 H H1 Hn1 H2 Hn2.
  - destruct pre2 as [|b pre2]; cbn in H.
    + inversion H. auto.
    + inversion H; subst. inversion H2; subst. lia.
  - destruct pre2 as [|b pre2]; cbn in H.
    + inversion H; subst. inversion H1; subst. lia.
    + inversion H as [[Hab Htl]]. subst b.
      apply Forall_inv_tail in H1, H2.
      destruct (IH _ _ _ _ _ Htl H1 Hn1 H2 Hn2) as [-> ->]. auto.
Qed.

(** The count of a cycle of [program_optimized.cxx] and the monotonic samples
    it leaves depend on the monotonic script alone. *)
Lemma optimized_measure_mono_only (w : Z) (cycles1 cycle1 cycles2 cycle2 : Z)
      (wall1 wall2 mono wall1' wall2' mono1' mono2' : list Z) (m1 m2 : Measurement) :
  0 <= w ->
  ProgramOptimized.measure w cycles1 cycle1 wall1 mono = Some (m1, wall1', mono1') ->
  ProgramOptimized.measure w cycles2 cycle2 wall2 mono = Some (m2, wall2', mono2') ->
  m_iterations m1 = m_iterations m2 /\ mono1' = mono2'.
Proof.
  intros Hw H1 H2. pose proof (pow2_pos w Hw) as Hp.
  apply optimized_measure_inv in H1, H2.
  destruct H1 as (? & ? & ? & ? & ? & ? & startTp1 & monoA & _ & _ & Hm1 & Hl1 & _).
  destruct H2 as (? & ? & ? & ? & ? & ? & startTp2 & monoB & _ & _ & Hm2 & Hl2 & _).
  rewrite Hm1 in Hm2. inversion Hm2; subst startTp2 monoB. clear Hm2.
  apply optimized_counting_loop_deadline in Hl1; [| exact Hw | lia].
  apply optimized_counting_loop_deadline in Hl2; [| exact Hw | lia].
  destruct Hl1 as (_ & pre1 & now1 & Hs1 & Hp1 & Hn1 & Hi1).
  destruct Hl2 as (_ & pre2 & now2 & Hs2 & Hp2 & Hn2 & Hi2).
  rewrite Hs1 in Hs2.
  destruct (deadline_split_unique _ _ _ _ _ _ _ Hs2 Hp1 Hn1 Hp2 Hn2) as [-> ->].
  rewrite Hi1, Hi2. auto.
Qed.

Lemma optimized_cycle_loop_mono_only (w : Z) (env1 env2 : Env) (fuel1 : nat) :
  0 <= w ->
  forall (fuel2 : nat) (cycles cycle sum : Z) (results1 results2 : list CycleResult)
         (st1 st2 st1' st2' : World) (sum1' sum2' : Z)
         (results1' results2' : list CycleResult),
    mono st1 = mono st2 ->
    map iterationCount results1 = map iterationCount results2 ->
    Runner.cycle_loop w env1 (ProgramOptimized.measure w) fuel1 cycles cycle sum
      results1 st1 = Ok (sum1', results1') st1' ->
    Runner.cycle_loop w env2 (ProgramOptimized.measure w) fuel2 cycles cycle sum
      results2 st2 = Ok (sum2', results2') st2' ->
    sum1' = sum2' /\
    map iterationCount results1' = map iterationCount results2' /\
    mono st1' = mono st2'.
Proof.
  intros Hw.
  induction fuel1 as [|fuel1 IH];
    intros fuel2 cycles cycle sum results1 results2 st1 st2 st1' st2' sum1' sum2'
           results1' results2' Hmono Hres H1 H2; [discriminate |].
  destruct fuel2 as [|fuel2]; [discriminate |].
  cbn [Runner.cycle_loop] in H1, H2. destruct (cycle <=? cycles).
  - bind_inv H1. bind_inv H2.
    destruct a as [r1 s1], a0 as [r2 s2]. cbn [fst snd] in H1, H2.
    apply run_cycle_inv in H, H0.
    destruct H as (? & ? & m1 & ? & ? & monoA & _ & Hm1 & Hr1 & Hs1 & Hst1).
    destruct H0 as (? & ? & m2 & ? & ? & monoB & _ & Hm2 & Hr2 & Hs2 & Hst2).
    cbv zeta in Hst1, Hst2. rewrite Hmono in Hm1.
    destruct (optimized_measure_mono_only _ _ _ _ _ _ _ _ _ _ _ _ _ _ Hw Hm1 Hm2)
      as [Hits Hleft].
    assert (Es : s2 = s1) by (rewrite Hs1, Hs2, Hits; reflexivity).
    rewrite Es in H2.
    apply (fun Hm Hr => IH _ _ _ _ _ _ _ _ _ _ _ _ _ _ Hm Hr H1 H2).
    + rewrite Hst1, Hst2. cbn [mono]. exact Hleft.
    + rewrite !map_app, Hres, Hr1, Hr2. cbn [map iterationCount]. rewrite Hits. reflexivity.
  - inversion H1; subst. inversion H2; subst. auto.
Qed.

(** X19: the counts that [program_optimized.cxx] reports do not depend on the
    wall clock.  Two runs on the same input that read the same monotonic
    samples, whatever their wall clocks show (set back or forth, paused for
    longer or not at all) and whichever files open, and that both report,
    count the same iterations in every cycle and report the same total and
    the same average. *)
Theorem optimized_counts_ignore_the_wall_clock (w : Z) (env1 env2 : Env)
        (fuel1 fuel2 : nat) (input : string) (st1 st2 st1' st2' : World)
        (code1 code2 : Z) (results1 results2 : list CycleResult)
        (summary1 summary2 : RunSummary) :
  32 <= w ->
  mono st1 = mono st2 ->
  ProgramOptimized.main w env1 fuel1 input st1 = Ok (code1, Some (results1, summary1)) st1' ->
  ProgramOptimized.main w env2 fuel2 input st2 = Ok (code2, Some (results2, summary2)) st2' ->
  map iterationCount results1 = map iterationCount results2 /\
  totalIterations summary1 = totalIterations summary2 /\
  averageIterationsPerCycle summary1 = averageIterationsPerCycle summary2 /\
  mono st1' = mono st2'.
Proof.
  intros Hw Hmono H1 H2.
  apply main_inv in H1, H2. cbv zeta in H1, H2.
  destruct H1 as (? & ? & ? & stA & ? & ? & _ & Hl1 & _ & Hsum1 & Hst1).
  destruct H2 as (? & ? & ? & stB & ? & ? & _ & Hl2 & _ & Hsum2 & Hst2).
  pose proof (fun Hm Hr =>
                optimized_cycle_loop_mono_only w env1 env2 fuel1 ltac:(lia) fuel2
                  _ _ _ _ _ _ _ _ _ _ _ _ _ Hm Hr Hl1 Hl2) as K.
  destruct (K Hmono eq_refl) as (Htotal & Hcounts & Hleft).
  split; [exact Hcounts |]. split; [exact Htotal |].
  split.
  - rewrite Hsum1, Hsum2. cbn [averageIterationsPerCycle]. rewrite Htotal. reflexivity.
  - rewrite Hst1, Hst2. cbn [mono]. exact Hleft.
Qed.

Lemma optimized_counts_ignore_the_wall_clock_witness :
  exists results1 summary1 st1' results2 summary2 st2',
    ProgramOptimized.main 64 env_all_ok 3 (line "2")
      (fresh_world two_cycle_wall two_cycle_mono)
    = Ok (0, Some (results1, summary1)) st1' /\
    ProgramOptimized.main 64 env_no_detail 5 (line "2")
      (fresh_world jumpy_wall two_cycle_mono)
    = Ok (0, Some (results2, summary2)) st2' /\
    sleeps st1' = [] /\ sleeps st2' = [800] /\
    map iterationCount results1 = [2; 1] /\
    map iterationCount results1 = map iterationCount results2 /\
    totalIterations summary1 = totalIterations summary2 /\
    averageIterationsPerCycle summary1 = averageIterationsPerCycle summary2 /\
    mono st1' = mono st2'.
Proof.
  eexists. eexists. eexists. eexists. eexists. eexists.
  split; [vm_compute; reflexivity |]. split; [vm_compute; reflexivity |].
  split; [reflexivity |]. split; [reflexivity |]. split; [reflexivity |].
  eapply (optimized_counts_ignore_the_wall_clock 64 env_all_ok env_no_detail 3 5 (line "2")
            (fresh_world two_cycle_wall two_cycle_mono)
            (fresh_world jumpy_wall two_cycle_mono));
    [lia | reflexivity | vm_compute; reflexivity | vm_compute; reflexivity].
Defined.

(** ** The monotonic clock in [program.cxx] *)

Section MonoUntouched.

Variable w : Z.
Variable env : Env.

Lemma program_cycle_loop_mono (fuel : nat) :
  forall (cycles cycle sum : Z) (results : list CycleResult) (st st' : World)
         (res : Z * list CycleResult),
    Runner.cycle_loop w env (Program.measure w) fuel cycles cycle sum results st
    = Ok res st' ->
    mono st' = mono st.
Proof.
  induction fuel as [|fuel IH];
    intros cycles cycle sum results st st' res H; [discriminate |].
  cbn [Runner.cycle_loop] in H. destruct (cycle <=? cycles).
  - bind_inv H. destruct a as [r sum1]. cbn [fst snd] in H.
    apply run_cycle_inv in H0.
    destruct H0 as (stamp & wall1 & m & endTp & wall3 & mono2 & _ & Hm & _ & _ & Hst).
    cbv zeta in Hst. apply IH in H. rewrite H, Hst. cbn [mono].
    apply program_measure_inv in Hm.
    destruct Hm as (? & ? & ? & ? & ? & ? & ? & _ & _ & _ & _ & Hmono). exact Hmono.
  - inversion H; subst. reflexivity.
Qed.

End MonoUntouched.

(** X20: [program.cxx] never reads the monotonic clock: a run that ends, with
    a report or at the check of the directories, leaves the samples of
    [std::chrono::steady_clock] untouched; what it counts is decided by the
    wall clock alone. *)
Theorem program_never_reads_the_monotonic_clock (w : Z) (env : Env) (fuel : nat)
        (input : string) (st st' : World)
        (res : Z * option (list CycleResult * RunSummary)) :
  Program.main w env fuel input st = Ok res st' ->
  mono st' = mono st.
Proof.
  intros H. destruct res as [code [[results summary]|]].
  - apply main_inv in H. cbv zeta in H.
    destruct H as (? & ? & ? & st2 & ? & ? & _ & Hloop & _ & _ & Hst).
    apply program_cycle_loop_mono in Hloop. rewrite Hst. cbn [mono] in *. exact Hloop.
  - pose proof (main_exit_status w env (Program.measure w) fuel input st) as E.
    fold (Program.main w env) in E. rewrite H in E. cbn [exit_status] in E.
    destruct (detail_dir_ok env && log_dir_ok env).
    + destruct E as [_ E]. contradiction.
    + destruct E as (_ & _ & ->). reflexivity.
Qed.

Lemma program_never_reads_the_monotonic_clock_witness :
  exists res st',
    Program.main 64 env_all_ok 3 (line "2") (fresh_world two_cycle_wall two_cycle_mono)
    = Ok res st' /\
    fst res = 0 /\
    mono st' = mono (fresh_world two_cycle_wall two_cycle_mono).
Proof.
  eexists. eexists. split; [vm_compute; reflexivity |]. split; [reflexivity |].
  eapply (program_never_reads_the_monotonic_clock 64 env_all_ok 3 (line "2")
            (fresh_world two_cycle_wall two_cycle_mono)).
  vm_compute. reflexivity.
Defined.

(** ** Input that is not a positive number *)

Lemma wrap_opp (w n : Z) : 1 <= n <= 2 ^ w - 1 -> wrap w (- n) = 2 ^ w - n.
Proof.
  intros Hn. unfold wrap. symmetry. apply (Z.mod_unique (- n) (2 ^ w) (-1)); lia.
Qed.

(** X21: a negative number is not rejected but wraps: for every n with
    1 <= n <= [2 ^ w - 1], standard input that holds a minus sign and the
    decimal digits of n, followed by a character that is not a digit, gives
    the cycle count [2 ^ w - n] and no warning ("-5" asks for
    18,446,744,073,709,551,611 cycles when [n_type] has 64 bits). *)
Theorem negative_count_wraps (w n : Z) (c : ascii) (tail : string) :
  1 <= n <= 2 ^ w - 1 ->
  digit_val c = None ->
  read_cycles w ("-" ++ Rendering.show n ++ String c tail) = (2 ^ w - n, false).
Proof.
  intros Hn Hc. unfold read_cycles, extract_unsigned.
  cbn [append skipws]. change (isspace "-") with false. cbv iota.
  change (Ascii.eqb "-" "-") with true. cbn [orb].
  rewrite digits_show, digits_stop by (lia || exact Hc). cbn [negb].
  replace (2 ^ w - 1 <? n) with false by (symmetry; apply Z.ltb_ge; lia).
  cbn [negb orb]. rewrite wrap_opp by exact Hn.
  replace (2 ^ w - n <? 1) with false by (symmetry; apply Z.ltb_ge; lia).
  reflexivity.
Qed.

Lemma negative_count_wraps_witness :
  ("-" ++ Rendering.show 5 ++ String "010" "")%string = line "-5" /\
  read_cycles 64 ("-" ++ Rendering.show 5 ++ String "010" "")
  = (2 ^ 64 - 5, false).
Proof.
  split; [reflexivity |].
  apply (negative_count_wraps 64 5 "010" ""); [lia | reflexivity].
Defined.

Lemma read_cycles_no_number (w : Z) (input : string) :
  0 <= w ->
  skipws input = EmptyString \/
  (exists c rest,
      skipws input = String c rest /\ digit_val c = None /\
      Ascii.eqb c "-" = false /\ Ascii.eqb c "+" = false) ->
  read_cycles w input = (1, true).
Proof.
  intros Hw [H | (c & rest & Hs & Hd & Hm & Hp)].
  - unfold read_cycles, extract_unsigned. rewrite H. reflexivity.
  - eapply (read_cycles_rejects w input c rest (String c rest) 0 false Hw Hs).
    + rewrite Hm, Hp. cbn [orb]. apply digits_stop, Hd.
    + left. reflexivity.
Qed.

(** X22: input that holds no number makes either program warn once and run
    exactly one cycle: when standard input is empty or blank, or continues
    after the white space with a character that is neither a digit nor a
    sign, the cycle count is 1, and a run that reports has sent
    "Invalid input; defaulting to 1." and nothing else to the error stream
    and has run the cycle 1 only. *)
Theorem input_without_number_runs_one_cycle (w : Z) (env : Env) (fuel : nat)
        (input : string) (st st' : World) (code : Z) (results : list CycleResult)
        (summary : RunSummary) :
  32 <= w ->
  skipws input = EmptyString \/
  (exists c rest,
      skipws input = String c rest /\ digit_val c = None /\
      Ascii.eqb c "-" = false /\ Ascii.eqb c "+" = false) ->
  Program.main w env fuel input st = Ok (code, Some (results, summary)) st' \/
  ProgramOptimized.main w env fuel input st = Ok (code, Some (results, summary)) st' ->
  read_cycles w input = (1, true) /\
  err st' = err st ++ [InvalidInput] /\
  cycleCount summary = 1 /\
  map cycleIndex results = [1].
Proof.
  intros Hw Hin H.
  pose proof (read_cycles_no_number w input ltac:(lia) Hin) as Hr.
  destruct (main_cycle_count w env fuel input st st' code results summary Hw H)
    as [Hidx _].
  assert (He : err st' = err st ++ (if snd (read_cycles w input)
                                    then [InvalidInput] else [])).
  { destruct H as [H | H]; eapply main_err; exact H. }
  assert (Hn : cycleCount summary = fst (read_cycles w input)).
  { destruct H as [H | H]; apply main_inv in H; cbv zeta in H;
      destruct H as (? & ? & ? & ? & ? & ? & _ & _ & _ & -> & _); reflexivity. }
  rewrite Hr in He, Hn. cbn [fst snd] in He, Hn.
  rewrite Hn in Hidx. auto.
Qed.

Lemma input_without_number_runs_one_cycle_witness :
  exists results summary st',
    Program.main 64 env_all_ok 3 (line "abc") one_cycle_world
    = Ok (0, Some (results, summary)) st' /\
    read_cycles 64 (line "abc") = (1, true) /\
    err st' = err one_cycle_world ++ [InvalidInput] /\
    cycleCount summary = 1 /\
    map cycleIndex results = [1].
Proof.
  eexists. eexists. eexists. split; [vm_compute; reflexivity |].
  eapply (input_without_number_runs_one_cycle 64 env_all_ok 3 (line "abc") one_cycle_world);
    [lia | | left; vm_compute; reflexivity].
  right. exists "a"%char, (line "bc"). repeat split; reflexivity.
Defined.

(** ** A cycle completes when the clocks advance *)

Lemma optimized_pause_loop_returns (w : Z) (checked : list Z) :
  32 <= w ->
  forall (t0 : Z) (wl : list Z) (x : Z) (rest : list Z) (acc : Acc),
    t0 :: wl = checked ++ x :: rest ->
    Forall (fun s => second_of s mod 8 = 0) checked ->
    second_of x mod 8 <> 0 ->
    exists acc',
      ProgramOptimized.pause_loop w wl (second_of t0) acc = Some (acc', rest) /\
      paused (map (fun s => second_of s * 100) checked) acc acc'.
Proof.
  intros Hw. pose proof (pow2_32_le w Hw) as Hp.
  induction checked as [|c checked IH]; intros t0 wl x rest acc Hsplit Hall Hx.
  - cbn [app] in Hsplit. inversion Hsplit; subst. apply Z.eqb_neq in Hx.
    exists acc. split; [| apply paused_nil].
    destruct rest; cbn [ProgramOptimized.pause_loop]; rewrite Hx; reflexivity.
  - cbn [app] in Hsplit. inversion Hsplit; subst.
    inversion Hall as [|? ? Hc Hall']; subst. apply Z.eqb_eq in Hc.
    destruct (checked ++ x :: rest) as [|t1 wl'] eqn:E; [destruct checked; discriminate |].
    destruct (IH t1 wl' x rest (pause (wrap w (second_of c * 100)) acc) (eq_sym E) Hall' Hx)
      as (acc' & Hrun & Hpaused).
    exists acc'. cbn [ProgramOptimized.pause_loop]. rewrite Hc.
    split; [exact Hrun |].
    cbn [map]. apply paused_step.
    rewrite wrap_small in Hpaused by (pose proof (second_of_range c); lia).
    exact Hpaused.
Qed.

(** X23: a cycle of [program_optimized.cxx] completes when the clocks advance.
    If the wall clock leaves a second that is a multiple of 8 (samples
    [checked], then [x]) and the monotonic clock reaches the deadline (samples
    [pre] less than one second after the start, then [now]), with a sample
    of the wall clock left for each progress line, the measuring part
    returns: it has slept once for each sample of [checked], counted one
    iteration for each sample of [pre] (modulo [2 ^ w]) and left the
    monotonic samples after [now]. *)
Theorem optimized_cycle_completes (w cycles cycle : Z) (checked : list Z)
        (x nowTp t : Z) (wl : list Z) (startTp : Z) (pre : list Z) (now : Z)
        (rest : list Z) :
  32 <= w ->
  Forall (fun s => second_of s mod 8 = 0) checked ->
  second_of x mod 8 <> 0 ->
  Forall (fun s => s - startTp < 1 * ns_per_sec) pre ->
  1 * ns_per_sec <= now - startTp ->
  (List.length pre <= List.length wl)%nat ->
  exists m wall',
    ProgramOptimized.measure w cycles cycle (checked ++ x :: nowTp :: t :: wl)
      (startTp :: pre ++ now :: rest)
    = Some (m, wall', rest) /\
    m_iterations m = wrap w (Z.of_nat (List.length pre)) /\
    a_sleeps (m_acc m) = map (fun s => second_of s * 100) checked /\
    m_startStr m = dateTimeToString t.
Proof.
  intros Hw Hall Hx Hpre Hnow Hlen. pose proof (pow2_32_le w Hw) as Hp.
  destruct (checked ++ x :: nowTp :: t :: wl) as [|t0 wl0] eqn:E;
    [destruct checked; discriminate |].
  destruct (optimized_pause_loop_returns w checked Hw t0 wl0 x (nowTp :: t :: wl) acc0
              (eq_sym E) Hall Hx) as (acc1 & Hpause & Hs & _).
  destruct (optimized_counting_loop_returns w cycles cycle (startTp + 1 * ns_per_sec) now
              rest ltac:(lia) ltac:(lia) pre wl 0
              (say (ReadyToGo (dateTimeToString nowTp)) acc1))
    as (acc2 & wall' & Hloop).
  - eapply Forall_impl; [| exact Hpre]. cbv beta. intros; lia.
  - exact Hlen.
  - lia.
  - pose proof Hloop as Hsl.
    apply optimized_counting_loop_deadline in Hsl; [| lia | lia].
    destruct Hsl as ((_ & _ & Hsl) & _).
    unfold ProgramOptimized.measure. rewrite Hpause, Hloop.
    eexists. exists wall'. split; [reflexivity |].
    cbn [m_iterations m_acc m_startStr]. rewrite Z.add_0_l.
    split; [reflexivity |]. split; [| reflexivity].
    rewrite Hsl. cbn [say a_sleeps]. rewrite Hs. reflexivity.
Qed.

Lemma optimized_cycle_completes_witness :
  exists m wall',
    ProgramOptimized.measure 64 1 1 ([sec 8; sec 16] ++ sec 17 :: sec 17 :: sec 17 :: [sec 18])
      (0 :: [5] ++ sec 1 :: [7])
    = Some (m, wall', [7]) /\
    m_iterations m = wrap 64 (Z.of_nat (List.length [5])) /\
    a_sleeps (m_acc m) = map (fun s => second_of s * 100) [sec 8; sec 16] /\
    m_startStr m = dateTimeToString (sec 17).
Proof.
  apply (optimized_cycle_completes 64 1 1 [sec 8; sec 16] (sec 17) (sec 17) (sec 17)
           [sec 18] 0 [5] (sec 1) [7]).
  - lia.
  - repeat constructor.
  - vm_compute. discriminate.
  - repeat constructor.
  - vm_compute. discriminate.
  - cbn. lia.
Defined.

Lemma program_pause_loop_returns (w : Z) (pairs : list (Z * Z)) :
  32 <= w ->
  forall (x : Z) (rest : list Z) (pauseMs : Z) (acc : Acc),
    Forall (fun p => getCurrentSecond (fst p) mod 8 = 0) pairs ->
    getCurrentSecond x mod 8 <> 0 ->
    exists acc',
      Program.pause_loop w (flat_pairs pairs ++ x :: rest) pauseMs acc
      = Some (acc', rest) /\
      paused (firstn (List.length pairs)
                     (pauseMs :: map (fun p => getCurrentSecond (snd p) * 100) pairs))
             acc acc'.
Proof.
  intros Hw. pose proof (pow2_32_le w Hw) as Hp.
  induction pairs as [|[a b] pairs IH]; intros x rest pauseMs acc Hall Hx.
  - apply Z.eqb_neq in Hx. exists acc. cbn [flat_pairs map List.concat app Program.pause_loop].
    rewrite Hx. split; [reflexivity | apply paused_nil].
  - inversion Hall as [|? ? Ha Hall']; subst. cbn [fst] in Ha. apply Z.eqb_eq in Ha.
    destruct (IH x rest (wrap w (getCurrentSecond b * 100)) (pause pauseMs acc) Hall' Hx)
      as (acc' & Hrun & Hpaused).
    exists acc'.
    change (flat_pairs ((a, b) :: pairs) ++ x :: rest)
      with (a :: b :: flat_pairs pairs ++ x :: rest).
    cbn [Program.pause_loop]. rewrite Ha. cbn [negb].
    split; [exact Hrun |].
    cbn [List.length firstn map snd]. apply paused_step.
    rewrite wrap_small in Hpaused by (pose proof (getCurrentSecond_range b); lia).
    exact Hpaused.
Qed.

Lemma program_counting_loop_returns (w cycles cycle startSecond : Z) (pre : list Z) :
  32 <= w ->
  forall (y : Z) (rest : list Z) (i iterations : Z) (acc : Acc),
    Forall (fun s => getCurrentSecond s = startSecond) pre ->
    getCurrentSecond y <> startSecond ->
    0 <= i -> i + Z.of_nat (List.length pre) + 1 < 100000 ->
    Program.counting_loop w cycles cycle startSecond (pre ++ y :: rest) i iterations acc
    = Some (i + Z.of_nat (List.length pre) + 1, acc, rest).
Proof.
  intros Hw. pose proof (pow2_32_le w Hw) as Hp.
  induction pre as [|s pre IH]; intros y rest i iterations acc Hall Hy Hi Hsmall;
    cbn [List.length] in Hsmall.
  - apply Z.eqb_neq in Hy. cbn [app Program.counting_loop].
    rewrite wrap_small by lia.
    replace ((i + 1) mod 100000 =? 0) with false
      by (symmetry; apply Z.eqb_neq; rewrite Z.mod_small; lia).
    rewrite Hy. cbn [List.length]. do 3 f_equal. lia.
  - inversion Hall as [|? ? Hs Hall']; subst. cbn [app Program.counting_loop].
    rewrite wrap_small by lia.
    replace ((i + 1) mod 100000 =? 0) with false
      by (symmetry; apply Z.eqb_neq; rewrite Z.mod_small; lia).
    rewrite Z.eqb_refl.
    rewrite IH by (auto; lia). cbn [List.length]. do 3 f_equal. lia.
Qed.

(** X24: a cycle of [program.cxx] completes when the wall clock advances.
    If the tested samples of the pause leave the multiples of 8 (pairs of
    samples [pairs], then [x]) and, after the three samples that start the
    measurement, the clock stays within the starting second for the samples
    [pre] and then leaves it at [y], with fewer than 100,000 samples in
    [pre], the measuring part returns: it has counted one iteration more
    than there are samples in [pre], written no progress line, and left the
    samples after [y]. *)
Theorem program_cycle_completes (w cycles cycle : Z) (t0 : Z) (pairs : list (Z * Z))
        (x nowTp startTp t : Z) (pre : list Z) (y : Z) (rest mono : list Z) :
  32 <= w ->
  Forall (fun p => getCurrentSecond (fst p) mod 8 = 0) pairs ->
  getCurrentSecond x mod 8 <> 0 ->
  Forall (fun s => getCurrentSecond s = getCurrentSecond t) pre ->
  getCurrentSecond y <> getCurrentSecond t ->
  Z.of_nat (List.length pre) + 1 < 100000 ->
  exists m,
    Program.measure w cycles cycle
      (t0 :: flat_pairs pairs ++ x :: nowTp :: startTp :: t :: pre ++ y :: rest) mono
    = Some (m, rest, mono) /\
    m_iterations m = Z.of_nat (List.length pre) + 1 /\
    a_sleeps (m_acc m)
    = firstn (List.length pairs)
             (map (fun s => getCurrentSecond s * 100) (t0 :: map snd pairs)) /\
    a_buffer (m_acc m) = map PausedFor (a_sleeps (m_acc m)) /\
    m_startStr m = dateTimeToString startTp.
Proof.
  intros Hw Hall Hx Hpre Hy Hsmall. pose proof (pow2_32_le w Hw) as Hp.
  destruct (program_pause_loop_returns w pairs Hw x
              (nowTp :: startTp :: t :: pre ++ y :: rest)
              (wrap w (getCurrentSecond t0 * 100)) acc0 Hall Hx)
    as (acc1 & Hpause & Hs & Hb & _).
  pose proof (program_counting_loop_returns w cycles cycle (getCurrentSecond t) pre Hw
                y rest 0 0 (say (ReadyToGo (dateTimeToString nowTp)) acc1)
                Hpre Hy ltac:(lia) ltac:(lia)) as Hloop.
  unfold Program.measure. rewrite Hpause, Z.eqb_refl, Hloop.
  eexists. split; [reflexivity |].
  cbn [m_iterations m_acc m_startStr say a_sleeps a_buffer].
  rewrite Hs, Hb. cbn [acc0 a_sleeps a_buffer app].
  rewrite wrap_small by (pose proof (getCurrentSecond_range t0); lia).
  cbn [map]. rewrite map_map.
  repeat split; reflexivity.
Qed.

Lemma program_cycle_completes_witness :
  exists m,
    Program.measure 64 1 1
      (sec 7 :: flat_pairs [(sec 8, sec 15); (sec 16, sec 16)] ++ sec 17 :: sec 17
       :: sec 17 :: sec 17 :: [sec 17] ++ sec 18 :: [sec 18]) []
    = Some (m, [sec 18], []) /\
    m_iterations m = Z.of_nat (List.length [sec 17]) + 1 /\
    a_sleeps (m_acc m)
    = firstn (List.length [(sec 8, sec 15); (sec 16, sec 16)])
             (map (fun s => getCurrentSecond s * 100)
                  (sec 7 :: map snd [(sec 8, sec 15); (sec 16, sec 16)])) /\
    a_buffer (m_acc m) = map PausedFor (a_sleeps (m_acc m)) /\
    m_startStr m = dateTimeToString (sec 17).
Proof.
  apply (program_cycle_completes 64 1 1 (sec 7) [(sec 8, sec 15); (sec 16, sec 16)]
           (sec 17) (sec 17) (sec 17) (sec 17) [sec 17] (sec 18) [sec 18] []).
  - lia.
  - repeat constructor.
  - vm_compute. discriminate.
  - repeat constructor.
  - vm_compute. discriminate.
  - cbn. lia.
Defined.

(** ** A whole run of [program_optimized.cxx], from the text of the count *)

(** The deadline loop on a script of its own: it reads the monotonic samples
    up to the first one at the deadline, and one wall-clock sample for each
    progress line. *)
Lemma optimized_counting_loop_script (w cycles cycle endTp now : Z)
      (rest_w rest_m : list Z) :
  0 <= w -> endTp <= now ->
  forall (pre progress : list Z) (i : Z) (acc : Acc),
    Forall (fun t => t < endTp) pre ->
    List.length progress = List.length (marks w i (List.length pre)) ->
    0 <= i < 2 ^ w ->
    exists acc',
      ProgramOptimized.counting_loop w cycles cycle endTp (pre ++ now :: rest_m)
        (progress ++ rest_w) i i acc
      = Some (wrap w (i + Z.of_nat (List.length pre)), acc', rest_w, rest_m) /\
      a_sleeps acc' = a_sleeps acc.
Proof.
  intros Hw Hnow. apply Z.ltb_ge in Hnow.
  induction pre as [|t pre IH]; intros progress i acc Hpre Hlen Hi.
  - cbn [List.length marks] in Hlen. destruct progress; [| discriminate Hlen].
    cbn [app ProgramOptimized.counting_loop]. rewrite Hnow.
    exists acc. cbn [List.length]. rewrite Z.add_0_r, wrap_small by exact Hi.
    split; reflexivity.
  - inversion Hpre as [|t' pre' Ht Hpre']; subst. apply Z.ltb_lt in Ht.
    cbn [app ProgramOptimized.counting_loop]. rewrite Ht.
    assert (Hi' : 0 <= wrap w (i + 1) < 2 ^ w) by apply wrap_range, Hw.
    assert (Hk : wrap w (wrap w (i + 1) + Z.of_nat (List.length pre))
                 = wrap w (i + Z.of_nat (List.length (t :: pre))))
      by (rewrite wrap_add_l; f_equal; cbn [List.length]; lia).
    cbn [List.length marks] in Hlen.
    destruct (wrap w (i + 1) mod 100000 =? 0).
    + destruct progress as [|progressTp progress]; [discriminate Hlen |].
      cbn [app List.length] in Hlen. cbn [app].
      destruct (IH progress (wrap w (i + 1))
                   (log_line (ProgressLine cycle cycles (wrap w (i + 1))
                                           (dateTimeToString progressTp)) acc)
                   Hpre' ltac:(lia) Hi') as (acc' & Heq & Hs).
      exists acc'. rewrite Heq, Hk. split; [reflexivity | exact Hs].
    + cbn [app] in Hlen.
      destruct (IH progress (wrap w (i + 1)) acc Hpre' Hlen Hi') as (acc' & Heq & Hs).
      exists acc'. rewrite Heq, Hk. split; [reflexivity | exact Hs].
Qed.

Lemma optimized_measure_script (w cycles cycle : Z) (c : CycleScript)
      (rest_w rest_m : list Z) :
  32 <= w ->
  advancing w c ->
  exists m,
    ProgramOptimized.measure w cycles cycle
      (cs_checked c ++ cs_x c :: cs_nowTp c :: cs_t c :: cs_progress c ++ rest_w)
      (cs_startTp c :: cs_pre c ++ cs_now c :: rest_m)
    = Some (m, rest_w, rest_m) /\
    m_iterations m = cs_count w c /\
    a_sleeps (m_acc m) = cs_sleeps c.
Proof.
  intros Hw (Hall & Hx & Hpre & Hnow & Hlen). pose proof (pow2_32_le w Hw) as Hp.
  destruct (cs_checked c ++ cs_x c :: cs_nowTp c :: cs_t c :: cs_progress c ++ rest_w)
    as [|t0 wl0] eqn:E; [destruct (cs_checked c); discriminate |].
  destruct (optimized_pause_loop_returns w (cs_checked c) Hw t0 wl0 (cs_x c)
              (cs_nowTp c :: cs_t c :: cs_progress c ++ rest_w) acc0
              (eq_sym E) Hall Hx) as (acc1 & Hpause & Hs & _).
  destruct (optimized_counting_loop_script w cycles cycle (cs_startTp c + 1 * ns_per_sec)
              (cs_now c) rest_w rest_m ltac:(lia) ltac:(lia) (cs_pre c) (cs_progress c) 0
              (say (ReadyToGo (dateTimeToString (cs_nowTp c))) acc1))
    as (acc2 & Hloop & Hsl).
  - eapply Forall_impl; [| exact Hpre]. cbv beta. intros; lia.
  - exact Hlen.
  - lia.
  - unfold ProgramOptimized.measure. rewrite Hpause, Hloop.
    eexists. split; [reflexivity |].
    cbn [m_iterations m_acc m_startStr]. rewrite Z.add_0_l.
    split; [reflexivity |].
    rewrite Hsl. cbn [say a_sleeps]. rewrite Hs. reflexivity.
Qed.

Lemma run_cycle_script (w : Z) (env : Env) (cycles cycle sum : Z) (st : World)
      (c : CycleScript) (rest_w rest_m : list Z) :
  32 <= w ->
  advancing w c ->
  wall st = cs_wall c ++ rest_w ->
  mono st = cs_mono c ++ rest_m ->
  exists r st',
    Runner.run_cycle w env (ProgramOptimized.measure w) cycles cycle sum st
    = Ok (r, wrap w (sum + cs_count w c)) st' /\
    cycleIndex r = cycle /\ iterationCount r = cs_count w c /\
    wall st' = rest_w /\ mono st' = rest_m /\
    sleeps st' = sleeps st ++ cs_sleeps c /\
    err st' = err st.
Proof.
  intros Hw Hadv Hwall Hmono.
  destruct (optimized_measure_script w cycles cycle c (cs_endTp c :: rest_w) rest_m Hw Hadv)
    as (m & Hm & Hits & Hsl).
  unfold cs_wall in Hwall. unfold cs_mono in Hmono.
  cbn [app] in Hwall, Hmono. rewrite <- !app_assoc in Hwall, Hmono.
  cbn [app] in Hwall, Hmono. rewrite <- !app_assoc in Hwall.
  cbn [app] in Hwall.
  unfold Runner.run_cycle, Runner.append_log, Runner.write_detail, Runner.measure_cycle,
    Runner.open_file, Runner.log_lines, bind, print, system_now, ret.
  cbn. rewrite Hwall. cbn. rewrite Hmono, Hm. cbn.
  eexists. eexists. split; [rewrite Hits; reflexivity |]. cbn.
  rewrite Hsl. repeat split; reflexivity.
Qed.

Lemma cycle_loop_script (w : Z) (env : Env) (cycles : Z) (rest_w rest_m : list Z) :
  32 <= w -> cycles < 2 ^ w - 1 ->
  forall (cs : list CycleScript) (fuel : nat) (cycle sum : Z)
         (results : list CycleResult) (st : World),
    Forall (advancing w) cs ->
    1 <= cycle ->
    cycle + Z.of_nat (List.length cs) = cycles + 1 ->
    (List.length cs < fuel)%nat ->
    0 <= sum < 2 ^ w ->
    wall st = List.concat (map cs_wall cs) ++ rest_w ->
    mono st = List.concat (map cs_mono cs) ++ rest_m ->
    exists rs st',
      Runner.cycle_loop w env (ProgramOptimized.measure w) fuel cycles cycle sum results st
      = Ok (wrap w (sum + sumZ (map (cs_count w) cs)), results ++ rs) st' /\
      map cycleIndex rs = Zrange cycle (List.length cs) /\
      map iterationCount rs = map (cs_count w) cs /\
      wall st' = rest_w /\ mono st' = rest_m /\
      sleeps st' = sleeps st ++ List.concat (map cs_sleeps cs) /\
      err st' = err st.
Proof.
  intros Hw Hmax.
  assert (Hw0 : 0 <= w) by lia.
  induction cs as [|c cs IH];
    intros fuel cycle sum results st Hcs Hcycle Hlen Hfuel Hsum Hwall Hmono.
  - destruct fuel as [|fuel]; [cbn in Hfuel; lia |].
    cbn [List.length] in Hlen. cbn [Runner.cycle_loop].
    replace (cycle <=? cycles) with false by (symmetry; apply Z.leb_gt; lia).
    exists [], st. unfold ret. cbn [map sumZ fold_right Zrange List.length List.concat].
    rewrite !app_nil_r, Z.add_0_r, wrap_small by exact Hsum.
    cbn in Hwall, Hmono. repeat split; auto.
  - destruct fuel as [|fuel]; [cbn in Hfuel; lia |].
    cbn [List.length] in Hlen, Hfuel.
    inversion Hcs as [|c0 cs0 Hc Hcs']; subst.
    cbn [map List.concat] in Hwall, Hmono. rewrite <- app_assoc in Hwall, Hmono.
    destruct (run_cycle_script w env cycles cycle sum st c
                (List.concat (map cs_wall cs) ++ rest_w)
                (List.concat (map cs_mono cs) ++ rest_m) Hw Hc Hwall Hmono)
      as (r & st1 & Hrun & Hidx & Hcount & Hwall1 & Hmono1 & Hsl1 & Herr1).
    cbn [Runner.cycle_loop].
    replace (cycle <=? cycles) with true by (symmetry; apply Z.leb_le; lia).
    unfold bind. rewrite Hrun. cbn [fst snd].
    rewrite (wrap_small w (cycle + 1)) by lia.
    destruct (IH fuel (cycle + 1) (wrap w (sum + cs_count w c)) (results ++ [r]) st1
                 Hcs' ltac:(lia) ltac:(lia) ltac:(lia) (wrap_range w _ Hw0)
                 Hwall1 Hmono1)
      as (rs & st' & Hloop & Hidxs & Hcounts & Hwall' & Hmono' & Hsl' & Herr').
    exists (r :: rs), st'. rewrite Hloop.
    cbn [map List.length Zrange List.concat]. rewrite Hidx, Hidxs, Hcount, Hcounts, <- app_assoc.
    change (sumZ (cs_count w c :: map (cs_count w) cs))
      with (cs_count w c + sumZ (map (cs_count w) cs)).
    rewrite wrap_add_l, Z.add_assoc, Hsl', Hsl1, Herr', Herr1, <- app_assoc.
    repeat split; auto.
Qed.

(** X25: a run of [program_optimized.cxx] completes and reports, from the
    text of the cycle count to the summary, whenever the clocks advance.
    Take any N >= 1 cycles (N below [2 ^ w - 1]), both directories present
    (the files may open or not), the decimal digits of N and a newline on
    standard input, and clocks that give: on the wall clock two samples
    (header, start of the run), then for each cycle the samples of
    [cs_wall] (the stamp, the samples of the pause, which ends at the first
    one outside the multiples of 8, [nowTp], the start time, one sample for
    each progress line, the end time), then the sample of the end of the
    run; on the monotonic clock, for each cycle, the start, the samples
    before the deadline and one sample at or after it.  Then the run ends
    with exit code 0, having run the cycles 1 to N in order; each cycle
    counted one iteration for each monotonic sample before its deadline
    (modulo [2 ^ w]), the total is the sum of the counts modulo [2 ^ w], the
    run slept once for each sample that the pauses found at a multiple of 8,
    it read exactly these samples of the two clocks and sent nothing to the
    error stream. *)
Theorem optimized_run_completes (w : Z) (env : Env) (cs : list CycleScript) (fuel : nat)
        (st : World) (now0 start stop : Z) (rest_w rest_m : list Z) :
  32 <= w ->
  detail_dir_ok env = true ->
  log_dir_ok env = true ->
  cs <> [] ->
  Z.of_nat (List.length cs) < 2 ^ w - 1 ->
  (List.length cs < fuel)%nat ->
  Forall (advancing w) cs ->
  wall st = now0 :: start :: List.concat (map cs_wall cs) ++ stop :: rest_w ->
  mono st = List.concat (map cs_mono cs) ++ rest_m ->
  exists results summary st',
    ProgramOptimized.main w env fuel
      (line (Rendering.show (Z.of_nat (List.length cs)))) st
    = Ok (0, Some (results, summary)) st' /\
    map cycleIndex results = Zrange 1 (List.length cs) /\
    map iterationCount results = map (cs_count w) cs /\
    totalIterations summary = wrap w (sumZ (map (cs_count w) cs)) /\
    cycleCount summary = Z.of_nat (List.length cs) /\
    runStart summary = dateTimeToString start /\
    runEnd summary = dateTimeToString stop /\
    sleeps st' = sleeps st ++ List.concat (map cs_sleeps cs) /\
    wall st' = rest_w /\
    mono st' = rest_m /\
    err st' = err st.
Proof.
  intros Hw Hdd Hld Hne Hmax Hfuel Hadv Hwall Hmono.
  assert (Hn : 1 <= Z.of_nat (List.length cs)) by (destruct cs; [congruence | cbn; lia]).
  assert (Hread : read_cycles w (line (Rendering.show (Z.of_nat (List.length cs))))
                  = (Z.of_nat (List.length cs), false))
    by (apply read_cycles_show; [lia | reflexivity]).
  unfold ProgramOptimized.main, Runner.main.
  rewrite Hread, Hdd, Hld. cbn [fst snd negb orb].
  unfold Runner.log_header, Runner.append_log, Runner.open_file, Runner.log_lines,
    bind, print, eprint, system_now, ret.
  cbn [wall mono opens out err sleeps itlog details set_wall].
  rewrite Hwall.
  cbn [wall mono opens out err sleeps itlog details set_wall].
  match goal with
  | |- context [Runner.cycle_loop _ _ _ _ _ _ _ _ ?s] =>
      destruct (cycle_loop_script w env (Z.of_nat (List.length cs)) (stop :: rest_w) rest_m
                  Hw Hmax cs fuel 1 0 [] s Hadv ltac:(lia) ltac:(lia) Hfuel
                  ltac:(pose proof (pow2_32_le w Hw); lia) eq_refl Hmono)
      as (rs & st3 & Hloop & Hidxs & Hcounts & Hwall3 & Hmono3 & Hsl3 & Herr3)
  end.
  rewrite Z.add_0_l in Hloop. cbn [app] in Hloop.
  rewrite Hloop, Hwall3. cbn [fst snd].
  eexists. eexists. eexists. split; [reflexivity |].
  cbn [totalIterations cycleCount runStart runEnd err sleeps wall mono].
  cbn [sleeps err] in Hsl3, Herr3.
  repeat split; auto.
Qed.

Lemma optimized_run_completes_witness :
  exists results summary st',
    ProgramOptimized.main 64 env_no_detail 3
      (line (Rendering.show (Z.of_nat (List.length two_cycle_scripts))))
      two_cycle_script_world
    = Ok (0, Some (results, summary)) st' /\
    map cycleIndex results = Zrange 1 (List.length two_cycle_scripts) /\
    map iterationCount results = map (cs_count 64) two_cycle_scripts /\
    totalIterations summary = wrap 64 (sumZ (map (cs_count 64) two_cycle_scripts)) /\
    cycleCount summary = Z.of_nat (List.length two_cycle_scripts) /\
    runStart summary = dateTimeToString (sec 7 + 1) /\
    runEnd summary = dateTimeToString (sec 11 + 600000030) /\
    sleeps st' = [800; 800] /\
    wall st' = [sec 12] /\
    mono st' = [sec 103] /\
    err st' = err two_cycle_script_world.
Proof.
  apply (optimized_run_completes 64 env_no_detail two_cycle_scripts 3
           two_cycle_script_world (sec 7)).
  - lia.
  - reflexivity.
  - reflexivity.
  - discriminate.
  - cbn [List.length two_cycle_scripts]. lia.
  - cbn [List.length two_cycle_scripts]. lia.
  - repeat constructor; vm_compute; try discriminate; try reflexivity.
  - reflexivity.
  - reflexivity.
Defined.

(** * C3: the two programs side by side *)







